(** * Home appliance maintenance tracker

    A shallow embedding of the server's storage layer ([DatabaseStorage]),
    of the HTTP routes that mutate devices, consumables and maintenance
    tasks, of the task form's validation schema and of the dashboard's
    due-date classification, followed by the properties of the
    maintenance-task lifecycle, of the ownership chain and of the device
    cascade.

    Conventions.  Instants ([Date], [timestamp] columns) are milliseconds
    since the epoch, in [Z].  A table is the list of its rows in the order
    an unordered [select] returns them: the order of insertion, an updated
    row moving to the end.  A JavaScript object whose keys may be absent
    (a request body, [Partial<T>]) is a record of [option]s: [None] is an
    absent key, [Some v] a key holding [v]; for a nullable column [v] is
    itself an [option], [None] standing for [null].  A request body holds
    no other keys than the columns of its table.  Integers ([integer],
    [serial], path parameters after [parseInt]) are in [Z]; the keys of a
    body that go to an [integer] column hold integers. *)

From Stdlib Require Import ZArith QArith_base List String Bool Lia DecimalPos
  Permutation.
Import ListNotations.
Local Open Scope Z_scope.

Definition Timestamp := Z.

(** What drizzle's [set] does with one key: an absent key leaves the
    column alone. *)
Definition upd {A : Type} (new : option A) (old : A) : A :=
  match new with
  | Some v => v
  | None => old
  end.

(** What [values] does with a key of a nullable column without default:
    absent and [null] both store [null]. *)
Definition orNull {A : Type} (v : option (option A)) : option A :=
  match v with
  | Some x => x
  | None => None
  end.

(** A key of a [notNull] column, once the statement has refused [null]. *)
Definition updNotNull {A : Type} (new : option (option A)) (old : A) : A :=
  match new with
  | Some (Some v) => v
  | _ => old
  end.

(** ** JavaScript values reaching the date fields *)

Inductive JsDate :=
| ValidDate (ms : Z)
| InvalidDate.

(** A JSON scalar.  A string comes with what [Date.parse] reads from it
    ([None] for a string that is no date). *)
Inductive JsValue :=
| JNull
| JBool (b : bool)
| JNum (n : Z)
| JStr (s : string) (parsed : option Z).

Definition truthy (v : JsValue) : bool :=
  match v with
  | JNull => false
  | JBool b => b
  | JNum n => negb (n =? 0)
  | JStr s _ => negb (String.eqb s EmptyString)
  end.

Definition maxTime : Z := 8640000000000000.

(** [new Date(v)] *)
Definition newDate (v : JsValue) : JsDate :=
  match v with
  | JNull => ValidDate 0
  | JBool b => ValidDate (if b then 1 else 0)
  | JNum n => if Z.abs n <=? maxTime then ValidDate n else InvalidDate
  | JStr _ (Some ms) => ValidDate ms
  | JStr _ None => InvalidDate
  end.

(** [x ? new Date(x) : null], with [x] possibly [undefined] *)
Definition dateOrNull (x : option JsValue) : option JsDate :=
  match x with
  | Some v => if truthy v then Some (newDate v) else None
  | None => None
  end.

(** What a key of a [timestamp] column holds when the object reaches
    drizzle: the value of the request body, or what the storage layer has
    put in its place. *)
Inductive Slot :=
| FromBody (v : JsValue)
| Converted (d : option JsDate).

(** ** shared/schema.ts: the tables *)

Module User.
Record t := mk {
  id : Z;
  username : string;
  password : string;
  created_at : Timestamp;
  updated_at : Timestamp
}.
End User.

Module Device.
Record t := mk {
  id : Z;
  name : string;
  model : option string;
  location : option string;
  userId : Z;
  imageUrl : option string;
  manualUrl : option string;
  consumablesUrl : option string;
  purchaseDate : option Timestamp;
  warrantyExpirationDate : option Timestamp;
  receiptUrl : option string;
  created_at : Timestamp;
  updated_at : Timestamp
}.
End Device.

Module Consumable.
Record t := mk {
  id : Z;
  deviceId : Z;
  name : string;
  description : option string;
  storage_location : option string;
  url : option string;
  cost : option string;
  created_at : Timestamp;
  updated_at : Timestamp
}.
End Consumable.

Module MaintenanceTask.
Record t := mk {
  id : Z;
  deviceId : Z;
  name : string;
  description : option string;
  intervalDays : Z;
  lastCompleted : option Timestamp;
  isCompleted : option bool;
  completedBy : option Z;
  completedByUsername : option string;
  created_at : Timestamp
}.
End MaintenanceTask.

(** ** Objects with optional keys: request bodies, [Partial<T>]

    [D] is what the keys of the [timestamp] columns hold: a [JsValue] in
    a request body, a [Slot] in the object the storage layer hands to
    drizzle, a timestamp or [null] once drizzle has encoded the object
    for the driver. *)

Module PartialDevice.
Record t (D : Type) := mk {
  id : option Z;
  name : option string;
  model : option (option string);
  location : option (option string);
  userId : option Z;
  imageUrl : option (option string);
  manualUrl : option (option string);
  consumablesUrl : option (option string);
  purchaseDate : option D;
  warrantyExpirationDate : option D;
  receiptUrl : option (option string);
  created_at : option D;
  updated_at : option D
}.
Arguments mk {D}.
Arguments id {D}.
Arguments name {D}.
Arguments model {D}.
Arguments location {D}.
Arguments userId {D}.
Arguments imageUrl {D}.
Arguments manualUrl {D}.
Arguments consumablesUrl {D}.
Arguments purchaseDate {D}.
Arguments warrantyExpirationDate {D}.
Arguments receiptUrl {D}.
Arguments created_at {D}.
Arguments updated_at {D}.

Definition empty {D : Type} : t D :=
  mk None None None None None None None None None None None None None.

(** [{ ...p, userId: u }] *)
Definition with_userId {D : Type} (p : t D) (u : Z) : t D :=
  mk (id p) (name p) (model p) (location p) (Some u) (imageUrl p)
     (manualUrl p) (consumablesUrl p) (purchaseDate p)
     (warrantyExpirationDate p) (receiptUrl p) (created_at p) (updated_at p).

(** [{ ...p, purchaseDate: pd, warrantyExpirationDate: wd }]: the two
    keys are replaced, the other keys are those of the body. *)
Definition with_dates (p : t JsValue) (pd wd : option JsDate) : t Slot :=
  mk (id p) (name p) (model p) (location p) (userId p) (imageUrl p)
     (manualUrl p) (consumablesUrl p) (Some (Converted pd)) (Some (Converted wd))
     (receiptUrl p)
     (option_map FromBody (created_at p)) (option_map FromBody (updated_at p)).
End PartialDevice.

Module PartialConsumable.
Record t (D : Type) := mk {
  id : option Z;
  deviceId : option Z;
  name : option string;
  description : option (option string);
  storage_location : option (option string);
  url : option (option string);
  cost : option (option string);
  created_at : option D;
  updated_at : option D
}.
Arguments mk {D}.
Arguments id {D}.
Arguments deviceId {D}.
Arguments name {D}.
Arguments description {D}.
Arguments storage_location {D}.
Arguments url {D}.
Arguments cost {D}.
Arguments created_at {D}.
Arguments updated_at {D}.

Definition empty {D : Type} : t D :=
  mk None None None None None None None None None.

(** [{ ...p, deviceId: d }] *)
Definition with_deviceId {D : Type} (p : t D) (d : Z) : t D :=
  mk (id p) (Some d) (name p) (description p) (storage_location p) (url p)
     (cost p) (created_at p) (updated_at p).

(** Does the object hold a key at all? *)
Definition has_values {D : Type} (p : t D) : bool :=
  match id p, deviceId p, name p, description p, storage_location p, url p,
        cost p, created_at p, updated_at p with
  | None, None, None, None, None, None, None, None, None => false
  | _, _, _, _, _, _, _, _, _ => true
  end.
End PartialConsumable.

Module PartialTask.
Record t (D : Type) := mk {
  id : option Z;
  deviceId : option Z;
  name : option string;
  description : option (option string);
  intervalDays : option Z;
  lastCompleted : option D;
  isCompleted : option (option bool);
  completedBy : option (option Z);
  completedByUsername : option (option string);
  created_at : option D
}.
Arguments mk {D}.
Arguments id {D}.
Arguments deviceId {D}.
Arguments name {D}.
Arguments description {D}.
Arguments intervalDays {D}.
Arguments lastCompleted {D}.
Arguments isCompleted {D}.
Arguments completedBy {D}.
Arguments completedByUsername {D}.
Arguments created_at {D}.

Definition empty {D : Type} : t D :=
  mk None None None None None None None None None None.

(** [{ ...p, deviceId: d, lastCompleted: null, isCompleted: false }] *)
Definition for_creation (p : t JsValue) (d : Z) : t JsValue :=
  mk (id p) (Some d) (name p) (description p) (intervalDays p)
     (Some JNull) (Some (Some false)) (completedBy p) (completedByUsername p)
     (created_at p).

(** The object literal of [completeTask], its [new Date()] encoded. *)
Definition completion (now : Timestamp) (userId : Z) (username : string)
  : t (option Timestamp) :=
  mk None None None None None (Some (Some now)) (Some (Some true))
     (Some (Some userId)) (Some (Some username)) None.

(** Does the object hold a key at all? *)
Definition has_values {D : Type} (p : t D) : bool :=
  match id p, deviceId p, name p, description p, intervalDays p,
        lastCompleted p, isCompleted p, completedBy p, completedByUsername p,
        created_at p with
  | None, None, None, None, None, None, None, None, None, None => false
  | _, _, _, _, _, _, _, _, _, _ => true
  end.
End PartialTask.

(** ** The database *)

Record Store := mkStore {
  users : list User.t;
  devices : list Device.t;
  consumables : list Consumable.t;
  maintenanceTasks : list MaintenanceTask.t;
  devices_id_seq : Z;
  consumables_id_seq : Z;
  maintenance_tasks_id_seq : Z
}.

Definition with_devices (l : list Device.t) (s : Store) : Store :=
  mkStore (users s) l (consumables s) (maintenanceTasks s)
          (devices_id_seq s) (consumables_id_seq s) (maintenance_tasks_id_seq s).

Definition with_consumables (l : list Consumable.t) (s : Store) : Store :=
  mkStore (users s) (devices s) l (maintenanceTasks s)
          (devices_id_seq s) (consumables_id_seq s) (maintenance_tasks_id_seq s).

Definition with_maintenanceTasks (l : list MaintenanceTask.t) (s : Store) : Store :=
  mkStore (users s) (devices s) (consumables s) l
          (devices_id_seq s) (consumables_id_seq s) (maintenance_tasks_id_seq s).

Definition with_devices_id_seq (n : Z) (s : Store) : Store :=
  mkStore (users s) (devices s) (consumables s) (maintenanceTasks s)
          n (consumables_id_seq s) (maintenance_tasks_id_seq s).

Definition with_consumables_id_seq (n : Z) (s : Store) : Store :=
  mkStore (users s) (devices s) (consumables s) (maintenanceTasks s)
          (devices_id_seq s) n (maintenance_tasks_id_seq s).

Definition with_maintenance_tasks_id_seq (n : Z) (s : Store) : Store :=
  mkStore (users s) (devices s) (consumables s) (maintenanceTasks s)
          (devices_id_seq s) (consumables_id_seq s) n.

(** ** Awaited computations

    Every [await db...] is one statement sent to the database.  It either
    returns or throws; the statements already executed stay executed, as
    no route and no storage method opens a transaction.  A [World] is the
    database together with the position, counted in statements from now,
    of the statement the database will fail to execute ([None]: none). *)

(** [PersistenceError] is a statement the database fails to execute.
    [TypeError], [RangeError] and [NoValuesToSet] are thrown by drizzle
    while it builds a statement, which is then never sent; the others are
    the database refusing the statement it has received. *)
Inductive Error :=
| PersistenceError
| UniqueViolation
| NotNullViolation
| ForeignKeyViolation
| NumericValueOutOfRange
| DatetimeOutOfRange
| RangeError
| TypeError
| NoValuesToSet.

Inductive Outcome (A : Type) :=
| Returned (a : A)
| Threw (e : Error).
Arguments Returned {A}.
Arguments Threw {A}.

Record World := mkWorld {
  db : Store;
  fault : option nat
}.

Definition reliable (s : Store) : World := mkWorld s None.

Definition Async (A : Type) : Type := World -> Outcome A * World.

Definition ret {A : Type} (a : A) : Async A := fun w => (Returned a, w).

Definition throw {A : Type} (e : Error) : Async A := fun w => (Threw e, w).

Definition bind {A B : Type} (m : Async A) (k : A -> Async B) : Async B :=
  fun w =>
    match m w with
    | (Returned a, w') => k a w'
    | (Threw e, w') => (Threw e, w')
    end.

(** [try { m } catch (error) { h }] *)
Definition try_catch {A : Type} (m : Async A) (h : Async A) : Async A :=
  fun w =>
    match m w with
    | (Returned a, w') => (Returned a, w')
    | (Threw _, w') => h w'
    end.

(** One statement. *)
Definition query {A : Type} (f : Store -> Outcome A * Store) : Async A :=
  fun w =>
    match fault w with
    | Some O => (Threw PersistenceError, mkWorld (db w) None)
    | Some (S k) => let (r, s) := f (db w) in (r, mkWorld s (Some k))
    | None => let (r, s) := f (db w) in (r, mkWorld s None)
    end.

Declare Scope async_scope.
Delimit Scope async_scope with async.
Notation "x <- m ;; k" := (bind m (fun x => k))
  (at level 61, m at next level, right associativity) : async_scope.
Notation "m ;; k" := (bind m (fun _ => k))
  (at level 61, right associativity) : async_scope.

(** ** The statements the storage layer issues

    Drizzle first encodes the object it is given; a statement that it
    cannot build is not sent.  Each statement is then a function of the
    store.  The database refuses a parameter that is no [integer] or no
    date of the years 0001 to 9999, and enforces what the schema
    declares: primary keys, [notNull] columns, and the reference from
    [completedBy] to [users.id].  A [serial] key absent from the values
    is drawn from the table's sequence, which stays advanced when the
    statement then fails.  The instants of the clocks ([defaultNow], the
    [new Date()] of [completeTask]) are dates the database accepts, and
    the ids of the stored users are values of their [serial] column, so
    that a [completedBy] is checked against the users only. *)

Module Sql.

(** *** What drizzle makes of an object *)

Definition and_then {A B : Type} (o : Outcome A) (k : A -> Outcome B) : Outcome B :=
  match o with
  | Returned a => k a
  | Threw e => Threw e
  end.

(** [value.toISOString()] on a [Date] or [null]; an invalid [Date] has
    no ISO string. *)
Definition encodeDate (d : option JsDate) : Outcome (option Timestamp) :=
  match d with
  | None => Returned None
  | Some (ValidDate ms) => Returned (Some ms)
  | Some InvalidDate => Threw RangeError
  end.

(** [value.toISOString()] on a value read from JSON: only [null] is
    passed on, no other JSON value has the method. *)
Definition encodeJson (v : JsValue) : Outcome (option Timestamp) :=
  match v with
  | JNull => Returned None
  | _ => Threw TypeError
  end.

Definition encodeSlot (x : Slot) : Outcome (option Timestamp) :=
  match x with
  | FromBody v => encodeJson v
  | Converted d => encodeDate d
  end.

Definition encodeKey {X : Type} (enc : X -> Outcome (option Timestamp))
    (k : option X) : Outcome (option (option Timestamp)) :=
  match k with
  | None => Returned None
  | Some x => and_then (enc x) (fun d => Returned (Some d))
  end.

(** The driver values of a device object. *)
Definition encode (p : PartialDevice.t Slot)
  : Outcome (PartialDevice.t (option Timestamp)) :=
  and_then (encodeKey encodeSlot (PartialDevice.purchaseDate p)) (fun pd =>
  and_then (encodeKey encodeSlot (PartialDevice.warrantyExpirationDate p)) (fun wd =>
  and_then (encodeKey encodeSlot (PartialDevice.created_at p)) (fun ca =>
  and_then (encodeKey encodeSlot (PartialDevice.updated_at p)) (fun ua =>
    Returned
      (PartialDevice.mk (PartialDevice.id p) (PartialDevice.name p)
         (PartialDevice.model p) (PartialDevice.location p)
         (PartialDevice.userId p) (PartialDevice.imageUrl p)
         (PartialDevice.manualUrl p) (PartialDevice.consumablesUrl p)
         pd wd (PartialDevice.receiptUrl p) ca ua))))).

(** The driver values of a consumable object. *)
Definition encodeConsumable (p : PartialConsumable.t JsValue)
  : Outcome (PartialConsumable.t (option Timestamp)) :=
  and_then (encodeKey encodeJson (PartialConsumable.created_at p)) (fun ca =>
  and_then (encodeKey encodeJson (PartialConsumable.updated_at p)) (fun ua =>
    Returned
      (PartialConsumable.mk (PartialConsumable.id p) (PartialConsumable.deviceId p)
         (PartialConsumable.name p) (PartialConsumable.description p)
         (PartialConsumable.storage_location p) (PartialConsumable.url p)
         (PartialConsumable.cost p) ca ua))).

(** The driver values of a task object. *)
Definition encodeTask (p : PartialTask.t JsValue)
  : Outcome (PartialTask.t (option Timestamp)) :=
  and_then (encodeKey encodeJson (PartialTask.lastCompleted p)) (fun lc =>
  and_then (encodeKey encodeJson (PartialTask.created_at p)) (fun ca =>
    Returned
      (PartialTask.mk (PartialTask.id p) (PartialTask.deviceId p)
         (PartialTask.name p) (PartialTask.description p)
         (PartialTask.intervalDays p) lc (PartialTask.isCompleted p)
         (PartialTask.completedBy p) (PartialTask.completedByUsername p) ca))).

(** *** What the database accepts as a parameter *)

Definition int4 (n : Z) : bool := (-2147483648 <=? n) && (n <=? 2147483647).

Definition int4_key (k : option Z) : bool :=
  match k with
  | Some n => int4 n
  | None => true
  end.

(** The instants whose ISO string has a year from 0001 to 9999. *)
Definition iso_year (ms : Timestamp) : bool :=
  (-62135596800000 <=? ms) && (ms <=? 253402300799999).

Definition iso_key (k : option (option Timestamp)) : bool :=
  match k with
  | Some (Some ms) => iso_year ms
  | _ => true
  end.

(** A [notNull] column is given [null]. *)
Definition null_key {A : Type} (k : option (option A)) : bool :=
  match k with
  | Some None => true
  | _ => false
  end.

(** What an [update] does to a table: the rows it hits are rewritten and
    come last. *)
Definition rewritten {A : Type} (hit : A -> bool) (f : A -> A) (rows : list A)
  : list A :=
  filter (fun r => negb (hit r)) rows ++ map f (filter hit rows).

Definition user_exists (s : Store) (u : Z) : bool :=
  existsb (fun x => User.id x =? u) (users s).

(** Does moving row [i] to the key in [new] hit another row's key? *)
Definition key_taken (new : option Z) (i : Z) (ids : list Z) : bool :=
  match new with
  | Some j => negb (j =? i) && existsb (Z.eqb j) ids
  | None => false
  end.

(** *** devices *)

Definition select_devices_userId (u : Z) (s : Store) : list Device.t :=
  filter (fun d => Device.userId d =? u) (devices s).

Definition select_devices_id (i : Z) (s : Store) : list Device.t :=
  filter (fun d => Device.id d =? i) (devices s).

(** What the database refuses of the parameters of a statement on
    devices, whichever rows the statement then meets: an [id] or a
    [userId] beyond the range of [integer], a date whose ISO string it
    cannot read. *)
Definition devices_params (v : PartialDevice.t (option Timestamp)) : option Error :=
  if negb (int4_key (PartialDevice.id v) && int4_key (PartialDevice.userId v))
  then Some NumericValueOutOfRange
  else if negb (iso_key (PartialDevice.purchaseDate v)
                && iso_key (PartialDevice.warrantyExpirationDate v))
  then Some DatetimeOutOfRange
  else None.

Definition insert_devices (v : PartialDevice.t (option Timestamp)) (now : Timestamp)
    (s : Store) : Outcome Device.t * Store :=
  match devices_params v with
  | Some e => (Threw e, s)
  | None =>
  let (i, s1) :=
    match PartialDevice.id v with
    | Some i => (i, s)
    | None => (devices_id_seq s, with_devices_id_seq (devices_id_seq s + 1) s)
    end in
  match PartialDevice.name v, PartialDevice.userId v with
  | Some n, Some u =>
      if null_key (PartialDevice.created_at v) || null_key (PartialDevice.updated_at v)
      then (Threw NotNullViolation, s1)
      else if negb (int4 i)
      then (Threw NumericValueOutOfRange, s1)
      else if existsb (fun d => Device.id d =? i) (devices s)
      then (Threw UniqueViolation, s1)
      else
        let row :=
          Device.mk i n (orNull (PartialDevice.model v))
            (orNull (PartialDevice.location v)) u
            (orNull (PartialDevice.imageUrl v))
            (orNull (PartialDevice.manualUrl v))
            (orNull (PartialDevice.consumablesUrl v))
            (orNull (PartialDevice.purchaseDate v))
            (orNull (PartialDevice.warrantyExpirationDate v))
            (orNull (PartialDevice.receiptUrl v))
            (updNotNull (PartialDevice.created_at v) now)
            (updNotNull (PartialDevice.updated_at v) now) in
        (Returned row, with_devices (devices s ++ [row]) s1)
  | _, _ => (Threw NotNullViolation, s1)
  end
  end.

Definition set_device (v : PartialDevice.t (option Timestamp)) (d : Device.t) : Device.t :=
  Device.mk
    (upd (PartialDevice.id v) (Device.id d))
    (upd (PartialDevice.name v) (Device.name d))
    (upd (PartialDevice.model v) (Device.model d))
    (upd (PartialDevice.location v) (Device.location d))
    (upd (PartialDevice.userId v) (Device.userId d))
    (upd (PartialDevice.imageUrl v) (Device.imageUrl d))
    (upd (PartialDevice.manualUrl v) (Device.manualUrl d))
    (upd (PartialDevice.consumablesUrl v) (Device.consumablesUrl d))
    (upd (PartialDevice.purchaseDate v) (Device.purchaseDate d))
    (upd (PartialDevice.warrantyExpirationDate v) (Device.warrantyExpirationDate d))
    (upd (PartialDevice.receiptUrl v) (Device.receiptUrl d))
    (updNotNull (PartialDevice.created_at v) (Device.created_at d))
    (updNotNull (PartialDevice.updated_at v) (Device.updated_at d)).

Definition update_devices (v : PartialDevice.t (option Timestamp)) (i : Z)
    (s : Store) : Outcome (list Device.t) * Store :=
  match devices_params v with
  | Some e => (Threw e, s)
  | None =>
  let hit := select_devices_id i s in
  match hit with
  | [] => (Returned [], s)
  | _ :: _ =>
      if null_key (PartialDevice.created_at v) || null_key (PartialDevice.updated_at v)
      then (Threw NotNullViolation, s)
      else if key_taken (PartialDevice.id v) i (map Device.id (devices s))
      then (Threw UniqueViolation, s)
      else
        (Returned (map (set_device v) hit),
         with_devices
           (rewritten (fun d => Device.id d =? i) (set_device v) (devices s))
           s)
  end
  end.

Definition delete_devices_id (i : Z) (s : Store) : Store :=
  with_devices (filter (fun d => negb (Device.id d =? i)) (devices s)) s.

(** *** consumables *)

Definition select_consumables_deviceId (d : Z) (s : Store) : list Consumable.t :=
  filter (fun c => Consumable.deviceId c =? d) (consumables s).

Definition select_consumables_id (i : Z) (s : Store) : list Consumable.t :=
  filter (fun c => Consumable.id c =? i) (consumables s).

(** The same for consumables: an [id] or a [deviceId] beyond the range
    of [integer]. *)
Definition consumables_params (v : PartialConsumable.t (option Timestamp))
  : option Error :=
  if negb (int4_key (PartialConsumable.id v) && int4_key (PartialConsumable.deviceId v))
  then Some NumericValueOutOfRange
  else None.

Definition insert_consumables (v : PartialConsumable.t (option Timestamp))
    (now : Timestamp) (s : Store) : Outcome Consumable.t * Store :=
  match consumables_params v with
  | Some e => (Threw e, s)
  | None =>
  let (i, s1) :=
    match PartialConsumable.id v with
    | Some i => (i, s)
    | None => (consumables_id_seq s,
               with_consumables_id_seq (consumables_id_seq s + 1) s)
    end in
  match PartialConsumable.deviceId v, PartialConsumable.name v with
  | Some d, Some n =>
      if null_key (PartialConsumable.created_at v)
         || null_key (PartialConsumable.updated_at v)
      then (Threw NotNullViolation, s1)
      else if negb (int4 i)
      then (Threw NumericValueOutOfRange, s1)
      else if existsb (fun c => Consumable.id c =? i) (consumables s)
      then (Threw UniqueViolation, s1)
      else
        let row :=
          Consumable.mk i d n
            (orNull (PartialConsumable.description v))
            (orNull (PartialConsumable.storage_location v))
            (orNull (PartialConsumable.url v))
            (orNull (PartialConsumable.cost v))
            (updNotNull (PartialConsumable.created_at v) now)
            (updNotNull (PartialConsumable.updated_at v) now) in
        (Returned row, with_consumables (consumables s ++ [row]) s1)
  | _, _ => (Threw NotNullViolation, s1)
  end
  end.

Definition set_consumable (v : PartialConsumable.t (option Timestamp))
    (c : Consumable.t) : Consumable.t :=
  Consumable.mk
    (upd (PartialConsumable.id v) (Consumable.id c))
    (upd (PartialConsumable.deviceId v) (Consumable.deviceId c))
    (upd (PartialConsumable.name v) (Consumable.name c))
    (upd (PartialConsumable.description v) (Consumable.description c))
    (upd (PartialConsumable.storage_location v) (Consumable.storage_location c))
    (upd (PartialConsumable.url v) (Consumable.url c))
    (upd (PartialConsumable.cost v) (Consumable.cost c))
    (updNotNull (PartialConsumable.created_at v) (Consumable.created_at c))
    (updNotNull (PartialConsumable.updated_at v) (Consumable.updated_at c)).

Definition update_consumables (v : PartialConsumable.t (option Timestamp)) (i : Z)
    (s : Store) : Outcome (list Consumable.t) * Store :=
  match consumables_params v with
  | Some e => (Threw e, s)
  | None =>
  let hit := select_consumables_id i s in
  match hit with
  | [] => (Returned [], s)
  | _ :: _ =>
      if null_key (PartialConsumable.created_at v)
         || null_key (PartialConsumable.updated_at v)
      then (Threw NotNullViolation, s)
      else if key_taken (PartialConsumable.id v) i (map Consumable.id (consumables s))
      then (Threw UniqueViolation, s)
      else
        (Returned (map (set_consumable v) hit),
         with_consumables
           (rewritten (fun c => Consumable.id c =? i) (set_consumable v)
                      (consumables s))
           s)
  end
  end.

Definition delete_consumables_id (i : Z) (s : Store) : Store :=
  with_consumables (filter (fun c => negb (Consumable.id c =? i)) (consumables s)) s.

Definition delete_consumables_deviceId (d : Z) (s : Store) : Store :=
  with_consumables
    (filter (fun c => negb (Consumable.deviceId c =? d)) (consumables s)) s.

(** *** maintenance_tasks *)

Definition select_maintenanceTasks_deviceId (d : Z) (s : Store) : list MaintenanceTask.t :=
  filter (fun t => MaintenanceTask.deviceId t =? d) (maintenanceTasks s).

Definition select_maintenanceTasks_id (i : Z) (s : Store) : list MaintenanceTask.t :=
  filter (fun t => MaintenanceTask.id t =? i) (maintenanceTasks s).

(** Does the [completedBy] key name a user that does not exist? *)
Definition dangling_user (s : Store) (k : option (option Z)) : bool :=
  match k with
  | Some (Some u) => negb (user_exists s u)
  | _ => false
  end.

(** The same for tasks: an [id], a [deviceId] or an [intervalDays]
    beyond the range of [integer]. *)
Definition maintenanceTasks_params (v : PartialTask.t (option Timestamp))
  : option Error :=
  if negb (int4_key (PartialTask.id v) && int4_key (PartialTask.deviceId v)
           && int4_key (PartialTask.intervalDays v))
  then Some NumericValueOutOfRange
  else None.

Definition insert_maintenanceTasks (v : PartialTask.t (option Timestamp))
    (now : Timestamp) (s : Store) : Outcome MaintenanceTask.t * Store :=
  match maintenanceTasks_params v with
  | Some e => (Threw e, s)
  | None =>
  let (i, s1) :=
    match PartialTask.id v with
    | Some i => (i, s)
    | None => (maintenance_tasks_id_seq s,
               with_maintenance_tasks_id_seq (maintenance_tasks_id_seq s + 1) s)
    end in
  match PartialTask.deviceId v, PartialTask.name v, PartialTask.intervalDays v with
  | Some d, Some n, Some k =>
      if null_key (PartialTask.created_at v)
      then (Threw NotNullViolation, s1)
      else if negb (int4 i)
      then (Threw NumericValueOutOfRange, s1)
      else if existsb (fun t => MaintenanceTask.id t =? i) (maintenanceTasks s)
      then (Threw UniqueViolation, s1)
      else if dangling_user s (PartialTask.completedBy v)
      then (Threw ForeignKeyViolation, s1)
      else
        let row :=
          MaintenanceTask.mk i d n
            (orNull (PartialTask.description v)) k
            (orNull (PartialTask.lastCompleted v))
            (upd (PartialTask.isCompleted v) (Some false))
            (orNull (PartialTask.completedBy v))
            (orNull (PartialTask.completedByUsername v))
            (updNotNull (PartialTask.created_at v) now) in
        (Returned row, with_maintenanceTasks (maintenanceTasks s ++ [row]) s1)
  | _, _, _ => (Threw NotNullViolation, s1)
  end
  end.

Definition set_task (v : PartialTask.t (option Timestamp)) (t : MaintenanceTask.t)
  : MaintenanceTask.t :=
  MaintenanceTask.mk
    (upd (PartialTask.id v) (MaintenanceTask.id t))
    (upd (PartialTask.deviceId v) (MaintenanceTask.deviceId t))
    (upd (PartialTask.name v) (MaintenanceTask.name t))
    (upd (PartialTask.description v) (MaintenanceTask.description t))
    (upd (PartialTask.intervalDays v) (MaintenanceTask.intervalDays t))
    (upd (PartialTask.lastCompleted v) (MaintenanceTask.lastCompleted t))
    (upd (PartialTask.isCompleted v) (MaintenanceTask.isCompleted t))
    (upd (PartialTask.completedBy v) (MaintenanceTask.completedBy t))
    (upd (PartialTask.completedByUsername v) (MaintenanceTask.completedByUsername t))
    (updNotNull (PartialTask.created_at v) (MaintenanceTask.created_at t)).

Definition update_maintenanceTasks (v : PartialTask.t (option Timestamp)) (i : Z)
    (s : Store) : Outcome (list MaintenanceTask.t) * Store :=
  match maintenanceTasks_params v with
  | Some e => (Threw e, s)
  | None =>
  let hit := select_maintenanceTasks_id i s in
  match hit with
  | [] => (Returned [], s)
  | _ :: _ =>
      if null_key (PartialTask.created_at v)
      then (Threw NotNullViolation, s)
      else if key_taken (PartialTask.id v) i (map MaintenanceTask.id (maintenanceTasks s))
      then (Threw UniqueViolation, s)
      else if dangling_user s (PartialTask.completedBy v)
      then (Threw ForeignKeyViolation, s)
      else
        (Returned (map (set_task v) hit),
         with_maintenanceTasks
           (rewritten (fun t => MaintenanceTask.id t =? i) (set_task v)
                      (maintenanceTasks s))
           s)
  end
  end.

Definition delete_maintenanceTasks_id (i : Z) (s : Store) : Store :=
  with_maintenanceTasks
    (filter (fun t => negb (MaintenanceTask.id t =? i)) (maintenanceTasks s)) s.

Definition delete_maintenanceTasks_deviceId (d : Z) (s : Store) : Store :=
  with_maintenanceTasks
    (filter (fun t => negb (MaintenanceTask.deviceId t =? d)) (maintenanceTasks s)) s.

End Sql.

(** ** server/storage.ts: [DatabaseStorage] *)

Module DatabaseStorage.
Local Open Scope async_scope.

(** [const [x] = await ...]: the first row, or [undefined]. *)
Definition first {A : Type} (rows : list A) : option A := hd_error rows.

Definition getDevices (userId : Z) : Async (list Device.t) :=
  query (fun s => (Returned (Sql.select_devices_userId userId s), s)).

Definition getDevice (id : Z) : Async (option Device.t) :=
  rows <- query (fun s => (Returned (Sql.select_devices_id id s), s)) ;;
  ret (first rows).

Definition createDevice (device : PartialDevice.t JsValue) (now : Timestamp)
  : Async Device.t :=
  let deviceData :=
    PartialDevice.with_dates device
      (dateOrNull (PartialDevice.purchaseDate device))
      (dateOrNull (PartialDevice.warrantyExpirationDate device)) in
  match Sql.encode deviceData with
  | Threw e => throw e
  | Returned values => query (Sql.insert_devices values now)
  end.

Definition updateDevice (id : Z) (device : PartialDevice.t JsValue)
  : Async (option Device.t) :=
  let deviceData :=
    PartialDevice.with_dates device
      (dateOrNull (PartialDevice.purchaseDate device))
      (dateOrNull (PartialDevice.warrantyExpirationDate device)) in
  match Sql.encode deviceData with
  | Threw e => throw e
  | Returned values =>
      rows <- query (Sql.update_devices values id) ;;
      ret (first rows)
  end.

Definition deleteDevice (id : Z) : Async unit :=
  query (fun s => (Returned tt, Sql.delete_consumables_deviceId id s)) ;;
  query (fun s => (Returned tt, Sql.delete_maintenanceTasks_deviceId id s)) ;;
  query (fun s => (Returned tt, Sql.delete_devices_id id s)).

Definition getConsumables (deviceId : Z) : Async (list Consumable.t) :=
  query (fun s => (Returned (Sql.select_consumables_deviceId deviceId s), s)).

Definition getConsumable (id : Z) : Async (option Consumable.t) :=
  rows <- query (fun s => (Returned (Sql.select_consumables_id id s), s)) ;;
  ret (first rows).

Definition createConsumable (consumable : PartialConsumable.t JsValue)
    (now : Timestamp) : Async Consumable.t :=
  match Sql.encodeConsumable consumable with
  | Threw e => throw e
  | Returned values => query (Sql.insert_consumables values now)
  end.

(** [set] throws on an object without keys. *)
Definition updateConsumable (id : Z) (consumable : PartialConsumable.t JsValue)
  : Async (option Consumable.t) :=
  if PartialConsumable.has_values consumable then
    match Sql.encodeConsumable consumable with
    | Threw e => throw e
    | Returned values =>
        rows <- query (Sql.update_consumables values id) ;;
        ret (first rows)
    end
  else throw NoValuesToSet.

Definition deleteConsumable (id : Z) : Async unit :=
  query (fun s => (Returned tt, Sql.delete_consumables_id id s)).

Definition getTasks (deviceId : Z) : Async (list MaintenanceTask.t) :=
  query (fun s => (Returned (Sql.select_maintenanceTasks_deviceId deviceId s), s)).

Definition getTask (id : Z) : Async (option MaintenanceTask.t) :=
  rows <- query (fun s => (Returned (Sql.select_maintenanceTasks_id id s), s)) ;;
  ret (first rows).

Definition createTask (task : PartialTask.t JsValue) (now : Timestamp)
  : Async MaintenanceTask.t :=
  match Sql.encodeTask task with
  | Threw e => throw e
  | Returned values => query (Sql.insert_maintenanceTasks values now)
  end.

Definition updateTask (id : Z) (task : PartialTask.t JsValue)
  : Async (option MaintenanceTask.t) :=
  if PartialTask.has_values task then
    match Sql.encodeTask task with
    | Threw e => throw e
    | Returned values =>
        rows <- query (Sql.update_maintenanceTasks values id) ;;
        ret (first rows)
    end
  else throw NoValuesToSet.

Definition completeTask (id : Z) (userId : Z) (username : string) (now : Timestamp)
  : Async (option MaintenanceTask.t) :=
  rows <- query (Sql.update_maintenanceTasks
                   (PartialTask.completion now userId username) id) ;;
  ret (first rows).

Definition deleteTask (id : Z) : Async unit :=
  query (fun s => (Returned tt, Sql.delete_maintenanceTasks_id id s)).

End DatabaseStorage.
(** ** server/routes.ts: the mutating routes

    A handler receives the session's user ([None] when the request is not
    authenticated), the path parameter after [parseInt], the request body
    and, where it stamps a row, the clock.  A handler that throws sends
    no response. *)

Module Routes.
Import DatabaseStorage.
Local Open Scope async_scope.

Inductive Body :=
| ErrorBody (error : string)
| DeviceBody (device : option Device.t)
| ConsumableBody (consumable : option Consumable.t)
| TaskBody (task : option MaintenanceTask.t).

Inductive Response :=
| SendStatus (code : Z)
| Json (code : Z) (body : Body).

(** [device.userId !== req.user!.id] *)
Definition foreign (device : Device.t) (user : User.t) : bool :=
  negb (Device.userId device =? User.id user).

Definition POST_api_devices (user : option User.t)
    (body : PartialDevice.t JsValue) (now : Timestamp) : Async Response :=
  match user with
  | None => ret (SendStatus 401)
  | Some u =>
      device <- createDevice (PartialDevice.with_userId body (User.id u)) now ;;
      ret (Json 201 (DeviceBody (Some device)))
  end.

Definition PUT_api_devices_id (user : option User.t) (id : Z)
    (body : PartialDevice.t JsValue) : Async Response :=
  match user with
  | None => ret (SendStatus 401)
  | Some u =>
      device <- getDevice id ;;
      match device with
      | None => ret (SendStatus 404)
      | Some d =>
          if foreign d u then ret (SendStatus 404)
          else
            updated <- updateDevice (Device.id d) body ;;
            ret (Json 200 (DeviceBody updated))
      end
  end.

Definition DELETE_api_devices_id (user : option User.t) (id : Z) : Async Response :=
  match user with
  | None => ret (SendStatus 401)
  | Some u =>
      device <- getDevice id ;;
      match device with
      | None => ret (SendStatus 404)
      | Some d =>
          if foreign d u then ret (SendStatus 404)
          else
            deleteDevice (Device.id d) ;;
            ret (SendStatus 204)
      end
  end.

Definition POST_api_devices_id_consumables (user : option User.t) (id : Z)
    (body : PartialConsumable.t JsValue) (now : Timestamp) : Async Response :=
  match user with
  | None => ret (SendStatus 401)
  | Some u =>
      device <- getDevice id ;;
      match device with
      | None => ret (SendStatus 404)
      | Some d =>
          if foreign d u then ret (SendStatus 404)
          else
            consumable <-
              createConsumable (PartialConsumable.with_deviceId body (Device.id d)) now ;;
            ret (Json 201 (ConsumableBody (Some consumable)))
      end
  end.

Definition PUT_api_consumables_id (user : option User.t) (id : Z)
    (body : PartialConsumable.t JsValue) : Async Response :=
  match user with
  | None => ret (SendStatus 401)
  | Some u =>
      consumable <- getConsumable id ;;
      match consumable with
      | None => ret (Json 404 (ErrorBody "Consumable not found"))
      | Some c =>
          device <- getDevice (Consumable.deviceId c) ;;
          match device with
          | None => ret (Json 403 (ErrorBody "Not authorized to update this consumable"))
          | Some d =>
              if foreign d u
              then ret (Json 403 (ErrorBody "Not authorized to update this consumable"))
              else
                try_catch
                  (updated <- updateConsumable id body ;;
                   ret (Json 200 (ConsumableBody updated)))
                  (ret (Json 500 (ErrorBody "Failed to update consumable")))
          end
      end
  end.

Definition DELETE_api_consumables_id (user : option User.t) (id : Z) : Async Response :=
  match user with
  | None => ret (SendStatus 401)
  | Some u =>
      consumable <- getConsumable id ;;
      match consumable with
      | None => ret (Json 404 (ErrorBody "Consumable not found"))
      | Some c =>
          device <- getDevice (Consumable.deviceId c) ;;
          match device with
          | None => ret (Json 403 (ErrorBody "Not authorized to delete this consumable"))
          | Some d =>
              if foreign d u
              then ret (Json 403 (ErrorBody "Not authorized to delete this consumable"))
              else
                try_catch
                  (deleteConsumable id ;;
                   ret (SendStatus 204))
                  (ret (Json 500 (ErrorBody "Failed to delete consumable")))
          end
      end
  end.

Definition POST_api_devices_id_tasks (user : option User.t) (id : Z)
    (body : PartialTask.t JsValue) (now : Timestamp) : Async Response :=
  match user with
  | None => ret (SendStatus 401)
  | Some u =>
      device <- getDevice id ;;
      match device with
      | None => ret (SendStatus 404)
      | Some d =>
          if foreign d u then ret (SendStatus 404)
          else
            task <- createTask (PartialTask.for_creation body (Device.id d)) now ;;
            ret (Json 201 (TaskBody (Some task)))
      end
  end.

(** The three task routes share their prologue: load the task, then its
    device, and answer 404 unless both exist and the device is the
    user's. *)
Definition with_owned_task (u : User.t) (id : Z)
    (k : MaintenanceTask.t -> Async Response) : Async Response :=
  task <- getTask id ;;
  match task with
  | None => ret (SendStatus 404)
  | Some t =>
      device <- getDevice (MaintenanceTask.deviceId t) ;;
      match device with
      | None => ret (SendStatus 404)
      | Some d => if foreign d u then ret (SendStatus 404) else k t
      end
  end.

Definition PUT_api_tasks_id (user : option User.t) (id : Z)
    (body : PartialTask.t JsValue) : Async Response :=
  match user with
  | None => ret (SendStatus 401)
  | Some u =>
      with_owned_task u id (fun task =>
        updated <- updateTask (MaintenanceTask.id task) body ;;
        ret (Json 200 (TaskBody updated)))
  end.

Definition POST_api_tasks_id_complete (user : option User.t) (id : Z)
    (now : Timestamp) : Async Response :=
  match user with
  | None => ret (SendStatus 401)
  | Some u =>
      with_owned_task u id (fun task =>
        updated <- completeTask (MaintenanceTask.id task) (User.id u)
                     (User.username u) now ;;
        ret (Json 200 (TaskBody updated)))
  end.

Definition DELETE_api_tasks_id (user : option User.t) (id : Z) : Async Response :=
  match user with
  | None => ret (SendStatus 401)
  | Some u =>
      with_owned_task u id (fun task =>
        deleteTask (MaintenanceTask.id task) ;;
        ret (SendStatus 204))
  end.

(** A request to one of the routes. *)
Inductive Request :=
| PostDevice (body : PartialDevice.t JsValue)
| PutDevice (id : Z) (body : PartialDevice.t JsValue)
| DeleteDevice (id : Z)
| PostConsumable (deviceId : Z) (body : PartialConsumable.t JsValue)
| PutConsumable (id : Z) (body : PartialConsumable.t JsValue)
| DeleteConsumable (id : Z)
| PostTask (deviceId : Z) (body : PartialTask.t JsValue)
| PutTask (id : Z) (body : PartialTask.t JsValue)
| CompleteTask (id : Z)
| DeleteTask (id : Z).

Definition handle (user : option User.t) (now : Timestamp) (r : Request)
  : Async Response :=
  match r with
  | PostDevice body => POST_api_devices user body now
  | PutDevice id body => PUT_api_devices_id user id body
  | DeleteDevice id => DELETE_api_devices_id user id
  | PostConsumable id body => POST_api_devices_id_consumables user id body now
  | PutConsumable id body => PUT_api_consumables_id user id body
  | DeleteConsumable id => DELETE_api_consumables_id user id
  | PostTask id body => POST_api_devices_id_tasks user id body now
  | PutTask id body => PUT_api_tasks_id user id body
  | CompleteTask id => POST_api_tasks_id_complete user id now
  | DeleteTask id => DELETE_api_tasks_id user id
  end.

End Routes.

(** ** Requests over time

    An event is one request as the server meets it: who sent it, when,
    and which of its statements, if any, the database fails. *)

Record Event := mkEvent {
  user : option User.t;
  at_time : Timestamp;
  request : Routes.Request;
  failure : option nat
}.

Definition respond (e : Event) (s : Store) : Outcome Routes.Response * World :=
  Routes.handle (user e) (at_time e) (request e) (mkWorld s (failure e)).

Definition serve (e : Event) (s : Store) : Store := db (snd (respond e s)).

Definition run (es : list Event) (s : Store) : Store :=
  fold_left (fun s e => serve e s) es s.

(** ** shared/schema.ts: the schema of the task form

    [TaskForm] is the type of the values of the task form in
    client/src/pages/devices-page.tsx, which gives [insertTaskSchema] to
    the form as its resolver; [intervalDays] is read from its input as a
    number. *)

Inductive JsNumber :=
| NaN
| Infinite (positive : bool)
| Finite (q : Q).

Module TaskForm.
Record t := mk {
  name : string;
  description : option string;
  intervalDays : JsNumber
}.
End TaskForm.

Inductive ZodResult :=
| ZodOk (data : TaskForm.t)
| ZodError (path : string) (message : string).

(** [insertTaskSchema], applied to the form's values: [name] and
    [description] are strings by type, [intervalDays] is
    [z.number().min(1, ...)]. *)
Definition insertTaskSchema (data : TaskForm.t) : ZodResult :=
  match TaskForm.intervalDays data with
  | NaN => ZodError "intervalDays" "Expected number, received nan"
  | Infinite true => ZodOk data
  | Infinite false => ZodError "intervalDays" "Interval must be at least 1 day"
  | Finite q =>
      if Qle_bool 1 q then ZodOk data
      else ZodError "intervalDays" "Interval must be at least 1 day"
  end.

(** ** The dashboard's due-date classification

    [addDays] is date-fns's calendar-day addition in the browser's time
    zone, on time values; the [Date] it returns is invalid when the sum
    is no time value of a [Date].  The classification is stated for any
    such function.  Every [new Date()] of one classification reads the
    same instant [now], a valid [Date]. *)

(** The [Date] of a time value: beyond [maxTime] on either side it is
    invalid. *)
Definition timeClip (ms : Z) : JsDate :=
  if Z.abs ms <=? maxTime then ValidDate ms else InvalidDate.

(** A comparison with an invalid [Date] is false. *)
Definition isBefore (date dateToCompare : JsDate) : bool :=
  match date, dateToCompare with
  | ValidDate a, ValidDate b => a <? b
  | _, _ => false
  end.

Definition isAfter (date dateToCompare : JsDate) : bool :=
  match date, dateToCompare with
  | ValidDate a, ValidDate b => b <? a
  | _, _ => false
  end.

(** [addDays] in a zone whose days all last 24 hours. *)
Definition addDaysUTC (date : Timestamp) (amount : Z) : Timestamp :=
  date + amount * 86400000.

Section Dashboard.
Variable addDays : Timestamp -> Z -> Timestamp.

(** [addDays(new Date(task.lastCompleted), task.intervalDays)] *)
Definition nextDueDate (lastCompleted : Timestamp) (task : MaintenanceTask.t) : JsDate :=
  match timeClip lastCompleted with
  | ValidDate ms => timeClip (addDays ms (MaintenanceTask.intervalDays task))
  | InvalidDate => InvalidDate
  end.

(** The predicate of [dueTasks]. *)
Definition isOverdue (now : Timestamp) (task : MaintenanceTask.t) : bool :=
  match MaintenanceTask.lastCompleted task with
  | None => true
  | Some lastCompleted => isBefore (nextDueDate lastCompleted task) (ValidDate now)
  end.

(** The predicate of [upcomingTasks]. *)
Definition isDueSoon (now : Timestamp) (task : MaintenanceTask.t) : bool :=
  match MaintenanceTask.lastCompleted task with
  | None => false
  | Some lastCompleted =>
      let oneWeekFromNow := timeClip (addDays now 7) in
      isAfter (nextDueDate lastCompleted task) (ValidDate now)
      && isBefore (nextDueDate lastCompleted task) oneWeekFromNow
  end.

Definition dueTasks (now : Timestamp) (allTasks : list MaintenanceTask.t) :=
  filter (isOverdue now) allTasks.

Definition upcomingTasks (now : Timestamp) (allTasks : list MaintenanceTask.t) :=
  filter (isDueSoon now) allTasks.

End Dashboard.

(** ** Vocabulary of the properties *)

Definition device_of (s : Store) (id : Z) : option Device.t :=
  DatabaseStorage.first (Sql.select_devices_id id s).

Definition consumable_of (s : Store) (id : Z) : option Consumable.t :=
  DatabaseStorage.first (Sql.select_consumables_id id s).

Definition task_of (s : Store) (id : Z) : option MaintenanceTask.t :=
  DatabaseStorage.first (Sql.select_maintenanceTasks_id id s).

(** Where a user stands with respect to an entity: the ownership chain
    goes from a task or a consumable to its device and from the device
    to its user. *)
Inductive Access :=
| Missing
| Foreign
| Owned.

Definition device_access (s : Store) (u : User.t) (id : Z) : Access :=
  match device_of s id with
  | None => Missing
  | Some d => if Routes.foreign d u then Foreign else Owned
  end.

Definition task_access (s : Store) (u : User.t) (id : Z) : Access :=
  match task_of s id with
  | None => Missing
  | Some t =>
      match device_access s u (MaintenanceTask.deviceId t) with
      | Owned => Owned
      | _ => Foreign
      end
  end.

(** The store after a computation, and a relation that every run of the
    computation keeps between the store before and the store after. *)
Definition after {A : Type} (m : Async A) (w : World) : Store := db (snd (m w)).

Definition preserves {A : Type} (R : Store -> Store -> Prop) (m : Async A) : Prop :=
  forall w, R (db w) (after m w).

(** What has to be checked of a request: the statements it may send. *)
Definition statements_keep (R : Store -> Store -> Prop) (user : option User.t) (now : Timestamp)
    (r : Routes.Request) : Prop :=
  match r with
  | Routes.PostDevice body =>
      forall u v s, user = Some u ->
        Sql.encode
          (PartialDevice.with_dates (PartialDevice.with_userId body (User.id u))
             (dateOrNull (PartialDevice.purchaseDate body))
             (dateOrNull (PartialDevice.warrantyExpirationDate body)))
        = Returned v ->
        R s (snd (Sql.insert_devices v now s))
  | Routes.PutDevice _ body =>
      forall v i s,
        Sql.encode
          (PartialDevice.with_dates body
             (dateOrNull (PartialDevice.purchaseDate body))
             (dateOrNull (PartialDevice.warrantyExpirationDate body)))
        = Returned v ->
        R s (snd (Sql.update_devices v i s))
  | Routes.DeleteDevice _ =>
      forall i s, R s (Sql.delete_consumables_deviceId i s)
                  /\ R s (Sql.delete_maintenanceTasks_deviceId i s)
                  /\ R s (Sql.delete_devices_id i s)
  | Routes.PostConsumable _ body =>
      forall d v s,
        Sql.encodeConsumable (PartialConsumable.with_deviceId body d) = Returned v ->
        R s (snd (Sql.insert_consumables v now s))
  | Routes.PutConsumable _ body =>
      forall v i s,
        Sql.encodeConsumable body = Returned v ->
        R s (snd (Sql.update_consumables v i s))
  | Routes.DeleteConsumable _ =>
      forall i s, R s (Sql.delete_consumables_id i s)
  | Routes.PostTask _ body =>
      forall d v s,
        Sql.encodeTask (PartialTask.for_creation body d) = Returned v ->
        R s (snd (Sql.insert_maintenanceTasks v now s))
  | Routes.PutTask _ body =>
      forall v i s,
        Sql.encodeTask body = Returned v ->
        R s (snd (Sql.update_maintenanceTasks v i s))
  | Routes.CompleteTask _ =>
      forall u i s, user = Some u ->
        R s (snd (Sql.update_maintenanceTasks
                    (PartialTask.completion now (User.id u) (User.username u)) i s))
  | Routes.DeleteTask _ =>
      forall i s, R s (Sql.delete_maintenanceTasks_id i s)
  end.

(** *** Completion record of a task *)

Definition completion (t : MaintenanceTask.t)
  : option Timestamp * option bool * option Z * option string :=
  (MaintenanceTask.lastCompleted t, MaintenanceTask.isCompleted t,
   MaintenanceTask.completedBy t, MaintenanceTask.completedByUsername t).

(** Does a task payload carry one of the four completion keys? *)
Definition carries_completion (body : PartialTask.t JsValue) : bool :=
  match PartialTask.lastCompleted body, PartialTask.isCompleted body,
        PartialTask.completedBy body, PartialTask.completedByUsername body with
  | None, None, None, None => false
  | _, _, _, _ => true
  end.

(** [isCompleted] is true exactly when [lastCompleted] is not null. *)
Definition completed_iff_dated (t : MaintenanceTask.t) : Prop :=
  MaintenanceTask.isCompleted t = Some true <-> MaintenanceTask.lastCompleted t <> None.

Definition consistent (s : Store) : Prop :=
  Forall completed_iff_dated (maintenanceTasks s).

(** Events whose task updates carry neither [lastCompleted] nor
    [isCompleted]. *)
Definition keeps_completion_keys (e : Event) : Prop :=
  match request e with
  | Routes.PutTask _ body =>
      PartialTask.lastCompleted body = None /\ PartialTask.isCompleted body = None
  | _ => True
  end.

(** The creation [e], met in [s], is answered 201 with the task [t],
    which it has appended to the tasks of [s]. *)
Definition task_created (e : Event) (s : Store) (t : MaintenanceTask.t) : Prop :=
  (exists d body, request e = Routes.PostTask d body)
  /\ fst (respond e s) = Returned (Routes.Json 201 (Routes.TaskBody (Some t)))
  /\ maintenanceTasks (serve e s) = maintenanceTasks s ++ [t].

Definition touches_completion (r : Routes.Request) : bool :=
  match r with
  | Routes.PutTask _ _ => true
  | Routes.CompleteTask _ => true
  | _ => false
  end.

(** *** Ownership of a device *)

(** Events whose device updates carry neither [userId] nor [id]. *)
Definition keeps_owner_keys (e : Event) : Prop :=
  match request e with
  | Routes.PutDevice _ body =>
      PartialDevice.userId body = None /\ PartialDevice.id body = None
  | _ => True
  end.

(** [d'] is a device of [s], with the owner it has in [s]. *)
Definition stems_from (s : Store) (d' : Device.t) : Prop :=
  exists d, In d (devices s)
            /\ Device.id d = Device.id d'
            /\ Device.userId d = Device.userId d'.

(** The creation [e], met in [s], is answered 201 with the device [d],
    which it has appended to the devices of [s]. *)
Definition device_created (e : Event) (s : Store) (d : Device.t) : Prop :=
  (exists body, request e = Routes.PostDevice body)
  /\ fst (respond e s) = Returned (Routes.Json 201 (Routes.DeviceBody (Some d)))
  /\ devices (serve e s) = devices s ++ [d].

(** The user who sent [e] is the owner of [d]. *)
Definition sent_by_owner (e : Event) (d : Device.t) : Prop :=
  exists u, user e = Some u /\ Device.userId d = User.id u.

(** *** Date keys of a device payload *)




(** *** Due dates *)

(** A time value that a [Date] can hold. *)
Definition representable (ms : Z) : Prop := Z.abs ms <= maxTime.

(** Due soon in the words of the specification: completed once, and due
    from [now] on, [now] included, but before a week from [now]. *)
Definition spec_isDueSoon (addDays : Timestamp -> Z -> Timestamp)
    (now : Timestamp) (task : MaintenanceTask.t) : Prop :=
  exists lastCompleted,
    MaintenanceTask.lastCompleted task = Some lastCompleted
    /\ now <= addDays lastCompleted (MaintenanceTask.intervalDays task)
       < addDays now 7.

(** *** The cascade *)

(** The three deletions of [deleteDevice], in the order it awaits them. *)
Definition cascade (id : Z) : list (Store -> Store) :=
  [Sql.delete_consumables_deviceId id;
   Sql.delete_maintenanceTasks_deviceId id;
   Sql.delete_devices_id id].

Definition apply_all (fs : list (Store -> Store)) (s : Store) : Store :=
  fold_left (fun s f => f s) fs s.

(** Device [id] with its children is in [s'] as it was in [s]. *)
Definition intact (s s' : Store) (id : Z) : Prop :=
  Sql.select_devices_id id s' = Sql.select_devices_id id s
  /\ Sql.select_consumables_deviceId id s' = Sql.select_consumables_deviceId id s
  /\ Sql.select_maintenanceTasks_deviceId id s' = Sql.select_maintenanceTasks_deviceId id s.

(** Nothing of device [id] is left in [s']. *)
Definition gone (s' : Store) (id : Z) : Prop :=
  Sql.select_devices_id id s' = []
  /\ Sql.select_consumables_deviceId id s' = []
  /\ Sql.select_maintenanceTasks_deviceId id s' = [].

(** *** A household *)

Module Sample.
Definition alice : User.t := User.mk 1 "alice" "x" 0 0.
Definition bob : User.t := User.mk 2 "bob" "y" 0 0.

Definition washer : Device.t :=
  Device.mk 1 "Washer" None (Some "Cellar"%string) 1 None None None
            (Some 1700000000000) (Some 1800000000000) None 0 0.

Definition boiler : Device.t :=
  Device.mk 2 "Boiler" None None 2 None None None None None None 0 0.

Definition descaler : Consumable.t :=
  Consumable.mk 1 1 "Descaler" None None None None 0 0.

Definition gasket : Consumable.t :=
  Consumable.mk 2 2 "Gasket" None None None None 0 0.

Definition clean_filter : MaintenanceTask.t :=
  MaintenanceTask.mk 1 1 "Clean filter" None 30 None (Some false) None None 0.

Definition bleed : MaintenanceTask.t :=
  MaintenanceTask.mk 2 2 "Bleed radiators" None 365 None (Some false) None None 0.

Definition home : Store :=
  mkStore [alice; bob] [washer; boiler] [descaler; gasket] [clean_filter; bleed] 3 3 3.

Definition just (name : string) : PartialDevice.t JsValue :=
  PartialDevice.mk None (Some name) None None None None None None None None
                   None None None.

(** Task payloads: the form's three keys, and keys the form never sends. *)
Definition renamed : PartialTask.t JsValue :=
  PartialTask.mk None None (Some "Clean the lint filter"%string) None (Some 30)
                 None None None None None.

Definition ticked : PartialTask.t JsValue :=
  PartialTask.mk None None None None None None (Some (Some true))
                 (Some (Some 2)) (Some (Some "bob"%string)) None.


(** A device payload that names another owner. *)
Definition handed_over : PartialDevice.t JsValue :=
  PartialDevice.mk None None None None (Some 2) None None None None None
                   None None None.

Definition by_alice (now : Timestamp) (r : Routes.Request) : Event :=
  mkEvent (Some alice) now r None.

(** Completed at the epoch, due one day later. *)
Definition rinse : MaintenanceTask.t :=
  MaintenanceTask.mk 3 1 "Rinse" None 1 (Some 0) (Some true) (Some 1)
                     (Some "alice"%string) 0.
End Sample.

(** ** server/storage.ts and server/routes.ts: the reading side *)

Module Reads.
Import DatabaseStorage.
Local Open Scope async_scope.

(** What a reading route answers: a bare status or the rows as JSON. *)
Inductive Answer (A : Type) :=
| Status (code : Z)
| Rows (rows : list A).
Arguments Status {A}.
Arguments Rows {A}.

(** The loop of [getAllConsumables]: one [getConsumables] per device,
    each row pushed with the name of the device. *)
Fixpoint pushConsumables (userDevices : list Device.t)
    (allConsumables : list (Consumable.t * string))
  : Async (list (Consumable.t * string)) :=
  match userDevices with
  | [] => ret allConsumables
  | device :: rest =>
      deviceConsumables <- getConsumables (Device.id device) ;;
      pushConsumables rest
        (allConsumables ++ map (fun c => (c, Device.name device)) deviceConsumables)
  end.

Definition getAllConsumables (userId : Z) : Async (list (Consumable.t * string)) :=
  userDevices <- getDevices userId ;;
  pushConsumables userDevices [].

(** The loop of [GET /api/tasks]. *)
Fixpoint pushTasks (devices : list Device.t) (tasks : list MaintenanceTask.t)
  : Async (list MaintenanceTask.t) :=
  match devices with
  | [] => ret tasks
  | device :: rest =>
      deviceTasks <- getTasks (Device.id device) ;;
      pushTasks rest (tasks ++ deviceTasks)
  end.

Definition GET_api_devices (user : option User.t) : Async (Answer Device.t) :=
  match user with
  | None => ret (Status 401)
  | Some u =>
      devices <- getDevices (User.id u) ;;
      ret (Rows devices)
  end.

Definition GET_api_devices_id_consumables (user : option User.t) (id : Z)
  : Async (Answer Consumable.t) :=
  match user with
  | None => ret (Status 401)
  | Some u =>
      device <- getDevice id ;;
      match device with
      | None => ret (Status 404)
      | Some d =>
          if Routes.foreign d u then ret (Status 404)
          else
            consumables <- getConsumables (Device.id d) ;;
            ret (Rows consumables)
      end
  end.

Definition GET_api_consumables (user : option User.t)
  : Async (Answer (Consumable.t * string)) :=
  match user with
  | None => ret (Status 401)
  | Some u =>
      consumables <- getAllConsumables (User.id u) ;;
      ret (Rows consumables)
  end.

Definition GET_api_devices_id_tasks (user : option User.t) (id : Z)
  : Async (Answer MaintenanceTask.t) :=
  match user with
  | None => ret (Status 401)
  | Some u =>
      device <- getDevice id ;;
      match device with
      | None => ret (Status 404)
      | Some d =>
          if Routes.foreign d u then ret (Status 404)
          else
            tasks <- getTasks (Device.id d) ;;
            ret (Rows tasks)
      end
  end.

Definition GET_api_tasks (user : option User.t) : Async (Answer MaintenanceTask.t) :=
  match user with
  | None => ret (Status 401)
  | Some u =>
      devices <- getDevices (User.id u) ;;
      tasks <- pushTasks devices [] ;;
      ret (Rows tasks)
  end.

End Reads.

(** ** server/routes.ts: the name of an uploaded file

    A JavaScript string is the list of its UTF-16 code units; the regular
    expression of the upload route has no [u] flag and so replaces code
    unit by code unit.  [Date.now()] is a natural number. *)

Module Upload.

(** [[a-zA-Z0-9.-]] *)
Definition kept (c : N) : bool :=
  ((97 <=? c) && (c <=? 122)
   || (65 <=? c) && (c <=? 90)
   || (48 <=? c) && (c <=? 57)
   || (c =? 46) || (c =? 45))%N.

Definition underscore : N := 95%N.

(** [file.name.replace(/[^a-zA-Z0-9.-]/g, '_')] *)
Definition safeName (name : list N) : list N :=
  map (fun c => if kept c then c else underscore) name.

Fixpoint units_of_uint (d : Decimal.uint) : list N :=
  match d with
  | Decimal.Nil => []
  | Decimal.D0 d => 48%N :: units_of_uint d
  | Decimal.D1 d => 49%N :: units_of_uint d
  | Decimal.D2 d => 50%N :: units_of_uint d
  | Decimal.D3 d => 51%N :: units_of_uint d
  | Decimal.D4 d => 52%N :: units_of_uint d
  | Decimal.D5 d => 53%N :: units_of_uint d
  | Decimal.D6 d => 54%N :: units_of_uint d
  | Decimal.D7 d => 55%N :: units_of_uint d
  | Decimal.D8 d => 56%N :: units_of_uint d
  | Decimal.D9 d => 57%N :: units_of_uint d
  end.

(** The decimal numeral a template literal makes of a natural number. *)
Definition numeral (n : N) : list N := units_of_uint (N.to_uint n).

(** [`${Date.now()}-${safeName}`] *)
Definition fileName (now : N) (name : list N) : list N :=
  numeral now ++ 45%N :: safeName name.

End Upload.

(** ** Vocabulary of further properties *)

Definition consumable_access (s : Store) (u : User.t) (id : Z) : Access :=
  match consumable_of s id with
  | None => Missing
  | Some c =>
      match device_access s u (Consumable.deviceId c) with
      | Owned => Owned
      | _ => Foreign
      end
  end.

(** What the ownership check of a route demands of its target. *)
Definition authorized (s : Store) (u : User.t) (r : Routes.Request) : Prop :=
  match r with
  | Routes.PostDevice _ => True
  | Routes.PutDevice id _ | Routes.DeleteDevice id
  | Routes.PostConsumable id _ | Routes.PostTask id _ =>
      device_access s u id = Owned
  | Routes.PutConsumable id _ | Routes.DeleteConsumable id =>
      consumable_access s u id = Owned
  | Routes.PutTask id _ | Routes.CompleteTask id | Routes.DeleteTask id =>
      task_access s u id = Owned
  end.

(** The stores a request of [u] on [s] can leave, other than [s]. *)
Definition outcome_of (u : User.t) (now : Timestamp) (r : Routes.Request)
    (s s' : Store) : Prop :=
  match r with
  | Routes.PostDevice body =>
      exists v,
        Sql.encode
          (PartialDevice.with_dates (PartialDevice.with_userId body (User.id u))
             (dateOrNull (PartialDevice.purchaseDate body))
             (dateOrNull (PartialDevice.warrantyExpirationDate body)))
        = Returned v
        /\ s' = snd (Sql.insert_devices v now s)
  | Routes.PutDevice id body =>
      exists v,
        Sql.encode
          (PartialDevice.with_dates body
             (dateOrNull (PartialDevice.purchaseDate body))
             (dateOrNull (PartialDevice.warrantyExpirationDate body)))
        = Returned v
        /\ s' = snd (Sql.update_devices v id s)
  | Routes.DeleteDevice id =>
      exists k, s' = apply_all (firstn k (cascade id)) s
  | Routes.PostConsumable id body =>
      exists v,
        Sql.encodeConsumable (PartialConsumable.with_deviceId body id) = Returned v
        /\ s' = snd (Sql.insert_consumables v now s)
  | Routes.PutConsumable id body =>
      exists v,
        Sql.encodeConsumable body = Returned v
        /\ s' = snd (Sql.update_consumables v id s)
  | Routes.DeleteConsumable id =>
      s' = Sql.delete_consumables_id id s
  | Routes.PostTask id body =>
      exists v,
        Sql.encodeTask (PartialTask.for_creation body id) = Returned v
        /\ s' = snd (Sql.insert_maintenanceTasks v now s)
  | Routes.PutTask id body =>
      exists v,
        Sql.encodeTask body = Returned v
        /\ s' = snd (Sql.update_maintenanceTasks v id s)
  | Routes.CompleteTask id =>
      s' = snd (Sql.update_maintenanceTasks
                  (PartialTask.completion now (User.id u) (User.username u)) id s)
  | Routes.DeleteTask id =>
      s' = Sql.delete_maintenanceTasks_id id s
  end.

(** Primary keys: no two rows of a table share their id. *)
Definition unique_ids (s : Store) : Prop :=
  NoDup (map Device.id (devices s))
  /\ NoDup (map Consumable.id (consumables s))
  /\ NoDup (map MaintenanceTask.id (maintenanceTasks s)).

Definition device_exists (s : Store) (id : Z) : Prop :=
  exists d, In d (devices s) /\ Device.id d = id.

(** Every consumable and every task is under a device of the store. *)
Definition referential (s : Store) : Prop :=
  (forall c, In c (consumables s) -> device_exists s (Consumable.deviceId c))
  /\ (forall t, In t (maintenanceTasks s) -> device_exists s (MaintenanceTask.deviceId t)).

(** Events whose updates leave the keys of the ownership chain alone:
    no device is renumbered, no consumable and no task is moved. *)
Definition keeps_reference_keys (e : Event) : Prop :=
  match request e with
  | Routes.PutDevice _ body => PartialDevice.id body = None
  | Routes.PutConsumable _ body => PartialConsumable.deviceId body = None
  | Routes.PutTask _ body => PartialTask.deviceId body = None
  | _ => True
  end.

(** The devices of a user, and the rows under them. *)
Definition owns (s : Store) (userId : Z) (deviceId : Z) : Prop :=
  exists d, In d (devices s) /\ Device.userId d = userId /\ Device.id d = deviceId.

(** * Properties *)

(** ** Awaited computations *)

Lemma query_reliable {A : Type} (f : Store -> Outcome A * Store) (s : Store) :
  query f (reliable s) = (fst (f s), reliable (snd (f s))).
Proof. unfold query, reliable; simpl. now destruct (f s). Qed.

Lemma query_failing {A : Type} (f : Store -> Outcome A * Store) (s : Store) :
  query f (mkWorld s (Some O)) = (Threw PersistenceError, reliable s).
Proof. reflexivity. Qed.

Lemma query_later {A : Type} (f : Store -> Outcome A * Store) (s : Store) (k : nat) :
  query f (mkWorld s (Some (S k))) = (fst (f s), mkWorld (snd (f s)) (Some k)).
Proof. unfold query; simpl. now destruct (f s). Qed.

Lemma bind_returned {A B : Type} (m : Async A) (k : A -> Async B) w a w' :
  m w = (Returned a, w') -> bind m k w = k a w'.
Proof. intros H. unfold bind. now rewrite H. Qed.

Lemma bind_threw {A B : Type} (m : Async A) (k : A -> Async B) w e w' :
  m w = (Threw e, w') -> bind m k w = (Threw e, w').
Proof. intros H. unfold bind. now rewrite H. Qed.

(** A statement leaves the store as it is or as the statement makes it. *)
Lemma query_after {A : Type} (f : Store -> Outcome A * Store) (w : World) :
  after (query f) w = db w \/ after (query f) w = snd (f (db w)).
Proof.
  unfold after, query.
  destruct (fault w) as [[|k]|]; simpl; auto; destruct (f (db w)); simpl; auto.
Qed.

(** *** Relations kept by every run *)

Section Frame.
Variable R : Store -> Store -> Prop.
Hypothesis R_refl : forall s, R s s.
Hypothesis R_trans : forall s1 s2 s3, R s1 s2 -> R s2 s3 -> R s1 s3.

Lemma preserves_ret {A : Type} (a : A) : preserves R (ret a).
Proof. intros w. apply R_refl. Qed.

Lemma preserves_throw {A : Type} (e : Error) : preserves R (@throw A e).
Proof. intros w. apply R_refl. Qed.

Lemma preserves_bind {A B : Type} (m : Async A) (k : A -> Async B) :
  preserves R m -> (forall a, preserves R (k a)) -> preserves R (bind m k).
Proof.
  intros Hm Hk w. specialize (Hm w). unfold after, bind in *.
  destruct (m w) as [[a|e] w1]; simpl in *; auto.
  eapply R_trans; [exact Hm|]. apply (Hk a w1).
Qed.

Lemma preserves_try_catch {A : Type} (m h : Async A) :
  preserves R m -> preserves R h -> preserves R (try_catch m h).
Proof.
  intros Hm Hh w. specialize (Hm w). unfold after, try_catch in *.
  destruct (m w) as [[a|e] w1]; simpl in *; auto.
  eapply R_trans; [exact Hm|]. apply (Hh w1).
Qed.

Lemma preserves_query {A : Type} (f : Store -> Outcome A * Store) :
  (forall s, R s (snd (f s))) -> preserves R (query f).
Proof.
  intros H w. destruct (query_after f w) as [E|E]; rewrite E; auto.
Qed.

Lemma preserves_select {A : Type} (g : Store -> A) :
  preserves R (query (fun s => (Returned (g s), s))).
Proof. apply preserves_query. intros s. apply R_refl. Qed.

Lemma preserves_getDevice id : preserves R (DatabaseStorage.getDevice id).
Proof.
  apply preserves_bind; [apply preserves_select | intros; apply preserves_ret].
Qed.

Lemma preserves_getConsumable id : preserves R (DatabaseStorage.getConsumable id).
Proof.
  apply preserves_bind; [apply preserves_select | intros; apply preserves_ret].
Qed.

Lemma preserves_getTask id : preserves R (DatabaseStorage.getTask id).
Proof.
  apply preserves_bind; [apply preserves_select | intros; apply preserves_ret].
Qed.

(** Behind the ownership check of a device route. *)
Lemma preserves_device_guard u id (k : Device.t -> Async Routes.Response) :
  (forall d, preserves R (k d)) ->
  preserves R
    (bind (DatabaseStorage.getDevice id) (fun device =>
       match device with
       | None => ret (Routes.SendStatus 404)
       | Some d =>
           if Routes.foreign d u then ret (Routes.SendStatus 404) else k d
       end)).
Proof.
  intros Hk. apply preserves_bind; [apply preserves_getDevice|].
  intros [d|]; [|apply preserves_ret].
  destruct (Routes.foreign d u); [apply preserves_ret | apply Hk].
Qed.

Lemma preserves_with_owned_task u id (k : MaintenanceTask.t -> Async Routes.Response) :
  (forall t, preserves R (k t)) -> preserves R (Routes.with_owned_task u id k).
Proof.
  intros Hk. unfold Routes.with_owned_task.
  apply preserves_bind; [apply preserves_getTask|].
  intros [t|]; [|apply preserves_ret].
  apply preserves_bind; [apply preserves_getDevice|].
  intros [d|]; [|apply preserves_ret].
  destruct (Routes.foreign d u); [apply preserves_ret | apply Hk].
Qed.

Lemma preserves_handle user now r :
  statements_keep R user now r -> preserves R (Routes.handle user now r).
Proof.
  destruct r as [body|id body|id|id body|id body|id|id body|id body|id|id];
    simpl; intros H;
    (destruct user as [u|]; [|apply preserves_ret]).
  - unfold Routes.POST_api_devices, DatabaseStorage.createDevice.
    apply preserves_bind; [|intros; apply preserves_ret].
    simpl.
    match goal with |- preserves R (match ?e with _ => _ end) =>
      destruct e as [v|err] eqn:E end.
    + apply preserves_query. intros s. eapply H; eauto.
    + apply preserves_throw.
  - apply preserves_device_guard. intros d.
    apply preserves_bind; [|intros; apply preserves_ret].
    unfold DatabaseStorage.updateDevice.
    match goal with |- preserves R (match ?e with _ => _ end) =>
      destruct e as [v|err] eqn:E end.
    + apply preserves_bind; [|intros; apply preserves_ret].
      apply preserves_query. intros s. eapply H; eauto.
    + apply preserves_throw.
  - apply preserves_device_guard. intros d.
    apply preserves_bind; [|intros; apply preserves_ret].
    unfold DatabaseStorage.deleteDevice.
    repeat (apply preserves_bind; [|intros _]);
      apply preserves_query; intros s; simpl; apply H.
  - apply preserves_device_guard. intros d.
    apply preserves_bind; [|intros; apply preserves_ret].
    unfold DatabaseStorage.createConsumable.
    destruct (Sql.encodeConsumable _) as [v|err] eqn:E; [|apply preserves_throw].
    apply preserves_query. intros s. eapply H; eauto.
  - unfold Routes.PUT_api_consumables_id.
    apply preserves_bind; [apply preserves_getConsumable|].
    intros [c|]; [|apply preserves_ret].
    apply preserves_bind; [apply preserves_getDevice|].
    intros [d|]; [|apply preserves_ret].
    destruct (Routes.foreign d u); [apply preserves_ret|].
    apply preserves_try_catch; [|apply preserves_ret].
    apply preserves_bind; [|intros; apply preserves_ret].
    unfold DatabaseStorage.updateConsumable.
    destruct (PartialConsumable.has_values body); [|apply preserves_throw].
    destruct (Sql.encodeConsumable _) as [v|err] eqn:E; [|apply preserves_throw].
    apply preserves_bind; [|intros; apply preserves_ret].
    apply preserves_query. intros s. eapply H; eauto.
  - unfold Routes.DELETE_api_consumables_id.
    apply preserves_bind; [apply preserves_getConsumable|].
    intros [c|]; [|apply preserves_ret].
    apply preserves_bind; [apply preserves_getDevice|].
    intros [d|]; [|apply preserves_ret].
    destruct (Routes.foreign d u); [apply preserves_ret|].
    apply preserves_try_catch; [|apply preserves_ret].
    apply preserves_bind; [|intros; apply preserves_ret].
    apply preserves_query. intros s. apply H.
  - apply preserves_device_guard. intros d.
    apply preserves_bind; [|intros; apply preserves_ret].
    unfold DatabaseStorage.createTask.
    destruct (Sql.encodeTask _) as [v|err] eqn:E; [|apply preserves_throw].
    apply preserves_query. intros s. eapply H; eauto.
  - apply preserves_with_owned_task. intros t.
    apply preserves_bind; [|intros; apply preserves_ret].
    unfold DatabaseStorage.updateTask.
    destruct (PartialTask.has_values body); [|apply preserves_throw].
    destruct (Sql.encodeTask _) as [v|err] eqn:E; [|apply preserves_throw].
    apply preserves_bind; [|intros; apply preserves_ret].
    apply preserves_query. intros s. eapply H; eauto.
  - apply preserves_with_owned_task. intros t.
    apply preserves_bind; [|intros; apply preserves_ret].
    apply preserves_bind; [|intros; apply preserves_ret].
    apply preserves_query. intros s. now apply H.
  - apply preserves_with_owned_task. intros t.
    apply preserves_bind; [|intros; apply preserves_ret].
    apply preserves_query. intros s. apply H.
Qed.

Lemma serve_keeps (e : Event) (s : Store) :
  statements_keep R (user e) (at_time e) (request e) -> R s (serve e s).
Proof.
  intros H. exact (preserves_handle _ _ _ H (mkWorld s (failure e))).
Qed.

End Frame.

(** ** Selections and deletions *)

Lemma filter_out_selects {A : Type} (p : A -> bool) (l : list A) :
  filter p (filter (fun x => negb (p x)) l) = [].
Proof.
  induction l as [|x l IH]; simpl; auto.
  destruct (p x) eqn:E; simpl; auto. now rewrite E.
Qed.

Lemma first_filter_sound {A : Type} (p : A -> bool) (l : list A) (x : A) :
  DatabaseStorage.first (filter p l) = Some x -> p x = true /\ In x l.
Proof.
  induction l as [|y l IH]; simpl; [discriminate|].
  destruct (p y) eqn:E; simpl.
  - intros [= ->]. auto.
  - intros H. destruct (IH H). auto.
Qed.

Lemma device_of_id s id d : device_of s id = Some d -> Device.id d = id.
Proof.
  intros H. apply first_filter_sound in H. destruct H as [H _]. now apply Z.eqb_eq.
Qed.

Lemma task_of_id s id t : task_of s id = Some t -> MaintenanceTask.id t = id.
Proof.
  intros H. apply first_filter_sound in H. destruct H as [H _]. now apply Z.eqb_eq.
Qed.

Lemma getDevice_reliable s id :
  DatabaseStorage.getDevice id (reliable s) = (Returned (device_of s id), reliable s).
Proof. reflexivity. Qed.

Lemma getConsumable_reliable s id :
  DatabaseStorage.getConsumable id (reliable s)
  = (Returned (consumable_of s id), reliable s).
Proof. reflexivity. Qed.

Lemma getTask_reliable s id :
  DatabaseStorage.getTask id (reliable s) = (Returned (task_of s id), reliable s).
Proof. reflexivity. Qed.

(** ** The cascade of [deleteDevice] *)

Lemma deleteDevice_reliable s id :
  DatabaseStorage.deleteDevice id (reliable s)
  = (Returned tt, reliable (apply_all (cascade id) s)).
Proof. reflexivity. Qed.

Lemma deleteDevice_prefix s id k :
  after (DatabaseStorage.deleteDevice id) (mkWorld s (Some k))
  = apply_all (firstn k (cascade id)) s.
Proof.
  destruct k as [|[|[|k]]]; try reflexivity.
  unfold cascade. simpl firstn. now rewrite firstn_nil.
Qed.

Lemma cascade_leaves_nothing s id : gone (apply_all (cascade id) s) id.
Proof.
  unfold gone, apply_all, cascade; simpl.
  unfold Sql.select_devices_id, Sql.select_consumables_deviceId,
    Sql.select_maintenanceTasks_deviceId; simpl.
  repeat split.
  - apply (filter_out_selects (fun d => Device.id d =? id)).
  - apply (filter_out_selects (fun c => Consumable.deviceId c =? id)).
  - apply (filter_out_selects (fun t => MaintenanceTask.deviceId t =? id)).
Qed.

(** C7.  [deleteDevice id] deletes the consumables of the device, then
    its maintenance tasks, then the device row: run to the end it leaves
    the store the three deletions make in that order, and stopped after
    [k] statements it leaves what the first [k] of them make.  After it
    has returned, [getConsumables id] and [getTasks id] return no row and
    [getDevice id] returns nothing; the route [DELETE /api/devices/:id]
    of the device's owner answers 204 with the store in that state. *)
Theorem deleteDevice_cascades (s : Store) (id : Z) :
  let w' := reliable (apply_all (cascade id) s) in
  DatabaseStorage.deleteDevice id (reliable s) = (Returned tt, w')
  /\ (forall k, after (DatabaseStorage.deleteDevice id) (mkWorld s (Some k))
                = apply_all (firstn k (cascade id)) s)
  /\ DatabaseStorage.getConsumables id w' = (Returned [], w')
  /\ DatabaseStorage.getTasks id w' = (Returned [], w')
  /\ DatabaseStorage.getDevice id w' = (Returned None, w')
  /\ (forall u, device_access s u id = Owned ->
        Routes.DELETE_api_devices_id (Some u) id (reliable s)
        = (Returned (Routes.SendStatus 204), w')).
Proof.
  intros w'. destruct (cascade_leaves_nothing s id) as (Hd & Hc & Ht).
  split; [apply deleteDevice_reliable|].
  split; [intros k; apply deleteDevice_prefix|].
  split; [|split; [|split]].
  - unfold DatabaseStorage.getConsumables, w'. rewrite query_reliable.
    cbn [fst snd]. now rewrite Hc.
  - unfold DatabaseStorage.getTasks, w'. rewrite query_reliable.
    cbn [fst snd]. now rewrite Ht.
  - unfold w'. rewrite getDevice_reliable. unfold device_of. now rewrite Hd.
  - intros u Hu. unfold device_access in Hu.
    destruct (device_of s id) as [d|] eqn:E; [|discriminate].
    destruct (Routes.foreign d u) eqn:F; [discriminate|].
    unfold Routes.DELETE_api_devices_id.
    rewrite (bind_returned _ _ _ _ _ (getDevice_reliable s id)).
    rewrite E, F, (device_of_id _ _ _ E).
    now rewrite (bind_returned _ _ _ _ _ (deleteDevice_reliable s id)).
Qed.

Lemma deleteDevice_cascades_witness :
  device_access Sample.home Sample.alice 1 = Owned
  /\ Routes.DELETE_api_devices_id (Some Sample.alice) 1 (reliable Sample.home)
     = (Returned (Routes.SendStatus 204),
        reliable (apply_all (cascade 1) Sample.home)).
Proof.
  split; [reflexivity|].
  apply (deleteDevice_cascades Sample.home 1). reflexivity.
Defined.

(** C6, as the code has it.  When the database fails the first, second
    or third statement of [deleteDevice], the call throws and nothing is
    rolled back: the deletions already made stay made.  The device row
    is always still there, so no child is ever left without its device;
    a failure of the first statement leaves the store untouched; a
    failure of the second leaves the device and the tasks but none of
    its consumables; a failure of the third leaves the device with
    neither consumables nor tasks. *)
Theorem deleteDevice_interrupted (s : Store) (id : Z) (k : nat) :
  (k < 3)%nat ->
  let w := mkWorld s (Some k) in
  fst (DatabaseStorage.deleteDevice id w) = Threw PersistenceError
  /\ devices (after (DatabaseStorage.deleteDevice id) w) = devices s
  /\ (k = 0%nat -> after (DatabaseStorage.deleteDevice id) w = s)
  /\ (k = 1%nat ->
        after (DatabaseStorage.deleteDevice id) w = Sql.delete_consumables_deviceId id s
        /\ Sql.select_consumables_deviceId id (after (DatabaseStorage.deleteDevice id) w) = []
        /\ maintenanceTasks (after (DatabaseStorage.deleteDevice id) w) = maintenanceTasks s)
  /\ (k = 2%nat ->
        Sql.select_consumables_deviceId id (after (DatabaseStorage.deleteDevice id) w) = []
        /\ Sql.select_maintenanceTasks_deviceId id (after (DatabaseStorage.deleteDevice id) w) = []).
Proof.
  intros Hk w. unfold w.
  destruct k as [|[|[|k]]]; [| | |lia]; simpl;
    (split; [reflexivity|]); (split; [reflexivity|]);
    (split; [intros; try reflexivity; discriminate|]);
    (split; intros E; try discriminate).
  - split; [reflexivity|]. split; [|reflexivity].
    apply (filter_out_selects (fun c => Consumable.deviceId c =? id)).
  - split.
    + apply (filter_out_selects (fun c => Consumable.deviceId c =? id)).
    + apply (filter_out_selects (fun t => MaintenanceTask.deviceId t =? id)).
Qed.

Lemma deleteDevice_interrupted_witness :
  (1 < 3)%nat
  /\ fst (DatabaseStorage.deleteDevice 1 (mkWorld Sample.home (Some 1%nat)))
     = Threw PersistenceError
  /\ devices (after (DatabaseStorage.deleteDevice 1) (mkWorld Sample.home (Some 1%nat)))
     = devices Sample.home.
Proof.
  split; [lia|].
  destruct (deleteDevice_interrupted Sample.home 1 1%nat) as (H1 & H2 & _); [lia|].
  split; [exact H1 | exact H2].
Defined.

(** C6 as stated fails: the second statement failing, the washer is
    still there with its task but without its consumable. *)
Lemma deleteDevice_not_atomic :
  fst (DatabaseStorage.deleteDevice 1 (mkWorld Sample.home (Some 1%nat)))
  = Threw PersistenceError
  /\ ~ (intact Sample.home
         (after (DatabaseStorage.deleteDevice 1) (mkWorld Sample.home (Some 1%nat))) 1
        \/ gone
             (after (DatabaseStorage.deleteDevice 1) (mkWorld Sample.home (Some 1%nat))) 1).
Proof.
  split; [reflexivity|].
  intros [(_ & H & _) | (H & _)]; vm_compute in H; discriminate.
Qed.

(** ** Who is answered what *)

Ltac read_reliable :=
  cbv beta iota;
  first
    [ erewrite bind_returned by apply getDevice_reliable
    | erewrite bind_returned by apply getTask_reliable
    | erewrite bind_returned by apply getConsumable_reliable ].





(** ** Due dates on the dashboard *)

Lemma timeClip_cases ms :
  (representable ms /\ timeClip ms = ValidDate ms)
  \/ (~ representable ms /\ timeClip ms = InvalidDate).
Proof.
  unfold timeClip, representable.
  destruct (Z.abs ms <=? maxTime) eqn:E; [left | right]; split; auto.
  - now apply Z.leb_le.
  - apply Z.leb_gt in E. lia.
Qed.

Section DueDates.
Variable addDays : Timestamp -> Z -> Timestamp.

(** The due date is a valid [Date] exactly when the completion and the
    sum are time values of a [Date]. *)
Lemma nextDueDate_cases lastCompleted task :
  (representable lastCompleted
   /\ representable (addDays lastCompleted (MaintenanceTask.intervalDays task))
   /\ nextDueDate addDays lastCompleted task
      = ValidDate (addDays lastCompleted (MaintenanceTask.intervalDays task)))
  \/ (~ (representable lastCompleted
         /\ representable (addDays lastCompleted (MaintenanceTask.intervalDays task)))
      /\ nextDueDate addDays lastCompleted task = InvalidDate).
Proof.
  unfold nextDueDate.
  destruct (timeClip_cases lastCompleted) as [[H1 E1]|[H1 E1]]; rewrite E1.
  - destruct (timeClip_cases (addDays lastCompleted (MaintenanceTask.intervalDays task)))
      as [[H2 E2]|[H2 E2]]; rewrite E2; [left | right]; tauto.
  - right. tauto.
Qed.

Lemma isOverdue_iff now task :
  isOverdue addDays now task = true
  <-> MaintenanceTask.lastCompleted task = None
      \/ exists lastCompleted,
           MaintenanceTask.lastCompleted task = Some lastCompleted
           /\ representable lastCompleted
           /\ representable (addDays lastCompleted (MaintenanceTask.intervalDays task))
           /\ addDays lastCompleted (MaintenanceTask.intervalDays task) < now.
Proof.
  unfold isOverdue.
  destruct (MaintenanceTask.lastCompleted task) as [lc|]; [|split; auto].
  destruct (nextDueDate_cases lc task) as [(H1 & H2 & E)|(H & E)]; rewrite E;
    unfold isBefore.
  - rewrite Z.ltb_lt. split.
    + intros H. right. exists lc. auto.
    + intros [H|(lc' & [= <-] & _ & _ & H)]; [discriminate | exact H].
  - split; [discriminate|].
    intros [H'|(lc' & [= <-] & H1 & H2 & _)]; [discriminate | tauto].
Qed.

Lemma isDueSoon_iff now task :
  isDueSoon addDays now task = true
  <-> exists lastCompleted,
        MaintenanceTask.lastCompleted task = Some lastCompleted
        /\ representable lastCompleted
        /\ representable (addDays lastCompleted (MaintenanceTask.intervalDays task))
        /\ representable (addDays now 7)
        /\ now < addDays lastCompleted (MaintenanceTask.intervalDays task)
               < addDays now 7.
Proof.
  unfold isDueSoon.
  destruct (MaintenanceTask.lastCompleted task) as [lc|];
    [|split; [discriminate | intros (lc & H & _); discriminate]].
  destruct (nextDueDate_cases lc task) as [(H1 & H2 & E)|(H & E)]; rewrite E;
    unfold isAfter, isBefore.
  - destruct (timeClip_cases (addDays now 7)) as [[H3 E3]|[H3 E3]]; rewrite E3.
    + rewrite andb_true_iff, !Z.ltb_lt. split.
      * intros H. exists lc. tauto.
      * intros (lc' & [= <-] & _ & _ & _ & H). exact H.
    + rewrite andb_false_r. split; [discriminate|].
      intros (lc' & _ & _ & _ & H & _). tauto.
  - split; [discriminate|].
    intros (lc' & [= <-] & H1 & H2 & _). tauto.
Qed.

Lemma overdue_not_due_soon now task :
  isOverdue addDays now task && isDueSoon addDays now task = false.
Proof.
  unfold isOverdue, isDueSoon.
  destruct (MaintenanceTask.lastCompleted task) as [lc|]; [|reflexivity].
  destruct (nextDueDate addDays lc task) as [due|]; [|reflexivity].
  unfold isAfter, isBefore.
  destruct (due <? now) eqn:E1; [|reflexivity].
  destruct (now <? due) eqn:E2; [|reflexivity].
  apply Z.ltb_lt in E1, E2. lia.
Qed.

Lemma dueTasks_upcomingTasks_disjoint now allTasks task :
  In task (dueTasks addDays now allTasks) ->
  ~ In task (upcomingTasks addDays now allTasks).
Proof.
  unfold dueTasks, upcomingTasks. rewrite !filter_In. intros [_ H1] [_ H2].
  pose proof (overdue_not_due_soon now task) as H.
  rewrite H1, H2 in H. discriminate.
Qed.

(** C5, as the code has it.  At an instant [now] a task is overdue
    exactly when it was never completed or its next due date, the last
    completion plus [intervalDays] days, is a valid date before [now];
    it is due soon exactly when it was completed and its next due date
    is a valid date after [now], [now] excluded, and before [now] plus
    seven days, itself a valid date; and no task is both overdue and due
    soon.  A due date is a valid date when the last completion and the
    sum are time values that a [Date] can hold; a task with any other
    due date is in neither list. *)
Theorem due_classification (now : Timestamp) (task : MaintenanceTask.t) :
  (isOverdue addDays now task = true
   <-> MaintenanceTask.lastCompleted task = None
       \/ exists lastCompleted,
            MaintenanceTask.lastCompleted task = Some lastCompleted
            /\ representable lastCompleted
            /\ representable (addDays lastCompleted (MaintenanceTask.intervalDays task))
            /\ addDays lastCompleted (MaintenanceTask.intervalDays task) < now)
  /\ (isDueSoon addDays now task = true
      <-> exists lastCompleted,
            MaintenanceTask.lastCompleted task = Some lastCompleted
            /\ representable lastCompleted
            /\ representable (addDays lastCompleted (MaintenanceTask.intervalDays task))
            /\ representable (addDays now 7)
            /\ now < addDays lastCompleted (MaintenanceTask.intervalDays task)
                   < addDays now 7)
  /\ isOverdue addDays now task && isDueSoon addDays now task = false.
Proof.
  split; [apply isOverdue_iff|]. split; [apply isDueSoon_iff|].
  apply overdue_not_due_soon.
Qed.

End DueDates.

(** C5 as stated fails at the boundary: a task due exactly [now] is due
    soon in the words of the specification and is not in the code. *)
Lemma due_now_is_not_due_soon :
  ~ (isDueSoon addDaysUTC 86400000 Sample.rinse = true
     <-> spec_isDueSoon addDaysUTC 86400000 Sample.rinse).
Proof.
  intros [_ H].
  assert (E : isDueSoon addDaysUTC 86400000 Sample.rinse = true).
  { apply H. exists 0. split; [reflexivity|]. vm_compute. split; congruence. }
  vm_compute in E. discriminate.
Qed.

(** A completed task whose due date is no time value of a [Date] is in
    neither list, although the sum of its last completion and its
    interval is before [now]. *)
Example unrepresentable_due_date :
  let task := MaintenanceTask.mk 4 1 "Check" None (-2000000000) (Some 0)
                                 (Some true) (Some 1) None 0 in
  addDaysUTC 0 (MaintenanceTask.intervalDays task) < 86400000
  /\ nextDueDate addDaysUTC 0 task = InvalidDate
  /\ isOverdue addDaysUTC 86400000 task = false
  /\ isDueSoon addDaysUTC 86400000 task = false.
Proof. vm_compute. repeat split. Qed.

Example due_dates_of_the_specification :
  let day := 86400000 in
  let task := MaintenanceTask.mk 4 1 "Check" None 30 (Some (19723 * day))
                                 (Some true) (Some 1) None 0 in
  nextDueDate addDaysUTC (19723 * day) task = ValidDate (19753 * day)
  /\ isOverdue addDaysUTC (19758 * day) task = true
  /\ isDueSoon addDaysUTC (19747 * day) task = true
  /\ isOverdue addDaysUTC (19747 * day) task = false.
Proof. vm_compute. repeat split. Qed.

(** ** What each statement does to each table *)

Lemma in_rewritten {A : Type} (hit : A -> bool) (f : A -> A) (rows : list A) (x : A) :
  In x (Sql.rewritten hit f rows)
  <-> (In x rows /\ hit x = false)
      \/ exists y, In y rows /\ hit y = true /\ x = f y.
Proof.
  unfold Sql.rewritten. rewrite in_app_iff, filter_In, in_map_iff. split.
  - intros [[H1 H2]|(y & <- & H)].
    + left. split; [exact H1|]. now apply negb_true_iff.
    + right. exists y. apply filter_In in H. tauto.
  - intros [[H1 H2]|(y & H1 & H2 & ->)].
    + left. split; [exact H1|]. now apply negb_true_iff.
    + right. exists y. rewrite filter_In. tauto.
Qed.

(** An update is a rewriting in place, up to the order of the rows. *)
Lemma rewritten_in_place {A : Type} (hit : A -> bool) (f : A -> A) (rows : list A) :
  Permutation (Sql.rewritten hit f rows)
              (map (fun x => if hit x then f x else x) rows).
Proof.
  unfold Sql.rewritten. induction rows as [|x rows IH]; simpl; [constructor|].
  destruct (hit x); simpl.
  - apply Permutation_sym, Permutation_cons_app, Permutation_sym, IH.
  - now constructor.
Qed.

(** The rows that an update does not hit keep their order. *)
Lemma filter_rewritten {A : Type} (p hit : A -> bool) (f : A -> A) (rows : list A) :
  (forall x, In x rows -> hit x = true -> p x = false /\ p (f x) = false) ->
  filter p (Sql.rewritten hit f rows) = filter p rows.
Proof.
  intros H. unfold Sql.rewritten. rewrite filter_app.
  induction rows as [|x rows IH]; simpl; [reflexivity|].
  assert (IH' : filter p (filter (fun r => negb (hit r)) rows)
                ++ filter p (map f (filter hit rows)) = filter p rows)
    by (apply IH; intros y Hy; apply H; now right).
  destruct (hit x) eqn:E; simpl.
  - destruct (H x (or_introl eq_refl) E) as [E1 E2]. now rewrite E1, E2.
  - destruct (p x); simpl; [f_equal|]; exact IH'.
Qed.

Lemma Forall_rewritten {A : Type} (P : A -> Prop) (hit : A -> bool) (f : A -> A)
    (rows : list A) :
  Forall P rows -> (forall x, In x rows -> P x -> P (f x)) ->
  Forall P (Sql.rewritten hit f rows).
Proof.
  rewrite !Forall_forall. intros H Hf x Hx. apply in_rewritten in Hx.
  destruct Hx as [[Hx _]|(y & Hy & _ & ->)]; auto.
Qed.

Lemma insert_devices_effect v now s :
  consumables (snd (Sql.insert_devices v now s)) = consumables s
  /\ maintenanceTasks (snd (Sql.insert_devices v now s)) = maintenanceTasks s
  /\ (devices (snd (Sql.insert_devices v now s)) = devices s
      \/ exists row,
           devices (snd (Sql.insert_devices v now s)) = devices s ++ [row]
           /\ fst (Sql.insert_devices v now s) = Returned row
           /\ PartialDevice.userId v = Some (Device.userId row)).
Proof.
  unfold Sql.insert_devices.
  destruct (Sql.devices_params v); [simpl; auto|].
  destruct (PartialDevice.id v), (PartialDevice.name v), (PartialDevice.userId v);
    simpl; auto;
    destruct (Sql.null_key _ || Sql.null_key _); simpl; auto;
    destruct (negb (Sql.int4 _)); simpl; auto;
    match goal with |- context [existsb ?p ?l] => destruct (existsb p l) end;
    simpl; auto;
    (split; [reflexivity|]); (split; [reflexivity|]); right; eexists;
    repeat split; reflexivity.
Qed.

Lemma update_devices_effect v i s :
  consumables (snd (Sql.update_devices v i s)) = consumables s
  /\ maintenanceTasks (snd (Sql.update_devices v i s)) = maintenanceTasks s
  /\ (devices (snd (Sql.update_devices v i s)) = devices s
      \/ devices (snd (Sql.update_devices v i s))
         = Sql.rewritten (fun d => Device.id d =? i) (Sql.set_device v) (devices s)).
Proof.
  unfold Sql.update_devices.
  destruct (Sql.devices_params v); [simpl; auto|].
  destruct (Sql.select_devices_id i s); simpl; auto.
  destruct (Sql.null_key _ || Sql.null_key _); simpl; auto.
  destruct (Sql.key_taken _ _ _); simpl; auto.
Qed.

Lemma insert_consumables_effect v now s :
  devices (snd (Sql.insert_consumables v now s)) = devices s
  /\ maintenanceTasks (snd (Sql.insert_consumables v now s)) = maintenanceTasks s
  /\ (consumables (snd (Sql.insert_consumables v now s)) = consumables s
      \/ exists row,
           consumables (snd (Sql.insert_consumables v now s)) = consumables s ++ [row]
           /\ fst (Sql.insert_consumables v now s) = Returned row
           /\ PartialConsumable.deviceId v = Some (Consumable.deviceId row)).
Proof.
  unfold Sql.insert_consumables.
  destruct (Sql.consumables_params v); [simpl; auto|].
  destruct (PartialConsumable.id v), (PartialConsumable.deviceId v),
    (PartialConsumable.name v);
    simpl; auto;
    destruct (Sql.null_key _ || Sql.null_key _); simpl; auto;
    destruct (negb (Sql.int4 _)); simpl; auto;
    match goal with |- context [existsb ?p ?l] => destruct (existsb p l) end;
    simpl; auto;
    (split; [reflexivity|]); (split; [reflexivity|]); right; eexists;
    repeat split; reflexivity.
Qed.

Lemma update_consumables_effect v i s :
  devices (snd (Sql.update_consumables v i s)) = devices s
  /\ maintenanceTasks (snd (Sql.update_consumables v i s)) = maintenanceTasks s
  /\ (consumables (snd (Sql.update_consumables v i s)) = consumables s
      \/ consumables (snd (Sql.update_consumables v i s))
         = Sql.rewritten (fun c => Consumable.id c =? i) (Sql.set_consumable v)
                         (consumables s)).
Proof.
  unfold Sql.update_consumables.
  destruct (Sql.consumables_params v); [simpl; auto|].
  destruct (Sql.select_consumables_id i s); simpl; auto.
  destruct (Sql.null_key _ || Sql.null_key _); simpl; auto.
  destruct (Sql.key_taken _ _ _); simpl; auto.
Qed.

Lemma insert_maintenanceTasks_effect v now s :
  devices (snd (Sql.insert_maintenanceTasks v now s)) = devices s
  /\ consumables (snd (Sql.insert_maintenanceTasks v now s)) = consumables s
  /\ (maintenanceTasks (snd (Sql.insert_maintenanceTasks v now s)) = maintenanceTasks s
      \/ exists row,
           maintenanceTasks (snd (Sql.insert_maintenanceTasks v now s))
           = maintenanceTasks s ++ [row]
           /\ fst (Sql.insert_maintenanceTasks v now s) = Returned row
           /\ PartialTask.deviceId v = Some (MaintenanceTask.deviceId row)
           /\ MaintenanceTask.lastCompleted row = orNull (PartialTask.lastCompleted v)
           /\ MaintenanceTask.isCompleted row
              = upd (PartialTask.isCompleted v) (Some false)).
Proof.
  unfold Sql.insert_maintenanceTasks.
  destruct (Sql.maintenanceTasks_params v); [simpl; auto|].
  destruct (PartialTask.id v), (PartialTask.deviceId v), (PartialTask.name v),
    (PartialTask.intervalDays v);
    simpl; auto;
    destruct (Sql.null_key _); simpl; auto;
    destruct (negb (Sql.int4 _)); simpl; auto;
    match goal with |- context [existsb ?p ?l] => destruct (existsb p l) end;
    simpl; auto;
    destruct (Sql.dangling_user s (PartialTask.completedBy v)); simpl; auto;
    (split; [reflexivity|]); (split; [reflexivity|]); right; eexists;
    repeat split; reflexivity.
Qed.

Lemma update_maintenanceTasks_effect v i s :
  devices (snd (Sql.update_maintenanceTasks v i s)) = devices s
  /\ consumables (snd (Sql.update_maintenanceTasks v i s)) = consumables s
  /\ (maintenanceTasks (snd (Sql.update_maintenanceTasks v i s)) = maintenanceTasks s
      \/ maintenanceTasks (snd (Sql.update_maintenanceTasks v i s))
         = Sql.rewritten (fun t => MaintenanceTask.id t =? i) (Sql.set_task v)
                         (maintenanceTasks s)).
Proof.
  unfold Sql.update_maintenanceTasks.
  destruct (Sql.maintenanceTasks_params v); [simpl; auto|].
  destruct (Sql.select_maintenanceTasks_id i s); simpl; auto.
  destruct (Sql.null_key _); simpl; auto.
  destruct (Sql.key_taken _ _ _); simpl; auto.
  destruct (Sql.dangling_user _ _); simpl; auto.
Qed.

(** *** What the encoding keeps of a body *)

Lemma encodeKey_absent {X : Type} (enc : X -> Outcome (option Timestamp)) k d :
  Sql.encodeKey enc k = Returned d -> (k = None <-> d = None).
Proof.
  destruct k as [x|]; simpl.
  - destruct (enc x); simpl; intros [= <-]; split; discriminate.
  - intros [= <-]. tauto.
Qed.

Lemma encodeJson_null v d : Sql.encodeJson v = Returned d -> d = None.
Proof. destruct v; simpl; congruence. Qed.

(** A key of a body that drizzle encodes holds [null]. *)
Lemma encodeKey_json k d :
  Sql.encodeKey Sql.encodeJson k = Returned d -> d = None \/ d = Some None.
Proof.
  destruct k as [x|]; simpl; [|intros [= <-]; auto].
  destruct (Sql.encodeJson x) eqn:E; simpl; intros [= <-].
  right. now rewrite (encodeJson_null _ _ E).
Qed.

Lemma encodeTask_keys body v :
  Sql.encodeTask body = Returned v ->
  PartialTask.id v = PartialTask.id body
  /\ PartialTask.deviceId v = PartialTask.deviceId body
  /\ PartialTask.name v = PartialTask.name body
  /\ PartialTask.description v = PartialTask.description body
  /\ PartialTask.intervalDays v = PartialTask.intervalDays body
  /\ PartialTask.isCompleted v = PartialTask.isCompleted body
  /\ PartialTask.completedBy v = PartialTask.completedBy body
  /\ PartialTask.completedByUsername v = PartialTask.completedByUsername body
  /\ Sql.encodeKey Sql.encodeJson (PartialTask.lastCompleted body)
     = Returned (PartialTask.lastCompleted v)
  /\ Sql.encodeKey Sql.encodeJson (PartialTask.created_at body)
     = Returned (PartialTask.created_at v).
Proof.
  unfold Sql.encodeTask, Sql.and_then.
  destruct (Sql.encodeKey _ (PartialTask.lastCompleted body)); [|discriminate].
  destruct (Sql.encodeKey _ (PartialTask.created_at body)); [|discriminate].
  intros [= <-]. simpl. tauto.
Qed.

Lemma encodeConsumable_keys body v :
  Sql.encodeConsumable body = Returned v ->
  PartialConsumable.id v = PartialConsumable.id body
  /\ PartialConsumable.deviceId v = PartialConsumable.deviceId body
  /\ PartialConsumable.name v = PartialConsumable.name body
  /\ PartialConsumable.description v = PartialConsumable.description body
  /\ PartialConsumable.storage_location v = PartialConsumable.storage_location body
  /\ PartialConsumable.url v = PartialConsumable.url body
  /\ PartialConsumable.cost v = PartialConsumable.cost body
  /\ Sql.encodeKey Sql.encodeJson (PartialConsumable.created_at body)
     = Returned (PartialConsumable.created_at v)
  /\ Sql.encodeKey Sql.encodeJson (PartialConsumable.updated_at body)
     = Returned (PartialConsumable.updated_at v).
Proof.
  unfold Sql.encodeConsumable, Sql.and_then.
  destruct (Sql.encodeKey _ (PartialConsumable.created_at body)); [|discriminate].
  destruct (Sql.encodeKey _ (PartialConsumable.updated_at body)); [|discriminate].
  intros [= <-]. simpl. tauto.
Qed.

Lemma encode_keys p v :
  Sql.encode p = Returned v ->
  PartialDevice.id v = PartialDevice.id p
  /\ PartialDevice.name v = PartialDevice.name p
  /\ PartialDevice.model v = PartialDevice.model p
  /\ PartialDevice.location v = PartialDevice.location p
  /\ PartialDevice.userId v = PartialDevice.userId p
  /\ PartialDevice.imageUrl v = PartialDevice.imageUrl p
  /\ PartialDevice.manualUrl v = PartialDevice.manualUrl p
  /\ PartialDevice.consumablesUrl v = PartialDevice.consumablesUrl p
  /\ PartialDevice.receiptUrl v = PartialDevice.receiptUrl p
  /\ Sql.encodeKey Sql.encodeSlot (PartialDevice.purchaseDate p)
     = Returned (PartialDevice.purchaseDate v)
  /\ Sql.encodeKey Sql.encodeSlot (PartialDevice.warrantyExpirationDate p)
     = Returned (PartialDevice.warrantyExpirationDate v)
  /\ Sql.encodeKey Sql.encodeSlot (PartialDevice.created_at p)
     = Returned (PartialDevice.created_at v)
  /\ Sql.encodeKey Sql.encodeSlot (PartialDevice.updated_at p)
     = Returned (PartialDevice.updated_at v).
Proof.
  unfold Sql.encode, Sql.and_then.
  destruct (Sql.encodeKey _ (PartialDevice.purchaseDate p)); [|discriminate].
  destruct (Sql.encodeKey _ (PartialDevice.warrantyExpirationDate p)); [|discriminate].
  destruct (Sql.encodeKey _ (PartialDevice.created_at p)); [|discriminate].
  destruct (Sql.encodeKey _ (PartialDevice.updated_at p)); [|discriminate].
  intros [= <-]. simpl. tauto.
Qed.

(** ** Creation *)

Lemma query_cases {A : Type} (f : Store -> Outcome A * Store) (w : World) :
  query f w = (Threw PersistenceError, reliable (db w))
  \/ exists fl, query f w = (fst (f (db w)), mkWorld (snd (f (db w))) fl).
Proof.
  unfold query. destruct (fault w) as [[|k]|]; auto; right; eexists;
    destruct (f (db w)); reflexivity.
Qed.

Lemma getDevice_cases id w :
  DatabaseStorage.getDevice id w = (Threw PersistenceError, reliable (db w))
  \/ exists fl,
       DatabaseStorage.getDevice id w = (Returned (device_of (db w) id), mkWorld (db w) fl).
Proof.
  unfold DatabaseStorage.getDevice, bind.
  match goal with |- context [query ?f w] => destruct (query_cases f w) as [E|(fl & E)] end;
    rewrite E; [left | right; exists fl]; reflexivity.
Qed.

Lemma POST_api_devices_binds u body now w :
  devices (after (Routes.POST_api_devices (Some u) body now) w) = devices (db w)
  \/ exists d,
       fst (Routes.POST_api_devices (Some u) body now w)
       = Returned (Routes.Json 201 (Routes.DeviceBody (Some d)))
       /\ devices (after (Routes.POST_api_devices (Some u) body now) w)
          = devices (db w) ++ [d]
       /\ Device.userId d = User.id u.
Proof.
  unfold after, Routes.POST_api_devices, DatabaseStorage.createDevice, bind.
  match goal with |- context [Sql.encode ?p] => destruct (Sql.encode p) as [v|err] eqn:Ev end;
    [|left; reflexivity].
  destruct (query_cases (Sql.insert_devices v now) w) as [E|(fl & E)]; rewrite E;
    [left; reflexivity|].
  destruct (insert_devices_effect v now (db w)) as (_ & _ & [Ed|(row & Ed & Er & Hu)]).
  - left. destruct (fst (Sql.insert_devices v now (db w))); exact Ed.
  - right. exists row. rewrite Er. cbn [fst snd db ret]. repeat split; [exact Ed|].
    apply encode_keys in Ev. destruct Ev as (_ & _ & _ & _ & Ev & _).
    simpl in Ev. congruence.
Qed.

Lemma POST_api_devices_id_consumables_binds user id body now w :
  consumables (after (Routes.POST_api_devices_id_consumables user id body now) w)
  = consumables (db w)
  \/ exists u device c,
       user = Some u
       /\ device_of (db w) id = Some device
       /\ Routes.foreign device u = false
       /\ fst (Routes.POST_api_devices_id_consumables user id body now w)
          = Returned (Routes.Json 201 (Routes.ConsumableBody (Some c)))
       /\ consumables (after (Routes.POST_api_devices_id_consumables user id body now) w)
          = consumables (db w) ++ [c]
       /\ Consumable.deviceId c = id.
Proof.
  unfold after, Routes.POST_api_devices_id_consumables.
  destruct user as [u|]; [|left; reflexivity].
  unfold bind.
  destruct (getDevice_cases id w) as [E|(fl & E)]; rewrite E; [left; reflexivity|].
  destruct (device_of (db w) id) as [device|] eqn:Ed; [|left; reflexivity].
  destruct (Routes.foreign device u) eqn:Ef; [left; reflexivity|].
  rewrite (device_of_id _ _ _ Ed).
  unfold DatabaseStorage.createConsumable.
  destruct (Sql.encodeConsumable _) as [v|err] eqn:Ev; [|left; reflexivity].
  match goal with |- context [query ?f ?w0] =>
    destruct (query_cases f w0) as [Eq|(fl' & Eq)]; rewrite Eq end;
    [left; reflexivity|].
  cbn [db].
  destruct (insert_consumables_effect v now (db w))
    as (_ & _ & [Ec|(row & Ec & Er & Hd)]).
  - left. destruct (fst (Sql.insert_consumables v now (db w))); exact Ec.
  - right. exists u, device, row. rewrite Er. cbn [fst snd db ret].
    repeat split; auto.
    apply encodeConsumable_keys in Ev. destruct Ev as (_ & Ev & _).
    simpl in Ev. congruence.
Qed.

(** A task creation appends nothing, or the task it answers with, which
    is under the device of the path and has never been completed. *)
Lemma POST_api_devices_id_tasks_cases user id body now w :
  maintenanceTasks (after (Routes.POST_api_devices_id_tasks user id body now) w)
  = maintenanceTasks (db w)
  \/ exists u device t,
       user = Some u
       /\ device_of (db w) id = Some device
       /\ Routes.foreign device u = false
       /\ fst (Routes.POST_api_devices_id_tasks user id body now w)
          = Returned (Routes.Json 201 (Routes.TaskBody (Some t)))
       /\ maintenanceTasks (after (Routes.POST_api_devices_id_tasks user id body now) w)
          = maintenanceTasks (db w) ++ [t]
       /\ MaintenanceTask.deviceId t = id
       /\ MaintenanceTask.lastCompleted t = None
       /\ MaintenanceTask.isCompleted t = Some false.
Proof.
  unfold after, Routes.POST_api_devices_id_tasks.
  destruct user as [u|]; [|left; reflexivity].
  unfold bind.
  destruct (getDevice_cases id w) as [E|(fl & E)]; rewrite E; [left; reflexivity|].
  destruct (device_of (db w) id) as [device|] eqn:Ed; [|left; reflexivity].
  destruct (Routes.foreign device u) eqn:Ef; [left; reflexivity|].
  rewrite (device_of_id _ _ _ Ed).
  unfold DatabaseStorage.createTask.
  destruct (Sql.encodeTask _) as [v|err] eqn:Ev; [|left; reflexivity].
  match goal with |- context [query ?f ?w0] =>
    destruct (query_cases f w0) as [Eq|(fl' & Eq)]; rewrite Eq end;
    [left; reflexivity|].
  cbn [db].
  destruct (insert_maintenanceTasks_effect v now (db w))
    as (_ & _ & [Ec|(row & Ec & Er & Hd & Hl & Hc)]).
  - left. destruct (fst (Sql.insert_maintenanceTasks v now (db w))); exact Ec.
  - right. exists u, device, row. rewrite Er. cbn [fst snd db ret].
    apply encodeTask_keys in Ev.
    destruct Ev as (_ & Ev & _ & _ & _ & Ei & _ & _ & El & _).
    simpl in Ev, Ei, El. injection El as El.
    rewrite <- El in Hl. rewrite Ei in Hc.
    repeat split; auto. congruence.
Qed.

Lemma POST_api_devices_id_tasks_binds user id body now w :
  maintenanceTasks (after (Routes.POST_api_devices_id_tasks user id body now) w)
  = maintenanceTasks (db w)
  \/ exists u device t,
       user = Some u
       /\ device_of (db w) id = Some device
       /\ Routes.foreign device u = false
       /\ fst (Routes.POST_api_devices_id_tasks user id body now w)
          = Returned (Routes.Json 201 (Routes.TaskBody (Some t)))
       /\ maintenanceTasks (after (Routes.POST_api_devices_id_tasks user id body now) w)
          = maintenanceTasks (db w) ++ [t]
       /\ MaintenanceTask.deviceId t = id.
Proof.
  destruct (POST_api_devices_id_tasks_cases user id body now w)
    as [E|(u & device & t & H1 & H2 & H3 & H4 & H5 & H6 & _)]; [now left|].
  right. exists u, device, t. tauto.
Qed.

(** C10.  Whatever [userId] its body carries, a device creation leaves
    the devices as they were or appends exactly the device it answers
    with, whose [userId] is the id of the user of the session.  Whatever
    [deviceId] its body carries, a consumable or task creation leaves
    the table as it was or appends exactly the row it answers with,
    whose [deviceId] is the id in the path, which is then the id of a
    device of the user of the session. *)
Theorem created_rows_are_bound :
  (forall u body now w,
      devices (after (Routes.POST_api_devices (Some u) body now) w) = devices (db w)
      \/ exists d,
           fst (Routes.POST_api_devices (Some u) body now w)
           = Returned (Routes.Json 201 (Routes.DeviceBody (Some d)))
           /\ devices (after (Routes.POST_api_devices (Some u) body now) w)
              = devices (db w) ++ [d]
           /\ Device.userId d = User.id u)
  /\ (forall user id body now w,
      consumables (after (Routes.POST_api_devices_id_consumables user id body now) w)
      = consumables (db w)
      \/ exists u device c,
           user = Some u
           /\ device_of (db w) id = Some device
           /\ Routes.foreign device u = false
           /\ fst (Routes.POST_api_devices_id_consumables user id body now w)
              = Returned (Routes.Json 201 (Routes.ConsumableBody (Some c)))
           /\ consumables
                (after (Routes.POST_api_devices_id_consumables user id body now) w)
              = consumables (db w) ++ [c]
           /\ Consumable.deviceId c = id)
  /\ (forall user id body now w,
      maintenanceTasks (after (Routes.POST_api_devices_id_tasks user id body now) w)
      = maintenanceTasks (db w)
      \/ exists u device t,
           user = Some u
           /\ device_of (db w) id = Some device
           /\ Routes.foreign device u = false
           /\ fst (Routes.POST_api_devices_id_tasks user id body now w)
              = Returned (Routes.Json 201 (Routes.TaskBody (Some t)))
           /\ maintenanceTasks
                (after (Routes.POST_api_devices_id_tasks user id body now) w)
              = maintenanceTasks (db w) ++ [t]
           /\ MaintenanceTask.deviceId t = id).
Proof.
  split; [exact POST_api_devices_binds|].
  split; [exact POST_api_devices_id_consumables_binds|].
  exact POST_api_devices_id_tasks_binds.
Qed.

(** Bodies that name somebody else's user or device are stored under the
    session's user and the path's device. *)
Example creation_overrides_the_body :
  fst (Routes.POST_api_devices (Some Sample.alice)
         (PartialDevice.with_userId (Sample.just "Dryer") 2) 10 (reliable Sample.home))
  = Returned
      (Routes.Json 201
         (Routes.DeviceBody
            (Some (Device.mk 3 "Dryer" None None 1 None None None None None None 10 10))))
  /\ fst (Routes.POST_api_devices_id_consumables (Some Sample.alice) 1
            (PartialConsumable.mk None (Some 2) (Some "Softener"%string) None None None
                                  None None None)
            10 (reliable Sample.home))
     = Returned
         (Routes.Json 201
            (Routes.ConsumableBody
               (Some (Consumable.mk 3 1 "Softener" None None None None 10 10))))
  /\ fst (Routes.POST_api_devices_id_tasks (Some Sample.alice) 1
            (PartialTask.mk None (Some 2) (Some "Empty drum"%string) None (Some 7)
                            (Some (JNum 5)) (Some (Some true)) None None None)
            10 (reliable Sample.home))
     = Returned
         (Routes.Json 201
            (Routes.TaskBody
               (Some (MaintenanceTask.mk 3 1 "Empty drum" None 7 None (Some false)
                                         None None 10)))).
Proof. repeat split. Qed.

(** ** The completion record under a generic update *)

Lemma encoded_completion body v :
  Sql.encodeTask body = Returned v ->
  carries_completion body = false ->
  PartialTask.lastCompleted v = None /\ PartialTask.isCompleted v = None
  /\ PartialTask.completedBy v = None /\ PartialTask.completedByUsername v = None.
Proof.
  intros Ev Hb. apply encodeTask_keys in Ev.
  destruct Ev as (_ & _ & _ & _ & _ & Ei & Ec & En & El & _).
  unfold carries_completion in Hb. rewrite Ei, Ec, En.
  destruct (PartialTask.lastCompleted body), (PartialTask.isCompleted body),
    (PartialTask.completedBy body), (PartialTask.completedByUsername body);
    try discriminate.
  simpl in El. injection El as <-. auto.
Qed.

Lemma set_task_completion body v t :
  Sql.encodeTask body = Returned v ->
  carries_completion body = false -> completion (Sql.set_task v t) = completion t.
Proof.
  intros Ev Hb. destruct (encoded_completion _ _ Ev Hb) as (E1 & E2 & E3 & E4).
  unfold completion, Sql.set_task; simpl. now rewrite E1, E2, E3, E4.
Qed.

Lemma update_maintenanceTasks_completion body v i s :
  Sql.encodeTask body = Returned v ->
  carries_completion body = false ->
  Permutation
    (map completion (maintenanceTasks (snd (Sql.update_maintenanceTasks v i s))))
    (map completion (maintenanceTasks s)).
Proof.
  intros Ev Hb.
  destruct (update_maintenanceTasks_effect v i s) as (_ & _ & [E|E]); rewrite E;
    [reflexivity|].
  etransitivity; [apply Permutation_map, rewritten_in_place|].
  rewrite map_map. erewrite map_ext; [reflexivity|].
  intros t. cbv beta.
  destruct (MaintenanceTask.id t =? i); eauto using set_task_completion.
Qed.

Lemma filter_all {A : Type} (l : list A) : filter (fun _ => true) l = l.
Proof. induction l as [|x l IH]; simpl; congruence. Qed.

Lemma filter_twice {A : Type} (p q : A -> bool) (l : list A) :
  filter q (filter p l) = filter (fun x => p x && q x) l.
Proof.
  induction l as [|x l IH]; simpl; auto.
  destruct (p x); simpl; [destruct (q x)|]; congruence.
Qed.

(** The requests that neither create, update nor complete a task leave
    of the tasks a selection, each task as it was and in its place. *)
Lemma tasks_are_selected (e : Event) (s : Store) :
  match request e with
  | Routes.PostTask _ _ | Routes.PutTask _ _ | Routes.CompleteTask _ => False
  | _ => True
  end ->
  exists keep, maintenanceTasks (serve e s) = filter keep (maintenanceTasks s).
Proof.
  intros He.
  apply (serve_keeps
           (fun s s' => exists keep,
                maintenanceTasks s' = filter keep (maintenanceTasks s))).
  - intros s0. exists (fun _ => true). now rewrite filter_all.
  - intros s1 s2 s3 [k1 H12] [k2 H23].
    exists (fun x => k1 x && k2 x). now rewrite H23, H12, filter_twice.
  - assert (same : forall s0 s1, maintenanceTasks s1 = maintenanceTasks s0 ->
               exists keep, maintenanceTasks s1 = filter keep (maintenanceTasks s0)).
    { intros s0 s1 E. exists (fun _ => true). now rewrite filter_all. }
    destruct (request e) as [body|id body|id|id body|id body|id|id body|id body|id|id];
      try contradiction; simpl.
    + intros u v s0 _ _. apply same, insert_devices_effect.
    + intros v i s0 _. apply same, update_devices_effect.
    + intros i s0. repeat split; try (now apply same).
      eexists. reflexivity.
    + intros d v s0 _. apply same, insert_consumables_effect.
    + intros v i s0 _. apply same, update_consumables_effect.
    + intros i s0. now apply same.
    + intros i s0. eexists. reflexivity.
Qed.

Lemma update_maintenanceTasks_same_task body v i s t' :
  Sql.encodeTask body = Returned v ->
  carries_completion body = false ->
  In t' (maintenanceTasks (snd (Sql.update_maintenanceTasks v i s))) ->
  exists t, In t (maintenanceTasks s)
            /\ completion t' = completion t
            /\ (PartialTask.id body = None ->
                MaintenanceTask.id t' = MaintenanceTask.id t).
Proof.
  intros Ev Hb.
  destruct (update_maintenanceTasks_effect v i s) as (_ & _ & [E|E]); rewrite E;
    [intros H; exists t'; auto|].
  rewrite in_rewritten. intros [[H _]|(t & H & _ & ->)]; [exists t'; auto|].
  exists t. split; [exact H|]. split; [eauto using set_task_completion|].
  intros Hid. apply encodeTask_keys in Ev. destruct Ev as (Ki & _).
  simpl. now rewrite Ki, Hid.
Qed.

(** C1, as the code has it.  A generic update whose payload carries none
    of [lastCompleted], [isCompleted], [completedBy] and
    [completedByUsername] leaves these four fields of every task as they
    were, whoever sends it and whatever the database does: the
    completion records of the tasks are the same before and after, up to
    the order of the rows, and every task of afterwards has the
    completion record of a task of before, which has its id when the
    payload carries no [id].  A request other than a task update and a
    completion either leaves of the tasks a selection, each kept task as
    it was, or is a task creation answered 201 that has appended to the
    tasks, all kept as they were, the task it answers with, which starts
    never completed. *)
Theorem update_keeps_completion :
  (forall user id body w,
      carries_completion body = false ->
      Permutation
        (map completion
           (maintenanceTasks (after (Routes.PUT_api_tasks_id user id body) w)))
        (map completion (maintenanceTasks (db w)))
      /\ forall t',
           In t' (maintenanceTasks (after (Routes.PUT_api_tasks_id user id body) w)) ->
           exists t, In t (maintenanceTasks (db w))
                     /\ completion t' = completion t
                     /\ (PartialTask.id body = None ->
                         MaintenanceTask.id t' = MaintenanceTask.id t))
  /\ (forall e s,
      touches_completion (request e) = false ->
      (exists keep, maintenanceTasks (serve e s) = filter keep (maintenanceTasks s))
      \/ exists t',
           task_created e s t'
           /\ MaintenanceTask.lastCompleted t' = None
           /\ MaintenanceTask.isCompleted t' = Some false).
Proof.
  split.
  - intros user id body w Hb. split.
    + apply (preserves_handle
               (fun s s' => Permutation (map completion (maintenanceTasks s'))
                                        (map completion (maintenanceTasks s)))
               (fun s => Permutation_refl _)
               (fun s1 s2 s3 H12 H23 => Permutation_trans H23 H12)
               user 0 (Routes.PutTask id body)).
      simpl. intros v i s Ev. now apply update_maintenanceTasks_completion with body.
    + refine (preserves_handle
               (fun s s' =>
                  forall t', In t' (maintenanceTasks s') ->
                    exists t, In t (maintenanceTasks s)
                              /\ completion t' = completion t
                              /\ (PartialTask.id body = None ->
                                  MaintenanceTask.id t' = MaintenanceTask.id t))
               _ _ user 0 (Routes.PutTask id body) _ w).
      * intros s t' H. exists t'. auto.
      * intros s1 s2 s3 H12 H23 t3 H3.
        destruct (H23 t3 H3) as (t2 & H2 & E2 & I2).
        destruct (H12 t2 H2) as (t1 & H1 & E1 & I1).
        exists t1. split; [exact H1|]. split; [congruence|].
        intros Hid. rewrite I2, I1; auto.
      * simpl. intros v i s Ev t'.
        now apply update_maintenanceTasks_same_task.
  - intros e s He.
    destruct (request e) as [body|id body|id|id body|id body|id|id body|id body|id|id] eqn:Er;
      try discriminate;
      try (left; apply tasks_are_selected; now rewrite Er).
    unfold task_created, serve, respond. rewrite Er. simpl.
    destruct (POST_api_devices_id_tasks_cases (user e) id body (at_time e)
                (mkWorld s (failure e)))
      as [E|(u & device & t & _ & _ & _ & Ea & Et & _ & Hl & Hc)].
    + left. exists (fun _ => true). rewrite filter_all. exact E.
    + right. exists t. repeat split; eauto.
Qed.

Lemma update_keeps_completion_witness :
  (carries_completion Sample.renamed = false
   /\ Permutation
        (map completion
           (maintenanceTasks
              (after (Routes.PUT_api_tasks_id (Some Sample.alice) 1 Sample.renamed)
                     (reliable Sample.home))))
        (map completion (maintenanceTasks Sample.home)))
  /\ (touches_completion (Routes.DeleteTask 1) = false
      /\ ((exists keep,
              maintenanceTasks (serve (Sample.by_alice 5 (Routes.DeleteTask 1)) Sample.home)
              = filter keep (maintenanceTasks Sample.home))
          \/ exists t',
               task_created (Sample.by_alice 5 (Routes.DeleteTask 1)) Sample.home t'
               /\ MaintenanceTask.lastCompleted t' = None
               /\ MaintenanceTask.isCompleted t' = Some false)).
Proof.
  destruct update_keeps_completion as [H1 H2].
  split.
  - split; [reflexivity|].
    apply (H1 (Some Sample.alice) 1 Sample.renamed (reliable Sample.home)). reflexivity.
  - split; [reflexivity|].
    apply (H2 (Sample.by_alice 5 (Routes.DeleteTask 1)) Sample.home). reflexivity.
Defined.

(** C1 as stated fails: the owner's generic update with a payload that
    carries [isCompleted], [completedBy] and [completedByUsername] is
    answered 200 and the three fields of the stored task are
    overwritten: no task had the completion record that one has
    afterwards. *)
Lemma update_overwrites_completion :
  fst (Routes.PUT_api_tasks_id (Some Sample.alice) 1 Sample.ticked (reliable Sample.home))
  = Returned
      (Routes.Json 200
         (Routes.TaskBody
            (Some (MaintenanceTask.mk 1 1 "Clean filter" None 30 None (Some true)
                                      (Some 2) (Some "bob"%string) 0))))
  /\ ~ Permutation
         (map completion
            (maintenanceTasks
               (after (Routes.PUT_api_tasks_id (Some Sample.alice) 1 Sample.ticked)
                      (reliable Sample.home))))
         (map completion (maintenanceTasks Sample.home)).
Proof.
  split; [reflexivity|]. intros H.
  apply (Permutation_in (None, Some true, Some 2, Some "bob"%string)) in H.
  - vm_compute in H. destruct H as [H|[H|[]]]; discriminate.
  - vm_compute. right. left. reflexivity.
Qed.

(** ** [isCompleted] and [lastCompleted] *)

Lemma consistent_same_tasks s s' :
  maintenanceTasks s' = maintenanceTasks s -> consistent s -> consistent s'.
Proof. unfold consistent. now intros ->. Qed.

Lemma consistent_filter p s :
  consistent s ->
  consistent (with_maintenanceTasks (filter p (maintenanceTasks s)) s).
Proof.
  unfold consistent; simpl. rewrite !Forall_forall.
  intros H t Ht. apply filter_In in Ht. apply H, Ht.
Qed.

Lemma consistent_update v i s :
  (forall t, completed_iff_dated t -> completed_iff_dated (Sql.set_task v t)) ->
  consistent s -> consistent (snd (Sql.update_maintenanceTasks v i s)).
Proof.
  intros Hv Hs.
  destruct (update_maintenanceTasks_effect v i s) as (_ & _ & [E|E]);
    unfold consistent; rewrite E; auto.
  apply Forall_rewritten; auto.
Qed.

Lemma serve_consistent e s :
  keeps_completion_keys e -> consistent s -> consistent (serve e s).
Proof.
  intros He.
  apply (serve_keeps (fun s s' => consistent s -> consistent s')); auto.
  unfold keeps_completion_keys in He.
  destruct (request e) as [body|id body|id|id body|id body|id|id body|id body|id|id];
    simpl.
  - intros u v s0 _ _. apply consistent_same_tasks, insert_devices_effect.
  - intros v i s0 _. apply consistent_same_tasks, update_devices_effect.
  - intros i s0. repeat split; auto. apply consistent_filter.
  - intros d v s0 _. apply consistent_same_tasks, insert_consumables_effect.
  - intros v i s0 _. apply consistent_same_tasks, update_consumables_effect.
  - intros i s0. auto.
  - intros d v s0 Ev Hs.
    destruct (insert_maintenanceTasks_effect v (at_time e) s0)
      as (_ & _ & [E|(row & E & _ & _ & Hl & Hc)]); unfold consistent; rewrite E; auto.
    apply Forall_app. split; [exact Hs|]. constructor; [|constructor].
    apply encodeTask_keys in Ev.
    destruct Ev as (_ & _ & _ & _ & _ & Ei & _ & _ & El & _).
    simpl in Ei, El. injection El as El.
    unfold completed_iff_dated. rewrite Hl, Hc, <- El, Ei. simpl.
    split; [discriminate | intros H; now elim H].
  - destruct He as [Hl Hc]. intros v i s0 Ev. apply consistent_update.
    apply encodeTask_keys in Ev.
    destruct Ev as (_ & _ & _ & _ & _ & Ei & _ & _ & El & _).
    rewrite Hl in El. simpl in El. injection El as El.
    intros t. unfold completed_iff_dated, Sql.set_task; simpl.
    now rewrite <- El, Ei, Hc.
  - intros u i s0 _. apply consistent_update.
    intros t _. unfold completed_iff_dated; simpl. split; [discriminate | reflexivity].
  - intros i s0. apply consistent_filter.
Qed.

(** C4, as the code has it.  From a store in which [isCompleted] is true
    exactly for the tasks whose [lastCompleted] is not null, every
    sequence of requests, answered or failed by the database at any
    statement, whose task updates carry neither [lastCompleted] nor
    [isCompleted] leads to such a store again. *)
Theorem completed_iff_dated_always (es : list Event) (s : Store) :
  consistent s -> Forall keeps_completion_keys es -> consistent (run es s).
Proof.
  revert s. induction es as [|e es IH]; intros s Hs Hes; simpl; [exact Hs|].
  inversion Hes as [|? ? He Hes']; subst.
  apply IH; [|exact Hes']. now apply serve_consistent.
Qed.

Lemma completed_iff_dated_always_witness :
  consistent Sample.home
  /\ Forall keeps_completion_keys
       [Sample.by_alice 10 (Routes.PostTask 1 Sample.renamed);
        Sample.by_alice 20 (Routes.CompleteTask 3);
        Sample.by_alice 30 (Routes.PutTask 3 Sample.renamed)]
  /\ consistent
       (run [Sample.by_alice 10 (Routes.PostTask 1 Sample.renamed);
             Sample.by_alice 20 (Routes.CompleteTask 3);
             Sample.by_alice 30 (Routes.PutTask 3 Sample.renamed)]
            Sample.home).
Proof.
  assert (H0 : consistent Sample.home).
  { repeat constructor; try discriminate; intros H; now elim H. }
  assert (H1 : Forall keeps_completion_keys
                 [Sample.by_alice 10 (Routes.PostTask 1 Sample.renamed);
                  Sample.by_alice 20 (Routes.CompleteTask 3);
                  Sample.by_alice 30 (Routes.PutTask 3 Sample.renamed)]).
  { repeat constructor. }
  split; [exact H0|]. split; [exact H1|].
  apply completed_iff_dated_always; [exact H0 | exact H1].
Defined.

(** C4 as stated fails: a task is created and then updated with a
    payload that carries [isCompleted]; it is stored as completed with no
    completion date. *)
Lemma completed_without_date :
  consistent Sample.home
  /\ ~ consistent
         (run [Sample.by_alice 10 (Routes.PostTask 1 Sample.renamed);
               Sample.by_alice 20 (Routes.PutTask 3 Sample.ticked)]
              Sample.home).
Proof.
  split.
  - repeat constructor; try discriminate; intros H; now elim H.
  - unfold consistent. rewrite Forall_forall. intros H.
    assert (Hin : In (MaintenanceTask.mk 3 1 "Clean the lint filter" None 30 None
                        (Some true) (Some 2) (Some "bob"%string) 10)
                     (maintenanceTasks
                        (run [Sample.by_alice 10 (Routes.PostTask 1 Sample.renamed);
                              Sample.by_alice 20 (Routes.PutTask 3 Sample.ticked)]
                             Sample.home))).
    { vm_compute. right. right. left. reflexivity. }
    apply H in Hin. destruct Hin as [Hin _]. now apply Hin.
Qed.

(** ** The owner of a device *)

Lemma update_devices_owner v i s :
  PartialDevice.userId v = None ->
  Permutation (map Device.userId (devices (snd (Sql.update_devices v i s))))
              (map Device.userId (devices s)).
Proof.
  intros Hv.
  destruct (update_devices_effect v i s) as (_ & _ & [E|E]); rewrite E;
    [reflexivity|].
  etransitivity; [apply Permutation_map, rewritten_in_place|].
  rewrite map_map. erewrite map_ext; [reflexivity|].
  intros d. cbv beta.
  destruct (Device.id d =? i); auto. simpl. now rewrite Hv.
Qed.

Lemma stems_from_self s d : In d (devices s) -> stems_from s d.
Proof. intros H. exists d. auto. Qed.

Lemma stems_from_trans s1 s2 d' :
  (forall d, In d (devices s2) -> stems_from s1 d) ->
  stems_from s2 d' -> stems_from s1 d'.
Proof.
  intros H (d2 & H2 & Hi & Hu).
  destruct (H d2 H2) as (d1 & H1 & Hi1 & Hu1).
  exists d1. repeat split; congruence.
Qed.

(** The requests other than a device creation add no device, and keep
    the id and the owner of every device when their device updates
    carry neither key. *)
Lemma devices_stem e s d' :
  keeps_owner_keys e ->
  match request e with Routes.PostDevice _ => False | _ => True end ->
  In d' (devices (serve e s)) -> stems_from s d'.
Proof.
  intros He Hr. revert d'.
  apply (serve_keeps
           (fun s s' => forall d', In d' (devices s') -> stems_from s d')).
  - intros s0 d0. apply stems_from_self.
  - intros s1 s2 s3 H12 H23 d3 H.
    apply (stems_from_trans s1 s2); auto.
  - assert (same : forall s0 s1, devices s1 = devices s0 ->
               forall d0, In d0 (devices s1) -> stems_from s0 d0).
    { intros s0 s1 E d0. rewrite E. apply stems_from_self. }
    unfold keeps_owner_keys in He.
    destruct (request e) as [body|id body|id|id body|id body|id|id body|id body|id|id];
      try contradiction; simpl.
    + destruct He as [Hu Hi]. intros v i s0 Hv d0.
      apply encode_keys in Hv. destruct Hv as (Hvi & _ & _ & _ & Hvu & _).
      simpl in Hvi, Hvu.
      destruct (update_devices_effect v i s0) as (_ & _ & [E|E]); rewrite E;
        [apply stems_from_self|].
      rewrite in_rewritten. intros [[Hd _]|(d & Hd & _ & ->)];
        [now apply stems_from_self|].
      exists d. split; [exact Hd|]. simpl. rewrite Hvi, Hvu, Hu, Hi. auto.
    + intros i s0. repeat split; try (now apply same).
      intros d0. simpl. rewrite filter_In. intros [H _]. now apply stems_from_self.
    + intros d v s0 _. apply same, insert_consumables_effect.
    + intros v i s0 _. apply same, update_consumables_effect.
    + intros i s0. now apply same.
    + intros d v s0 _. apply same, insert_maintenanceTasks_effect.
    + intros v i s0 _. apply same, update_maintenanceTasks_effect.
    + intros u i s0 _. apply same, update_maintenanceTasks_effect.
    + intros i s0. now apply same.
Qed.

(** A device of the store a request leaves was there before, under the
    same id and with the same owner, or is the device that the request,
    a creation, answers with, and belongs to the user who sent it. *)
Lemma serve_owner e s d' :
  keeps_owner_keys e ->
  In d' (devices (serve e s)) ->
  stems_from s d' \/ (device_created e s d' /\ sent_by_owner e d').
Proof.
  intros He.
  destruct (request e) as [body|id body|id|id body|id body|id|id body|id body|id|id] eqn:Er;
    try (intros H; left; apply (devices_stem e s d' He); [now rewrite Er | exact H]).
  unfold device_created, sent_by_owner, serve, respond. rewrite Er. simpl.
  destruct (user e) as [u|]; [|intros H; left; now apply stems_from_self].
  destruct (POST_api_devices_binds u body (at_time e) (mkWorld s (failure e)))
    as [E|(d & Ea & Ed & Hu)]; unfold after in *.
  - rewrite E. intros H. left. now apply stems_from_self.
  - rewrite Ed, in_app_iff. intros [H|[<-|[]]]; [left; now apply stems_from_self|].
    right. split; [|eauto]. split; [eauto|]. split; [exact Ea | reflexivity].
Qed.

Lemma update_devices_same_device (body : PartialDevice.t JsValue) v i s d' :
  PartialDevice.id v = PartialDevice.id body ->
  PartialDevice.userId v = None ->
  In d' (devices (snd (Sql.update_devices v i s))) ->
  exists d, In d (devices s)
            /\ Device.userId d' = Device.userId d
            /\ (PartialDevice.id body = None -> Device.id d' = Device.id d).
Proof.
  intros Ki Hu.
  destruct (update_devices_effect v i s) as (_ & _ & [E|E]); rewrite E;
    [intros H; exists d'; auto|].
  rewrite in_rewritten. intros [[H _]|(d & H & _ & ->)]; [exists d'; auto|].
  exists d. split; [exact H|]. simpl. rewrite Hu, Ki. split; [reflexivity|].
  now intros ->.
Qed.

(** C2, as the code has it.  A device update whose payload carries no
    [userId] leaves the owner of every device as it was, whoever sends
    it and whatever the database does: the owners of the devices are the
    same before and after, up to the order of the rows, and every device
    of afterwards has the owner of a device of before, which has its id
    when the payload carries no [id].  Over any
    sequence of requests whose device updates carry neither [userId] nor
    [id], every device of the resulting store has the id and the owner
    of a device of the initial store, or the id and the owner of the
    device that a creation of the sequence, answered 201, has appended
    to the devices, and that owner is the user who sent the creation. *)
Theorem owner_kept :
  (forall user id body w,
      PartialDevice.userId body = None ->
      Permutation
        (map Device.userId (devices (after (Routes.PUT_api_devices_id user id body) w)))
        (map Device.userId (devices (db w)))
      /\ forall d',
           In d' (devices (after (Routes.PUT_api_devices_id user id body) w)) ->
           exists d, In d (devices (db w))
                     /\ Device.userId d' = Device.userId d
                     /\ (PartialDevice.id body = None -> Device.id d' = Device.id d))
  /\ (forall es s d',
      Forall keeps_owner_keys es ->
      In d' (devices (run es s)) ->
      stems_from s d'
      \/ exists es1 e es2 d,
           es = es1 ++ e :: es2
           /\ device_created e (run es1 s) d
           /\ sent_by_owner e d
           /\ Device.id d = Device.id d'
           /\ Device.userId d = Device.userId d').
Proof.
  split.
  - intros user id body w Hb. split.
    + apply (preserves_handle
               (fun s s' => Permutation (map Device.userId (devices s'))
                                        (map Device.userId (devices s)))
               (fun s => Permutation_refl _)
               (fun s1 s2 s3 H12 H23 => Permutation_trans H23 H12)
               user 0 (Routes.PutDevice id body)).
      simpl. intros v i s Hv. apply update_devices_owner.
      apply encode_keys in Hv. destruct Hv as (_ & _ & _ & _ & Hv & _).
      simpl in Hv. congruence.
    + refine (preserves_handle
               (fun s s' =>
                  forall d', In d' (devices s') ->
                    exists d, In d (devices s)
                              /\ Device.userId d' = Device.userId d
                              /\ (PartialDevice.id body = None ->
                                  Device.id d' = Device.id d))
               _ _ user 0 (Routes.PutDevice id body) _ w).
      * intros s d' H. exists d'. auto.
      * intros s1 s2 s3 H12 H23 d3 H3.
        destruct (H23 d3 H3) as (d2 & H2 & E2 & I2).
        destruct (H12 d2 H2) as (d1 & H1 & E1 & I1).
        exists d1. split; [exact H1|]. split; [congruence|].
        intros Hid. rewrite I2, I1; auto.
      * simpl. intros v i s Hv d'.
        apply encode_keys in Hv. destruct Hv as (Ki & _ & _ & _ & Ku & _).
        simpl in Ki, Ku.
        apply update_devices_same_device; congruence.
  - intros es. induction es as [|e es IH]; intros s d' Hes Hin; simpl in Hin.
    + left. now apply stems_from_self.
    + inversion Hes as [|? ? He Hes']; subst.
      destruct (IH _ _ Hes' Hin)
        as [(d1 & H1 & Hi & Hu)|(es1 & e' & es2 & d & -> & Hc & Hs & Hi & Hu)].
      * destruct (serve_owner e s d1 He H1) as [(d0 & H0 & Hi0 & Hu0)|[Hc Hs]].
        -- left. exists d0. repeat split; congruence.
        -- right. exists [], e, es, d1.
           split; [reflexivity|]. split; [exact Hc|]. split; [exact Hs|].
           split; [exact Hi | exact Hu].
      * right. exists (e :: es1), e', es2, d.
        split; [reflexivity|]. split; [exact Hc|]. split; [exact Hs|].
        split; [exact Hi | exact Hu].
Qed.

Lemma owner_kept_witness :
  (PartialDevice.userId (Sample.just "Washing machine") = None
   /\ Permutation
        (map Device.userId
           (devices
              (after (Routes.PUT_api_devices_id (Some Sample.alice) 1
                        (Sample.just "Washing machine"))
                     (reliable Sample.home))))
        (map Device.userId (devices Sample.home)))
  /\ (Forall keeps_owner_keys
        [Sample.by_alice 10 (Routes.PutDevice 1 (Sample.just "Washing machine"));
         Sample.by_alice 20 (Routes.PostDevice (Sample.just "Dryer"))]
      /\ In (Device.mk 3 "Dryer" None None 1 None None None None None None 20 20)
            (devices
               (run [Sample.by_alice 10
                       (Routes.PutDevice 1 (Sample.just "Washing machine"));
                     Sample.by_alice 20 (Routes.PostDevice (Sample.just "Dryer"))]
                    Sample.home))
      /\ (stems_from Sample.home
            (Device.mk 3 "Dryer" None None 1 None None None None None None 20 20)
          \/ exists es1 e es2 d,
               [Sample.by_alice 10
                  (Routes.PutDevice 1 (Sample.just "Washing machine"));
                Sample.by_alice 20 (Routes.PostDevice (Sample.just "Dryer"))]
               = es1 ++ e :: es2
               /\ device_created e (run es1 Sample.home) d
               /\ sent_by_owner e d
               /\ Device.id d = 3
               /\ Device.userId d = 1)).
Proof.
  destruct owner_kept as [H1 H2].
  split.
  - split; [reflexivity|].
    apply (H1 (Some Sample.alice) 1 (Sample.just "Washing machine")
              (reliable Sample.home)).
    reflexivity.
  - assert (Hk : Forall keeps_owner_keys
                   [Sample.by_alice 10
                      (Routes.PutDevice 1 (Sample.just "Washing machine"));
                    Sample.by_alice 20 (Routes.PostDevice (Sample.just "Dryer"))]).
    { repeat constructor. }
    assert (Hin : In (Device.mk 3 "Dryer" None None 1 None None None None None None 20 20)
                     (devices
                        (run [Sample.by_alice 10
                                (Routes.PutDevice 1 (Sample.just "Washing machine"));
                              Sample.by_alice 20
                                (Routes.PostDevice (Sample.just "Dryer"))]
                             Sample.home))).
    { vm_compute. right. right. left. reflexivity. }
    split; [exact Hk|]. split; [exact Hin|].
    apply (H2 _ _ _ Hk Hin).
Defined.

(** C2 as stated fails: the owner's device update with a payload that
    carries [userId] is answered 200 and the device then belongs to the
    user the payload names; no device belongs to the first user any
    more. *)
Lemma update_reassigns_owner :
  device_access Sample.home Sample.alice 1 = Owned
  /\ fst (Routes.PUT_api_devices_id (Some Sample.alice) 1 Sample.handed_over
            (reliable Sample.home))
     = Returned
         (Routes.Json 200
            (Routes.DeviceBody
               (Some (Device.mk 1 "Washer" None (Some "Cellar"%string) 2 None None None
                                None None None 0 0))))
  /\ device_access
       (after (Routes.PUT_api_devices_id (Some Sample.alice) 1 Sample.handed_over)
              (reliable Sample.home))
       Sample.bob 1
     = Owned
  /\ ~ Permutation
         (map Device.userId
            (devices
               (after (Routes.PUT_api_devices_id (Some Sample.alice) 1 Sample.handed_over)
                      (reliable Sample.home))))
         (map Device.userId (devices Sample.home)).
Proof.
  split; [reflexivity|]. split; [reflexivity|]. split; [reflexivity|].
  intros H. apply Permutation_sym in H. apply (Permutation_in 1) in H.
  - vm_compute in H. destruct H as [H|[H|[]]]; discriminate.
  - vm_compute. left. reflexivity.
Qed.

(** ** The date keys of a device update *)


Lemma filter_nil_none {A : Type} (p : A -> bool) (l : list A) (x : A) :
  filter p l = [] -> In x l -> p x = false.
Proof.
  intros H Hx. destruct (p x) eqn:E; auto.
  assert (Hin : In x (filter p l)) by (apply filter_In; auto).
  rewrite H in Hin. destruct Hin.
Qed.

(** An update that hits no row leaves the table as it is. *)
Lemma rewritten_none {A : Type} (hit : A -> bool) (f : A -> A) (rows : list A) :
  filter hit rows = [] -> Sql.rewritten hit f rows = rows.
Proof.
  intros E. unfold Sql.rewritten. rewrite E. simpl. rewrite app_nil_r.
  induction rows as [|x rows IH]; simpl in *; [reflexivity|].
  destruct (hit x); [discriminate|]. simpl. f_equal. auto.
Qed.


Lemma with_consumables_same s : with_consumables (consumables s) s = s.
Proof. now destruct s. Qed.

Lemma with_maintenanceTasks_same s : with_maintenanceTasks (maintenanceTasks s) s = s.
Proof. now destruct s. Qed.


Lemma update_consumables_accepted v i s :
  Sql.consumables_params v = None ->
  Sql.null_key (PartialConsumable.created_at v)
  || Sql.null_key (PartialConsumable.updated_at v) = false ->
  Sql.key_taken (PartialConsumable.id v) i (map Consumable.id (consumables s)) = false ->
  Sql.update_consumables v i s
  = (Returned (map (Sql.set_consumable v) (Sql.select_consumables_id i s)),
     with_consumables
       (Sql.rewritten (fun c => Consumable.id c =? i) (Sql.set_consumable v)
                      (consumables s)) s).
Proof.
  intros Hp Hn Hk. unfold Sql.update_consumables. rewrite Hp, Hn, Hk.
  destruct (Sql.select_consumables_id i s) eqn:E; [|reflexivity].
  unfold Sql.select_consumables_id in E. rewrite rewritten_none by exact E.
  now rewrite with_consumables_same.
Qed.

Lemma update_maintenanceTasks_accepted v i s :
  Sql.maintenanceTasks_params v = None ->
  Sql.null_key (PartialTask.created_at v) = false ->
  Sql.key_taken (PartialTask.id v) i (map MaintenanceTask.id (maintenanceTasks s))
  = false ->
  Sql.dangling_user s (PartialTask.completedBy v) = false ->
  Sql.update_maintenanceTasks v i s
  = (Returned (map (Sql.set_task v) (Sql.select_maintenanceTasks_id i s)),
     with_maintenanceTasks
       (Sql.rewritten (fun t => MaintenanceTask.id t =? i) (Sql.set_task v)
                      (maintenanceTasks s)) s).
Proof.
  intros Hp Hn Hk Hd. unfold Sql.update_maintenanceTasks. rewrite Hp, Hn, Hk, Hd.
  destruct (Sql.select_maintenanceTasks_id i s) eqn:E; [|reflexivity].
  unfold Sql.select_maintenanceTasks_id in E. rewrite rewritten_none by exact E.
  now rewrite with_maintenanceTasks_same.
Qed.



(** The washer loses both dates when only its name is sent, and when the
    purchase date is sent as an empty string. *)
Example updateDevice_drops_stored_dates :
  Device.purchaseDate Sample.washer = Some 1700000000000
  /\ Device.warrantyExpirationDate Sample.washer = Some 1800000000000
  /\ fst (DatabaseStorage.updateDevice 1 (Sample.just "Washing machine")
            (reliable Sample.home))
     = Returned
         (Some (Device.mk 1 "Washing machine" None (Some "Cellar"%string) 1 None None
                          None None None None 0 0))
  /\ fst (DatabaseStorage.updateDevice 1
            (PartialDevice.mk None None None None None None None None
               (Some (JStr EmptyString None)) (Some (JStr "2030-01-01" (Some 1893456000000)))
               None None None)
            (reliable Sample.home))
     = Returned
         (Some (Device.mk 1 "Washer" None (Some "Cellar"%string) 1 None None
                          None None (Some 1893456000000) None 0 0)).
Proof. repeat split. Qed.

(** What the storage layer cannot write: a date past the year 9999 is
    refused by the database, a [created_at] read from JSON by drizzle;
    the devices stay as they were. *)
Example updateDevice_refused :
  DatabaseStorage.updateDevice 1
    (PartialDevice.mk None None None None None None None None
       (Some (JNum 253402300800000)) None None None None)
    (reliable Sample.home)
  = (Threw DatetimeOutOfRange, reliable Sample.home)
  /\ DatabaseStorage.updateDevice 1
       (PartialDevice.mk None None None None None None None None None None None
          (Some (JStr "2024-01-01T00:00:00.000Z" (Some 1704067200000))) None)
       (reliable Sample.home)
     = (Threw TypeError, reliable Sample.home).
Proof. split; reflexivity. Qed.

(** ** The interval of a new task *)






(** What the schema lets through and the route cannot store: an interval
    beyond the range of an [integer] column passes the schema, and so
    does one that is no integer; the request with the former is refused
    by the database and nothing is stored. *)
Example interval_beyond_the_column :
  insertTaskSchema (TaskForm.mk "Rarely" None (Finite (Qmake 2147483648 1)))
  = ZodOk (TaskForm.mk "Rarely" None (Finite (Qmake 2147483648 1)))
  /\ insertTaskSchema (TaskForm.mk "Often" None (Finite (Qmake 3 2)))
     = ZodOk (TaskForm.mk "Often" None (Finite (Qmake 3 2)))
  /\ Routes.POST_api_devices_id_tasks (Some Sample.alice) 1
       (PartialTask.mk None None (Some "Rarely"%string) None (Some 2147483648)
                       None None None None None)
       10 (reliable Sample.home)
     = (Threw NumericValueOutOfRange, reliable Sample.home).
Proof. repeat split. Qed.


(** * Further properties *)

(** ** Requests without a session *)

(** X1.  Without an authenticated user every route above, mutating or reading,
    answers 401 and sends no statement to the database: the store and
    the database's pending failure are as they were. *)
Theorem unauthenticated_is_refused (now : Timestamp) (r : Routes.Request) (w : World) :
  Routes.handle None now r w = (Returned (Routes.SendStatus 401), w)
  /\ Reads.GET_api_devices None w = (Returned (Reads.Status 401), w)
  /\ Reads.GET_api_consumables None w = (Returned (Reads.Status 401), w)
  /\ Reads.GET_api_tasks None w = (Returned (Reads.Status 401), w)
  /\ (forall id,
        Reads.GET_api_devices_id_consumables None id w = (Returned (Reads.Status 401), w)
        /\ Reads.GET_api_devices_id_tasks None id w = (Returned (Reads.Status 401), w)).
Proof.
  split; [destruct r; reflexivity|]. repeat split.
Qed.

(** ** The name of an uploaded file *)

Lemma units_of_uint_digits d :
  Forall (fun c => (48 <= c <= 57)%N) (Upload.units_of_uint d).
Proof.
  induction d; simpl; constructor; auto; lia.
Qed.

Lemma numeral_starts_with_digit n :
  exists c rest, Upload.numeral n = c :: rest /\ (48 <= c <= 57)%N.
Proof.
  unfold Upload.numeral.
  pose proof (units_of_uint_digits (N.to_uint n)) as H.
  destruct (Upload.units_of_uint (N.to_uint n)) as [|c rest] eqn:E.
  - exfalso. destruct n as [|p]; [discriminate|].
    simpl in E. pose proof (DecimalPos.Unsigned.to_uint_nonnil p) as Hp.
    destruct (Pos.to_uint p); [now apply Hp | | | | | | | | | |]; discriminate.
  - inversion H; subst. eauto.
Qed.

Lemma kept_or_underscore c :
  Upload.kept (if Upload.kept c then c else Upload.underscore) = true
  \/ (if Upload.kept c then c else Upload.underscore) = Upload.underscore.
Proof. destruct (Upload.kept c) eqn:E; auto. Qed.

(** X2.  The name under which an upload is stored consists of the
    decimal numeral of the clock, a hyphen and the client's file name
    with every code unit outside [a-zA-Z0-9.-] replaced by an
    underscore.  It keeps the length of the client's name, starts with
    a digit, and contains nothing but letters, digits, dots, hyphens and
    underscores: no slash, no backslash and no NUL whatever the client
    sends.  Sanitising a sanitised name changes nothing. *)
Theorem fileName_is_flat (now : N) (name : list N) :
  List.length (Upload.safeName name) = List.length name
  /\ Upload.safeName (Upload.safeName name) = Upload.safeName name
  /\ Forall (fun c => Upload.kept c = true \/ c = Upload.underscore)
            (Upload.fileName now name)
  /\ ~ In 47%N (Upload.fileName now name)
  /\ ~ In 92%N (Upload.fileName now name)
  /\ ~ In 0%N (Upload.fileName now name)
  /\ exists c rest, Upload.fileName now name = c :: rest /\ (48 <= c <= 57)%N.
Proof.
  assert (Hall : Forall (fun c => Upload.kept c = true \/ c = Upload.underscore)
                        (Upload.fileName now name)).
  { unfold Upload.fileName. apply Forall_app. split.
    - unfold Upload.numeral.
      eapply Forall_impl; [|apply units_of_uint_digits].
      intros c Hc. cbv beta in Hc. left. unfold Upload.kept.
      assert ((48 <=? c)%N = true) as -> by (apply N.leb_le; lia).
      assert ((c <=? 57)%N = true) as -> by (apply N.leb_le; lia).
      simpl. now rewrite !orb_true_r.
    - constructor; [left; reflexivity|].
      unfold Upload.safeName. apply Forall_map, Forall_forall.
      intros c _. apply kept_or_underscore. }
  assert (Hnot : forall c, Upload.kept c = false -> c <> Upload.underscore ->
                           ~ In c (Upload.fileName now name)).
  { intros c Hk Hu Hin. rewrite Forall_forall in Hall.
    destruct (Hall c Hin) as [H|H]; congruence. }
  split; [apply length_map|]. split.
  - unfold Upload.safeName. rewrite map_map. apply map_ext. intros c.
    destruct (Upload.kept c) eqn:E; [now rewrite E | reflexivity].
  - split; [exact Hall|].
    split; [apply Hnot; [reflexivity | discriminate]|].
    split; [apply Hnot; [reflexivity | discriminate]|].
    split; [apply Hnot; [reflexivity | discriminate]|].
    unfold Upload.fileName.
    destruct (numeral_starts_with_digit now) as (c & rest & E & Hc).
    rewrite E. simpl. eauto.
Qed.

(** ** Listings *)

Lemma getTasks_cases id w :
  DatabaseStorage.getTasks id w = (Threw PersistenceError, reliable (db w))
  \/ exists fl,
       DatabaseStorage.getTasks id w
       = (Returned (Sql.select_maintenanceTasks_deviceId id (db w)), mkWorld (db w) fl).
Proof.
  unfold DatabaseStorage.getTasks.
  match goal with |- context [query ?f w] => destruct (query_cases f w) as [E|(fl & E)] end;
    rewrite E; [left | right; exists fl]; reflexivity.
Qed.

Lemma getConsumables_cases id w :
  DatabaseStorage.getConsumables id w = (Threw PersistenceError, reliable (db w))
  \/ exists fl,
       DatabaseStorage.getConsumables id w
       = (Returned (Sql.select_consumables_deviceId id (db w)), mkWorld (db w) fl).
Proof.
  unfold DatabaseStorage.getConsumables.
  match goal with |- context [query ?f w] => destruct (query_cases f w) as [E|(fl & E)] end;
    rewrite E; [left | right; exists fl]; reflexivity.
Qed.

Lemma getDevices_cases userId w :
  DatabaseStorage.getDevices userId w = (Threw PersistenceError, reliable (db w))
  \/ exists fl,
       DatabaseStorage.getDevices userId w
       = (Returned (Sql.select_devices_userId userId (db w)), mkWorld (db w) fl).
Proof.
  unfold DatabaseStorage.getDevices.
  match goal with |- context [query ?f w] => destruct (query_cases f w) as [E|(fl & E)] end;
    rewrite E; [left | right; exists fl]; reflexivity.
Qed.

Lemma pushTasks_cases ds : forall acc w,
  (exists w', Reads.pushTasks ds acc w = (Threw PersistenceError, w') /\ db w' = db w)
  \/ exists w',
       Reads.pushTasks ds acc w
       = (Returned
            (acc ++ flat_map (fun d => Sql.select_maintenanceTasks_deviceId (Device.id d) (db w))
                             ds),
          w')
       /\ db w' = db w.
Proof.
  induction ds as [|d ds IH]; intros acc w; simpl.
  - right. exists w. rewrite app_nil_r. auto.
  - unfold bind.
    destruct (getTasks_cases (Device.id d) w) as [E|(fl & E)]; rewrite E.
    + left. eexists. split; reflexivity.
    + destruct (IH (acc ++ Sql.select_maintenanceTasks_deviceId (Device.id d) (db w))
                   (mkWorld (db w) fl)) as [(w' & E' & Hw)|(w' & E' & Hw)];
        rewrite E'; [left | right]; exists w'; simpl in *; split; auto.
      now rewrite <- app_assoc.
Qed.

Lemma pushConsumables_cases ds : forall acc w,
  (exists w', Reads.pushConsumables ds acc w = (Threw PersistenceError, w') /\ db w' = db w)
  \/ exists w',
       Reads.pushConsumables ds acc w
       = (Returned
            (acc ++ flat_map
                      (fun d => map (fun c => (c, Device.name d))
                                    (Sql.select_consumables_deviceId (Device.id d) (db w)))
                      ds),
          w')
       /\ db w' = db w.
Proof.
  induction ds as [|d ds IH]; intros acc w; simpl.
  - right. exists w. rewrite app_nil_r. auto.
  - unfold bind.
    destruct (getConsumables_cases (Device.id d) w) as [E|(fl & E)]; rewrite E.
    + left. eexists. split; reflexivity.
    + destruct (IH (acc ++ map (fun c => (c, Device.name d))
                              (Sql.select_consumables_deviceId (Device.id d) (db w)))
                   (mkWorld (db w) fl)) as [(w' & E' & Hw)|(w' & E' & Hw)];
        rewrite E'; [left | right]; exists w'; simpl in *; split; auto.
      now rewrite <- app_assoc.
Qed.

Lemma pushTasks_reliable ds : forall acc s,
  Reads.pushTasks ds acc (reliable s)
  = (Returned
       (acc ++ flat_map (fun d => Sql.select_maintenanceTasks_deviceId (Device.id d) s) ds),
     reliable s).
Proof.
  induction ds as [|d ds IH]; intros acc s; simpl.
  - now rewrite app_nil_r.
  - unfold bind, DatabaseStorage.getTasks. rewrite query_reliable. cbn [fst snd].
    rewrite IH. now rewrite <- app_assoc.
Qed.

Lemma pushConsumables_reliable ds : forall acc s,
  Reads.pushConsumables ds acc (reliable s)
  = (Returned
       (acc ++ flat_map
                 (fun d => map (fun c => (c, Device.name d))
                               (Sql.select_consumables_deviceId (Device.id d) s))
                 ds),
     reliable s).
Proof.
  induction ds as [|d ds IH]; intros acc s; simpl.
  - now rewrite app_nil_r.
  - unfold bind, DatabaseStorage.getConsumables. rewrite query_reliable. cbn [fst snd].
    rewrite IH. now rewrite <- app_assoc.
Qed.

(** X3.  [GET /api/tasks] never changes the store and never answers with
    a partial list: it throws when the database fails one of its
    statements, and otherwise answers with the tasks of the user's
    devices, device after device.  A task is in the answer exactly when
    it is stored under a device whose [userId] is the user's id, so no
    task of another user's device is ever listed. *)
Theorem GET_api_tasks_lists_own_tasks (u : User.t) (w : World) :
  after (Reads.GET_api_tasks (Some u)) w = db w
  /\ (fst (Reads.GET_api_tasks (Some u) w) = Threw PersistenceError
      \/ fst (Reads.GET_api_tasks (Some u) w)
         = Returned
             (Reads.Rows
                (flat_map
                   (fun d => Sql.select_maintenanceTasks_deviceId (Device.id d) (db w))
                   (Sql.select_devices_userId (User.id u) (db w)))))
  /\ (fault w = None ->
      fst (Reads.GET_api_tasks (Some u) w)
      = Returned
          (Reads.Rows
             (flat_map
                (fun d => Sql.select_maintenanceTasks_deviceId (Device.id d) (db w))
                (Sql.select_devices_userId (User.id u) (db w)))))
  /\ (forall t,
      In t (flat_map
              (fun d => Sql.select_maintenanceTasks_deviceId (Device.id d) (db w))
              (Sql.select_devices_userId (User.id u) (db w)))
      <-> In t (maintenanceTasks (db w))
          /\ owns (db w) (User.id u) (MaintenanceTask.deviceId t)).
Proof.
  assert (Hmem : forall t,
      In t (flat_map
              (fun d => Sql.select_maintenanceTasks_deviceId (Device.id d) (db w))
              (Sql.select_devices_userId (User.id u) (db w)))
      <-> In t (maintenanceTasks (db w))
          /\ owns (db w) (User.id u) (MaintenanceTask.deviceId t)).
  { intros t. rewrite in_flat_map. unfold owns, Sql.select_devices_userId,
      Sql.select_maintenanceTasks_deviceId. split.
    - intros (d & Hd & Ht). apply filter_In in Hd, Ht.
      destruct Hd as [Hd Hu], Ht as [Ht Hi]. apply Z.eqb_eq in Hu, Hi.
      split; [exact Ht|]. exists d. auto.
    - intros (Ht & d & Hd & Hu & Hi). exists d.
      rewrite !filter_In, !Z.eqb_eq. auto. }
  assert (Hrel : fault w = None ->
      fst (Reads.GET_api_tasks (Some u) w)
      = Returned
          (Reads.Rows
             (flat_map
                (fun d => Sql.select_maintenanceTasks_deviceId (Device.id d) (db w))
                (Sql.select_devices_userId (User.id u) (db w))))).
  { destruct w as [s f]. simpl. intros ->.
    unfold Reads.GET_api_tasks, bind, DatabaseStorage.getDevices.
    change (mkWorld s None) with (reliable s).
    rewrite query_reliable. cbn [fst snd]. now rewrite pushTasks_reliable. }
  split; [|split; [|split; [exact Hrel | exact Hmem]]];
    unfold after, Reads.GET_api_tasks, bind;
    destruct (getDevices_cases (User.id u) w) as [E|(fl & E)]; rewrite E;
    try reflexivity; try (left; reflexivity);
    destruct (pushTasks_cases (Sql.select_devices_userId (User.id u) (db w)) []
                (mkWorld (db w) fl)) as [(w' & E' & Hw)|(w' & E' & Hw)];
    rewrite E'; simpl in *; auto.
Qed.

Lemma GET_api_tasks_lists_own_tasks_witness :
  fault (reliable Sample.home) = None
  /\ fst (Reads.GET_api_tasks (Some Sample.alice) (reliable Sample.home))
     = Returned (Reads.Rows [Sample.clean_filter]).
Proof.
  split; [reflexivity|].
  destruct (GET_api_tasks_lists_own_tasks Sample.alice (reliable Sample.home))
    as (_ & _ & H & _).
  rewrite H; reflexivity.
Defined.

(** X4.  [GET /api/consumables], through [getAllConsumables], never
    changes the store and never answers with a partial list.  A pair of a
    consumable and a device name is in the answer exactly when the
    consumable is stored under a device of the user that bears this
    name: every consumable listed is the user's and is labelled with
    the name of its own device. *)
Theorem GET_api_consumables_lists_own_consumables (u : User.t) (w : World) :
  after (Reads.GET_api_consumables (Some u)) w = db w
  /\ (fst (Reads.GET_api_consumables (Some u) w) = Threw PersistenceError
      \/ fst (Reads.GET_api_consumables (Some u) w)
         = Returned
             (Reads.Rows
                (flat_map
                   (fun d => map (fun c => (c, Device.name d))
                                 (Sql.select_consumables_deviceId (Device.id d) (db w)))
                   (Sql.select_devices_userId (User.id u) (db w)))))
  /\ (fault w = None ->
      fst (Reads.GET_api_consumables (Some u) w)
      = Returned
          (Reads.Rows
             (flat_map
                (fun d => map (fun c => (c, Device.name d))
                              (Sql.select_consumables_deviceId (Device.id d) (db w)))
                (Sql.select_devices_userId (User.id u) (db w)))))
  /\ (forall c deviceName,
      In (c, deviceName)
         (flat_map
            (fun d => map (fun c => (c, Device.name d))
                          (Sql.select_consumables_deviceId (Device.id d) (db w)))
            (Sql.select_devices_userId (User.id u) (db w)))
      <-> In c (consumables (db w))
          /\ exists d, In d (devices (db w))
                       /\ Device.userId d = User.id u
                       /\ Device.id d = Consumable.deviceId c
                       /\ Device.name d = deviceName).
Proof.
  assert (Hmem : forall c deviceName,
      In (c, deviceName)
         (flat_map
            (fun d => map (fun c => (c, Device.name d))
                          (Sql.select_consumables_deviceId (Device.id d) (db w)))
            (Sql.select_devices_userId (User.id u) (db w)))
      <-> In c (consumables (db w))
          /\ exists d, In d (devices (db w))
                       /\ Device.userId d = User.id u
                       /\ Device.id d = Consumable.deviceId c
                       /\ Device.name d = deviceName).
  { intros c n. rewrite in_flat_map.
    unfold Sql.select_devices_userId, Sql.select_consumables_deviceId. split.
    - intros (d & Hd & Hc). apply filter_In in Hd. destruct Hd as [Hd Hu].
      apply in_map_iff in Hc. destruct Hc as (c' & [= -> <-] & Hc).
      apply filter_In in Hc. destruct Hc as [Hc Hi]. apply Z.eqb_eq in Hu, Hi.
      split; [exact Hc|]. exists d. auto.
    - intros (Hc & d & Hd & Hu & Hi & <-). exists d. split.
      + apply filter_In. rewrite Z.eqb_eq. auto.
      + apply in_map_iff. exists c. split; [reflexivity|].
        apply filter_In. rewrite Z.eqb_eq. auto. }
  assert (Hrel : fault w = None ->
      fst (Reads.GET_api_consumables (Some u) w)
      = Returned
          (Reads.Rows
             (flat_map
                (fun d => map (fun c => (c, Device.name d))
                              (Sql.select_consumables_deviceId (Device.id d) (db w)))
                (Sql.select_devices_userId (User.id u) (db w))))).
  { destruct w as [s f]. simpl. intros ->.
    unfold Reads.GET_api_consumables, Reads.getAllConsumables, bind,
      DatabaseStorage.getDevices.
    change (mkWorld s None) with (reliable s).
    rewrite query_reliable. cbn [fst snd]. now rewrite pushConsumables_reliable. }
  split; [|split; [|split; [exact Hrel | exact Hmem]]];
    unfold after, Reads.GET_api_consumables, Reads.getAllConsumables, bind;
    destruct (getDevices_cases (User.id u) w) as [E|(fl & E)]; rewrite E;
    try reflexivity; try (left; reflexivity);
    destruct (pushConsumables_cases (Sql.select_devices_userId (User.id u) (db w)) []
                (mkWorld (db w) fl)) as [(w' & E' & Hw)|(w' & E' & Hw)];
    rewrite E'; simpl in *; auto.
Qed.

Lemma GET_api_consumables_lists_own_consumables_witness :
  fault (reliable Sample.home) = None
  /\ fst (Reads.GET_api_consumables (Some Sample.bob) (reliable Sample.home))
     = Returned (Reads.Rows [(Sample.gasket, "Boiler"%string)]).
Proof.
  split; [reflexivity|].
  destruct (GET_api_consumables_lists_own_consumables Sample.bob (reliable Sample.home))
    as (_ & _ & H & _).
  rewrite H; reflexivity.
Defined.



(** ** What a request can do to the store *)

Lemma getTask_cases id w :
  DatabaseStorage.getTask id w = (Threw PersistenceError, reliable (db w))
  \/ exists fl,
       DatabaseStorage.getTask id w = (Returned (task_of (db w) id), mkWorld (db w) fl).
Proof.
  unfold DatabaseStorage.getTask, bind.
  match goal with |- context [query ?f w] => destruct (query_cases f w) as [E|(fl & E)] end;
    rewrite E; [left | right; exists fl]; reflexivity.
Qed.

Lemma getConsumable_cases id w :
  DatabaseStorage.getConsumable id w = (Threw PersistenceError, reliable (db w))
  \/ exists fl,
       DatabaseStorage.getConsumable id w
       = (Returned (consumable_of (db w) id), mkWorld (db w) fl).
Proof.
  unfold DatabaseStorage.getConsumable, bind.
  match goal with |- context [query ?f w] => destruct (query_cases f w) as [E|(fl & E)] end;
    rewrite E; [left | right; exists fl]; reflexivity.
Qed.

Lemma consumable_of_id s id c : consumable_of s id = Some c -> Consumable.id c = id.
Proof.
  intros H. apply first_filter_sound in H. destruct H as [H _]. now apply Z.eqb_eq.
Qed.

Lemma after_then_ret {A B : Type} (m : Async A) (f : A -> B) (w : World) :
  db (snd (bind m (fun a => ret (f a)) w)) = db (snd (m w)).
Proof. unfold bind, ret. now destruct (m w) as [[a|e] w']. Qed.

Lemma after_try_catch_ret {A : Type} (m : Async A) (x : A) (w : World) :
  db (snd (try_catch m (ret x) w)) = db (snd (m w)).
Proof. unfold try_catch, ret. now destruct (m w) as [[a|e] w']. Qed.

Lemma after_query {A : Type} (f : Store -> Outcome A * Store) (w : World) :
  db (snd (query f w)) = db w \/ db (snd (query f w)) = snd (f (db w)).
Proof. exact (query_after f w). Qed.

Lemma deleteDevice_any id w :
  exists k, db (snd (DatabaseStorage.deleteDevice id w))
            = apply_all (firstn k (cascade id)) (db w).
Proof.
  destruct w as [s [k|]].
  - exists k. apply deleteDevice_prefix.
  - exists 3%nat. reflexivity.
Qed.

Ltac peel H cases :=
  unfold bind at 1 in H;
  let E := fresh "E" in
  let fl := fresh "fl" in
  destruct cases as [E|(fl & E)]; cbn [db] in E; rewrite E in H;
  [left; symmetry; exact H|]; cbv beta iota in H.

Ltac pass_device_guard H s f id u Ed Ef :=
  peel H (getDevice_cases id (mkWorld s f));
  destruct (device_of s id) as [?d|] eqn:Ed; [|left; symmetry; exact H];
  destruct (Routes.foreign _ u) eqn:Ef; [left; symmetry; exact H|];
  rewrite ?(device_of_id _ _ _ Ed) in H.

Lemma owned_device s u id d :
  device_of s id = Some d -> Routes.foreign d u = false -> device_access s u id = Owned.
Proof. intros E F. unfold device_access. now rewrite E, F. Qed.

Lemma owned_task s u id t d :
  task_of s id = Some t -> device_of s (MaintenanceTask.deviceId t) = Some d ->
  Routes.foreign d u = false -> task_access s u id = Owned.
Proof.
  intros Et E F. unfold task_access. now rewrite Et, (owned_device _ _ _ _ E F).
Qed.

Lemma owned_consumable s u id c d :
  consumable_of s id = Some c -> device_of s (Consumable.deviceId c) = Some d ->
  Routes.foreign d u = false -> consumable_access s u id = Owned.
Proof.
  intros Ec E F. unfold consumable_access. now rewrite Ec, (owned_device _ _ _ _ E F).
Qed.

Lemma with_owned_task_outcome u id k s f s' :
  db (snd (Routes.with_owned_task u id k (mkWorld s f))) = s' ->
  s' = s
  \/ exists t fl, task_access s u id = Owned
                  /\ task_of s id = Some t
                  /\ db (snd (k t (mkWorld s fl))) = s'.
Proof.
  intros H. unfold Routes.with_owned_task in H.
  peel H (getTask_cases id (mkWorld s f)).
  destruct (task_of s id) as [t|] eqn:Et; [|left; symmetry; exact H].
  peel H (getDevice_cases (MaintenanceTask.deviceId t) (mkWorld s fl)).
  destruct (device_of s (MaintenanceTask.deviceId t)) as [d|] eqn:Ed;
    [|left; symmetry; exact H].
  destruct (Routes.foreign d u) eqn:Ef; [left; symmetry; exact H|].
  right. exists t, fl0. split; [exact (owned_task _ _ _ _ _ Et Ed Ef)|]. auto.
Qed.

Lemma serve_outcome (e : Event) (s : Store) :
  serve e s = s
  \/ exists u, user e = Some u
               /\ authorized s u (request e)
               /\ outcome_of u (at_time e) (request e) s (serve e s).
Proof.
  enough (forall s', serve e s = s' ->
            s' = s \/ exists u, user e = Some u
                                /\ authorized s u (request e)
                                /\ outcome_of u (at_time e) (request e) s s')
    as Hgen by (apply Hgen; reflexivity).
  intros s' H. unfold serve, respond in H.
  destruct e as [[u|] now r f]; cbn [user at_time request failure] in *;
    [|left; destruct r; symmetry; exact H].
  destruct r as [body|id body|id|id body|id body|id|id body|id body|id|id];
    cbn [Routes.handle] in H.
  - unfold Routes.POST_api_devices in H. rewrite after_then_ret in H.
    unfold DatabaseStorage.createDevice in H.
    match type of H with context [Sql.encode ?p] =>
      destruct (Sql.encode p) as [v|err] eqn:Ev end; [|left; symmetry; exact H].
    destruct (after_query (Sql.insert_devices v now) (mkWorld s f)) as [E|E];
      rewrite E in H; [left; symmetry; exact H|].
    right. exists u. split; [reflexivity|]. split; [exact I|].
    exists v. split; [exact Ev | symmetry; exact H].
  - unfold Routes.PUT_api_devices_id in H.
    pass_device_guard H s f id u Ed Ef.
    rewrite after_then_ret in H. unfold DatabaseStorage.updateDevice in H.
    match type of H with context [Sql.encode ?p] =>
      destruct (Sql.encode p) as [v|err] eqn:Ev end; [|left; symmetry; exact H].
    rewrite after_then_ret in H.
    destruct (after_query (Sql.update_devices v id) (mkWorld s fl)) as [E'|E'];
      rewrite E' in H; [left; symmetry; exact H|].
    right. exists u. split; [reflexivity|].
    split; [exact (owned_device _ _ _ _ Ed Ef)|].
    exists v. split; [exact Ev | symmetry; exact H].
  - unfold Routes.DELETE_api_devices_id in H.
    pass_device_guard H s f id u Ed Ef.
    rewrite after_then_ret in H.
    destruct (deleteDevice_any id (mkWorld s fl)) as (k & Ek). rewrite Ek in H.
    right. exists u. split; [reflexivity|].
    split; [exact (owned_device _ _ _ _ Ed Ef)|].
    exists k. symmetry; exact H.
  - unfold Routes.POST_api_devices_id_consumables in H.
    pass_device_guard H s f id u Ed Ef.
    rewrite after_then_ret in H. unfold DatabaseStorage.createConsumable in H.
    destruct (Sql.encodeConsumable _) as [v|err] eqn:Ev; [|left; symmetry; exact H].
    match type of H with context [query ?q ?w0] =>
      destruct (after_query q w0) as [E'|E'] end;
      rewrite E' in H; [left; symmetry; exact H|].
    right. exists u. split; [reflexivity|].
    split; [exact (owned_device _ _ _ _ Ed Ef)|].
    exists v. split; [exact Ev | symmetry; exact H].
  - unfold Routes.PUT_api_consumables_id in H.
    peel H (getConsumable_cases id (mkWorld s f)).
    destruct (consumable_of s id) as [c|] eqn:Ec; [|left; symmetry; exact H].
    peel H (getDevice_cases (Consumable.deviceId c) (mkWorld s fl)).
    destruct (device_of s (Consumable.deviceId c)) as [d|] eqn:Ed;
      [|left; symmetry; exact H].
    destruct (Routes.foreign d u) eqn:Ef; [left; symmetry; exact H|].
    rewrite after_try_catch_ret, after_then_ret in H.
    unfold DatabaseStorage.updateConsumable in H.
    destruct (PartialConsumable.has_values body); [|left; symmetry; exact H].
    destruct (Sql.encodeConsumable _) as [v|err] eqn:Ev; [|left; symmetry; exact H].
    rewrite after_then_ret in H.
    match type of H with context [query ?q ?w0] =>
      destruct (after_query q w0) as [E'|E'] end;
      rewrite E' in H; [left; symmetry; exact H|].
    right. exists u. split; [reflexivity|].
    split; [exact (owned_consumable _ _ _ _ _ Ec Ed Ef)|].
    exists v. split; [exact Ev | symmetry; exact H].
  - unfold Routes.DELETE_api_consumables_id in H.
    peel H (getConsumable_cases id (mkWorld s f)).
    destruct (consumable_of s id) as [c|] eqn:Ec; [|left; symmetry; exact H].
    peel H (getDevice_cases (Consumable.deviceId c) (mkWorld s fl)).
    destruct (device_of s (Consumable.deviceId c)) as [d|] eqn:Ed;
      [|left; symmetry; exact H].
    destruct (Routes.foreign d u) eqn:Ef; [left; symmetry; exact H|].
    rewrite after_try_catch_ret, after_then_ret in H.
    unfold DatabaseStorage.deleteConsumable in H.
    match type of H with context [query ?q ?w0] =>
      destruct (after_query q w0) as [E'|E'] end;
      rewrite E' in H; [left; symmetry; exact H|].
    right. exists u. split; [reflexivity|].
    split; [exact (owned_consumable _ _ _ _ _ Ec Ed Ef)|]. symmetry; exact H.
  - unfold Routes.POST_api_devices_id_tasks in H.
    pass_device_guard H s f id u Ed Ef.
    rewrite after_then_ret in H. unfold DatabaseStorage.createTask in H.
    destruct (Sql.encodeTask _) as [v|err] eqn:Ev; [|left; symmetry; exact H].
    match type of H with context [query ?q ?w0] =>
      destruct (after_query q w0) as [E'|E'] end;
      rewrite E' in H; [left; symmetry; exact H|].
    right. exists u. split; [reflexivity|].
    split; [exact (owned_device _ _ _ _ Ed Ef)|].
    exists v. split; [exact Ev | symmetry; exact H].
  - unfold Routes.PUT_api_tasks_id in H.
    apply with_owned_task_outcome in H.
    destruct H as [H|(t & fl & Ha & Et & H)]; [now left|].
    rewrite after_then_ret in H. unfold DatabaseStorage.updateTask in H.
    destruct (PartialTask.has_values body); [|left; symmetry; exact H].
    destruct (Sql.encodeTask _) as [v|err] eqn:Ev; [|left; symmetry; exact H].
    rewrite after_then_ret, (task_of_id _ _ _ Et) in H.
    match type of H with context [query ?q ?w0] =>
      destruct (after_query q w0) as [E'|E'] end;
      rewrite E' in H; [left; symmetry; exact H|].
    right. exists u. split; [reflexivity|]. split; [exact Ha|].
    exists v. split; [exact Ev | symmetry; exact H].
  - unfold Routes.POST_api_tasks_id_complete in H.
    apply with_owned_task_outcome in H.
    destruct H as [H|(t & fl & Ha & Et & H)]; [now left|].
    rewrite after_then_ret in H. unfold DatabaseStorage.completeTask in H.
    rewrite after_then_ret, (task_of_id _ _ _ Et) in H.
    match type of H with context [query ?q ?w0] =>
      destruct (after_query q w0) as [E'|E'] end;
      rewrite E' in H; [left; symmetry; exact H|].
    right. exists u. split; [reflexivity|]. split; [exact Ha|]. symmetry; exact H.
  - unfold Routes.DELETE_api_tasks_id in H.
    apply with_owned_task_outcome in H.
    destruct H as [H|(t & fl & Ha & Et & H)]; [now left|].
    rewrite after_then_ret in H. unfold DatabaseStorage.deleteTask in H.
    rewrite (task_of_id _ _ _ Et) in H.
    match type of H with context [query ?q ?w0] =>
      destruct (after_query q w0) as [E'|E'] end;
      rewrite E' in H; [left; symmetry; exact H|].
    right. exists u. split; [reflexivity|]. split; [exact Ha|]. symmetry; exact H.
Qed.

(** X6.  A request changes the store only when it comes from an
    authenticated user and, unless it creates a device, has passed the
    ownership check of its route: the device in the path, or the device
    of the consumable or task in the path, exists and is the user's.
    This holds whatever the body carries and whichever statement the
    database fails. *)
Theorem changes_are_authorized (e : Event) (s : Store) :
  serve e s <> s ->
  exists u, user e = Some u /\ authorized s u (request e).
Proof.
  intros H. destruct (serve_outcome e s) as [E|(u & Hu & Ha & _)]; [contradiction|].
  exists u. auto.
Qed.

Lemma changes_are_authorized_witness :
  serve (Sample.by_alice 5 (Routes.DeleteTask 1)) Sample.home <> Sample.home
  /\ exists u, user (Sample.by_alice 5 (Routes.DeleteTask 1)) = Some u
               /\ authorized Sample.home u (Routes.DeleteTask 1).
Proof.
  assert (H : serve (Sample.by_alice 5 (Routes.DeleteTask 1)) Sample.home <> Sample.home).
  { intros E. apply (f_equal maintenanceTasks) in E. vm_compute in E. discriminate. }
  split; [exact H|].
  exact (changes_are_authorized (Sample.by_alice 5 (Routes.DeleteTask 1)) Sample.home H).
Defined.

(** ** Other users' rows *)

Lemma NoDup_map_same {A B : Type} (f : A -> B) (l : list A) (a b : A) :
  NoDup (map f l) -> In a l -> In b l -> f a = f b -> a = b.
Proof.
  induction l as [|x l IH]; simpl; intros Hn Ha Hb E; [destruct Ha|].
  inversion Hn as [|? ? Hx Hn']; subst.
  destruct Ha as [<-|Ha], Hb as [<-|Hb]; auto.
  - exfalso. apply Hx. rewrite E. now apply in_map.
  - exfalso. apply Hx. rewrite <- E. now apply in_map.
Qed.

Lemma cascade_prefix_cases k id s :
  apply_all (firstn k (cascade id)) s = s
  \/ apply_all (firstn k (cascade id)) s = Sql.delete_consumables_deviceId id s
  \/ apply_all (firstn k (cascade id)) s
     = Sql.delete_maintenanceTasks_deviceId id (Sql.delete_consumables_deviceId id s)
  \/ apply_all (firstn k (cascade id)) s = apply_all (cascade id) s.
Proof.
  destruct k as [|[|[|k]]]; auto.
  right. right. right. unfold cascade. simpl firstn. now rewrite firstn_nil.
Qed.

Lemma in_rewritten_kept {A : Type} (hit : A -> bool) (f : A -> A) (rows : list A)
    (x : A) :
  In x rows -> hit x = false -> In x (Sql.rewritten hit f rows).
Proof. intros H E. apply in_rewritten. now left. Qed.

Lemma device_access_owned s u id :
  device_access s u id = Owned ->
  exists d, device_of s id = Some d /\ In d (devices s)
            /\ Device.id d = id /\ Device.userId d = User.id u.
Proof.
  unfold device_access. destruct (device_of s id) as [d|] eqn:E; [|discriminate].
  destruct (Routes.foreign d u) eqn:F; [discriminate|]. intros _.
  exists d. split; [reflexivity|].
  destruct (first_filter_sound _ _ _ E) as [Hi Hin]. apply Z.eqb_eq in Hi.
  unfold Routes.foreign in F. apply negb_false_iff, Z.eqb_eq in F. auto.
Qed.

Lemma task_access_owned s u id :
  task_access s u id = Owned ->
  exists t, task_of s id = Some t /\ In t (maintenanceTasks s)
            /\ MaintenanceTask.id t = id
            /\ device_access s u (MaintenanceTask.deviceId t) = Owned.
Proof.
  unfold task_access. destruct (task_of s id) as [t|] eqn:E; [|discriminate].
  destruct (device_access s u (MaintenanceTask.deviceId t)) eqn:Ea; try discriminate.
  intros _. exists t. split; [reflexivity|].
  destruct (first_filter_sound _ _ _ E) as [Hi Hin]. apply Z.eqb_eq in Hi. auto.
Qed.

Lemma consumable_access_owned s u id :
  consumable_access s u id = Owned ->
  exists c, consumable_of s id = Some c /\ In c (consumables s)
            /\ Consumable.id c = id
            /\ device_access s u (Consumable.deviceId c) = Owned.
Proof.
  unfold consumable_access. destruct (consumable_of s id) as [c|] eqn:E; [|discriminate].
  destruct (device_access s u (Consumable.deviceId c)) eqn:Ea; try discriminate.
  intros _. exists c. split; [reflexivity|].
  destruct (first_filter_sound _ _ _ E) as [Hi Hin]. apply Z.eqb_eq in Hi. auto.
Qed.

(** X7.  Where task ids are unique, a request of a user leaves every
    task that is not under one of this user's devices in the store and
    unchanged: whatever the body carries and whatever the database
    does, nobody updates, completes or deletes a task of somebody
    else's device. *)
Theorem foreign_tasks_untouched (e : Event) (s : Store) (u : User.t)
    (t : MaintenanceTask.t) :
  user e = Some u ->
  NoDup (map MaintenanceTask.id (maintenanceTasks s)) ->
  In t (maintenanceTasks s) ->
  device_access s u (MaintenanceTask.deviceId t) <> Owned ->
  In t (maintenanceTasks (serve e s)).
Proof.
  intros Hu Hn Ht Hf.
  destruct (serve_outcome e s) as [E|(u' & Hu' & Ha & Ho)]; [now rewrite E|].
  assert (u' = u) by congruence. subst u'.
  assert (Hother : forall i, task_access s u i = Owned -> MaintenanceTask.id t <> i).
  { intros i Hi Eid. destruct (task_access_owned _ _ _ Hi) as (t0 & _ & H0 & Hid & Hd).
    assert (t = t0) by (apply (NoDup_map_same MaintenanceTask.id _ _ _ Hn Ht H0); congruence).
    subst t0. contradiction. }
  assert (Hupd : forall v i, task_access s u i = Owned ->
            In t (maintenanceTasks (snd (Sql.update_maintenanceTasks v i s)))).
  { intros v i Hi.
    destruct (update_maintenanceTasks_effect v i s) as (_ & _ & [E|E]); rewrite E; auto.
    apply in_rewritten_kept; auto.
    apply Z.eqb_neq. now apply Hother. }
  destruct (request e) as [body|id body|id|id body|id body|id|id body|id body|id|id];
    simpl in Ha, Ho.
  - destruct Ho as (v & _ & ->).
    destruct (insert_devices_effect v (at_time e) s) as (_ & E & _). now rewrite E.
  - destruct Ho as (v & _ & ->).
    destruct (update_devices_effect v id s) as (_ & E & _). now rewrite E.
  - destruct Ho as (k & ->).
    destruct (cascade_prefix_cases k id s) as [E|[E|[E|E]]]; rewrite E; simpl; auto;
      apply filter_In; (split; [exact Ht|]);
      apply negb_true_iff, Z.eqb_neq; intros Eid; apply Hf; now rewrite Eid.
  - destruct Ho as (v & _ & ->).
    destruct (insert_consumables_effect v (at_time e) s) as (_ & E & _). now rewrite E.
  - destruct Ho as (v & _ & ->).
    destruct (update_consumables_effect v id s) as (_ & E & _). now rewrite E.
  - rewrite Ho. exact Ht.
  - destruct Ho as (v & _ & ->).
    destruct (insert_maintenanceTasks_effect v (at_time e) s)
      as (_ & _ & [E|(row & E & _)]); rewrite E; auto.
    apply in_or_app. now left.
  - destruct Ho as (v & _ & ->). now apply Hupd.
  - rewrite Ho. now apply Hupd.
  - rewrite Ho. simpl. apply filter_In. split; [exact Ht|].
    apply negb_true_iff, Z.eqb_neq. now apply Hother.
Qed.

Lemma foreign_tasks_untouched_witness :
  user (Sample.by_alice 5 (Routes.PutTask 2 Sample.ticked)) = Some Sample.alice
  /\ NoDup (map MaintenanceTask.id (maintenanceTasks Sample.home))
  /\ In Sample.bleed (maintenanceTasks Sample.home)
  /\ device_access Sample.home Sample.alice (MaintenanceTask.deviceId Sample.bleed) <> Owned
  /\ In Sample.bleed
        (maintenanceTasks (serve (Sample.by_alice 5 (Routes.PutTask 2 Sample.ticked))
                                 Sample.home)).
Proof.
  assert (Hn : NoDup (map MaintenanceTask.id (maintenanceTasks Sample.home))).
  { simpl. repeat constructor; simpl; intuition discriminate. }
  assert (Ht : In Sample.bleed (maintenanceTasks Sample.home)) by (simpl; auto).
  assert (Hf : device_access Sample.home Sample.alice
                 (MaintenanceTask.deviceId Sample.bleed) <> Owned) by discriminate.
  split; [reflexivity|]. split; [exact Hn|]. split; [exact Ht|]. split; [exact Hf|].
  exact (foreign_tasks_untouched (Sample.by_alice 5 (Routes.PutTask 2 Sample.ticked))
           Sample.home Sample.alice Sample.bleed eq_refl Hn Ht Hf).
Defined.

(** X8.  Where consumable ids are unique, a request of a user leaves
    every consumable that is not under one of this user's devices in the
    store and unchanged. *)
Theorem foreign_consumables_untouched (e : Event) (s : Store) (u : User.t)
    (c : Consumable.t) :
  user e = Some u ->
  NoDup (map Consumable.id (consumables s)) ->
  In c (consumables s) ->
  device_access s u (Consumable.deviceId c) <> Owned ->
  In c (consumables (serve e s)).
Proof.
  intros Hu Hn Hc Hf.
  destruct (serve_outcome e s) as [E|(u' & Hu' & Ha & Ho)]; [now rewrite E|].
  assert (u' = u) by congruence. subst u'.
  assert (Hother : forall i, consumable_access s u i = Owned -> Consumable.id c <> i).
  { intros i Hi Eid.
    destruct (consumable_access_owned _ _ _ Hi) as (c0 & _ & H0 & Hid & Hd).
    assert (c = c0) by (apply (NoDup_map_same Consumable.id _ _ _ Hn Hc H0); congruence).
    subst c0. contradiction. }
  destruct (request e) as [body|id body|id|id body|id body|id|id body|id body|id|id];
    simpl in Ha, Ho.
  - destruct Ho as (v & _ & ->).
    destruct (insert_devices_effect v (at_time e) s) as (E & _). now rewrite E.
  - destruct Ho as (v & _ & ->).
    destruct (update_devices_effect v id s) as (E & _). now rewrite E.
  - destruct Ho as (k & ->).
    destruct (cascade_prefix_cases k id s) as [E|[E|[E|E]]]; rewrite E; simpl; auto;
      apply filter_In; (split; [exact Hc|]);
      apply negb_true_iff, Z.eqb_neq; intros Eid; apply Hf; now rewrite Eid.
  - destruct Ho as (v & _ & ->).
    destruct (insert_consumables_effect v (at_time e) s)
      as (_ & _ & [E|(row & E & _)]); rewrite E; auto.
    apply in_or_app. now left.
  - destruct Ho as (v & _ & ->).
    destruct (update_consumables_effect v id s) as (_ & _ & [E|E]); rewrite E; auto.
    apply in_rewritten_kept; auto.
    apply Z.eqb_neq. now apply Hother.
  - rewrite Ho. simpl. apply filter_In. split; [exact Hc|].
    apply negb_true_iff, Z.eqb_neq. now apply Hother.
  - destruct Ho as (v & _ & ->).
    destruct (insert_maintenanceTasks_effect v (at_time e) s) as (_ & E & _).
    now rewrite E.
  - destruct Ho as (v & _ & ->).
    destruct (update_maintenanceTasks_effect v id s) as (_ & E & _).
    now rewrite E.
  - rewrite Ho. destruct (update_maintenanceTasks_effect
                       (PartialTask.completion (at_time e) (User.id u) (User.username u))
                       id s) as (_ & E & _).
    now rewrite E.
  - rewrite Ho. exact Hc.
Qed.

Lemma foreign_consumables_untouched_witness :
  user (Sample.by_alice 5 (Routes.DeleteConsumable 2)) = Some Sample.alice
  /\ NoDup (map Consumable.id (consumables Sample.home))
  /\ In Sample.gasket (consumables Sample.home)
  /\ device_access Sample.home Sample.alice (Consumable.deviceId Sample.gasket) <> Owned
  /\ In Sample.gasket
        (consumables (serve (Sample.by_alice 5 (Routes.DeleteConsumable 2)) Sample.home)).
Proof.
  assert (Hn : NoDup (map Consumable.id (consumables Sample.home))).
  { simpl. repeat constructor; simpl; intuition discriminate. }
  assert (Hc : In Sample.gasket (consumables Sample.home)) by (simpl; auto).
  assert (Hf : device_access Sample.home Sample.alice
                 (Consumable.deviceId Sample.gasket) <> Owned) by discriminate.
  split; [reflexivity|]. split; [exact Hn|]. split; [exact Hc|]. split; [exact Hf|].
  exact (foreign_consumables_untouched (Sample.by_alice 5 (Routes.DeleteConsumable 2))
           Sample.home Sample.alice Sample.gasket eq_refl Hn Hc Hf).
Defined.

(** X9.  Where device ids are unique, a request of a user leaves every
    device of another user in the store and unchanged: nobody updates
    or deletes somebody else's device. *)
Theorem foreign_devices_untouched (e : Event) (s : Store) (u : User.t) (d : Device.t) :
  user e = Some u ->
  NoDup (map Device.id (devices s)) ->
  In d (devices s) ->
  Device.userId d <> User.id u ->
  In d (devices (serve e s)).
Proof.
  intros Hu Hn Hd Hf.
  destruct (serve_outcome e s) as [E|(u' & Hu' & Ha & Ho)]; [now rewrite E|].
  assert (u' = u) by congruence. subst u'.
  assert (Hother : forall i, device_access s u i = Owned -> Device.id d <> i).
  { intros i Hi Eid. destruct (device_access_owned _ _ _ Hi) as (d0 & _ & H0 & Hid & Ho0).
    assert (d = d0) by (apply (NoDup_map_same Device.id _ _ _ Hn Hd H0); congruence).
    subst d0. contradiction. }
  destruct (request e) as [body|id body|id|id body|id body|id|id body|id body|id|id];
    simpl in Ha, Ho.
  - destruct Ho as (v & _ & ->).
    destruct (insert_devices_effect v (at_time e) s) as (_ & _ & [E|(row & E & _)]);
      rewrite E; auto.
    apply in_or_app. now left.
  - destruct Ho as (v & _ & ->).
    destruct (update_devices_effect v id s) as (_ & _ & [E|E]); rewrite E; auto.
    apply in_rewritten_kept; auto.
    apply Z.eqb_neq. now apply Hother.
  - destruct Ho as (k & ->).
    destruct (cascade_prefix_cases k id s) as [E|[E|[E|E]]]; rewrite E; simpl; auto.
    apply filter_In. split; [exact Hd|].
    apply negb_true_iff, Z.eqb_neq. now apply Hother.
  - destruct Ho as (v & _ & ->).
    destruct (insert_consumables_effect v (at_time e) s) as (E & _). now rewrite E.
  - destruct Ho as (v & _ & ->).
    destruct (update_consumables_effect v id s) as (E & _). now rewrite E.
  - rewrite Ho. exact Hd.
  - destruct Ho as (v & _ & ->).
    destruct (insert_maintenanceTasks_effect v (at_time e) s) as (E & _). now rewrite E.
  - destruct Ho as (v & _ & ->).
    destruct (update_maintenanceTasks_effect v id s) as (E & _).
    now rewrite E.
  - rewrite Ho. destruct (update_maintenanceTasks_effect
                       (PartialTask.completion (at_time e) (User.id u) (User.username u))
                       id s) as (E & _).
    now rewrite E.
  - rewrite Ho. exact Hd.
Qed.

Lemma foreign_devices_untouched_witness :
  user (Sample.by_alice 5 (Routes.DeleteDevice 2)) = Some Sample.alice
  /\ NoDup (map Device.id (devices Sample.home))
  /\ In Sample.boiler (devices Sample.home)
  /\ Device.userId Sample.boiler <> User.id Sample.alice
  /\ In Sample.boiler
        (devices (serve (Sample.by_alice 5 (Routes.DeleteDevice 2)) Sample.home)).
Proof.
  assert (Hn : NoDup (map Device.id (devices Sample.home))).
  { simpl. repeat constructor; simpl; intuition discriminate. }
  assert (Hd : In Sample.boiler (devices Sample.home)) by (simpl; auto).
  assert (Hf : Device.userId Sample.boiler <> User.id Sample.alice) by discriminate.
  split; [reflexivity|]. split; [exact Hn|]. split; [exact Hd|]. split; [exact Hf|].
  exact (foreign_devices_untouched (Sample.by_alice 5 (Routes.DeleteDevice 2))
           Sample.home Sample.alice Sample.boiler eq_refl Hn Hd Hf).
Defined.

(** ** No row without its device *)

Lemma device_exists_same s s' i :
  devices s' = devices s -> device_exists s i -> device_exists s' i.
Proof. unfold device_exists. now intros ->. Qed.

Lemma device_exists_grown s s' row i :
  devices s' = devices s ++ [row] -> device_exists s i -> device_exists s' i.
Proof.
  unfold device_exists. intros -> (d & Hd & Hi). exists d.
  split; [apply in_or_app; now left | exact Hi].
Qed.

Lemma referential_tables s s' :
  (forall i, device_exists s i -> device_exists s' i) ->
  (forall c, In c (consumables s') ->
             In c (consumables s) \/ device_exists s' (Consumable.deviceId c)) ->
  (forall t, In t (maintenanceTasks s') ->
             In t (maintenanceTasks s) \/ device_exists s' (MaintenanceTask.deviceId t)) ->
  referential s -> referential s'.
Proof.
  intros Hd Hc Ht [Rc Rt]. split.
  - intros c H. destruct (Hc c H); auto.
  - intros t H. destruct (Ht t H); auto.
Qed.

Lemma referential_cascade k id s :
  referential s -> referential (apply_all (firstn k (cascade id)) s).
Proof.
  intros [Rc Rt].
  destruct (cascade_prefix_cases k id s) as [E|[E|[E|E]]]; rewrite E.
  - now split.
  - split; simpl; [intros c H; apply filter_In in H; now apply Rc | exact Rt].
  - split; simpl; [intros c H | intros t H]; apply filter_In in H;
      [now apply Rc | now apply Rt].
  - assert (Hkeep : forall i, i <> id -> device_exists s i ->
                              device_exists (apply_all (cascade id) s) i).
    { intros i Hi (d & Hd & <-). exists d. split; [|reflexivity].
      simpl. apply filter_In. split; [exact Hd|].
      now apply negb_true_iff, Z.eqb_neq. }
    split; simpl; [intros c H | intros t H]; apply filter_In in H; destruct H as [H Hn];
      apply negb_true_iff, Z.eqb_neq in Hn; apply Hkeep; auto.
Qed.

Lemma serve_referential e s :
  keeps_reference_keys e -> referential s -> referential (serve e s).
Proof.
  intros Hk Hr.
  destruct (serve_outcome e s) as [E|(u & Hu & Ha & Ho)]; [now rewrite E|].
  unfold keeps_reference_keys in Hk.
  destruct (request e) as [body|id body|id|id body|id body|id|id body|id body|id|id];
    simpl in Ha, Ho.
  - destruct Ho as (v & _ & ->).
    destruct (insert_devices_effect v (at_time e) s) as (Ec & Et & Ed).
    apply (referential_tables s); auto; try (rewrite ?Ec, ?Et; auto).
    intros i. destruct Ed as [Ed|(row & Ed & _)];
      [now apply device_exists_same | now apply (device_exists_grown _ _ row)].
  - destruct Ho as (v & Ev & ->).
    apply encode_keys in Ev. destruct Ev as [Ev _]. simpl in Ev.
    destruct (update_devices_effect v id s) as (Ec & Et & Ed).
    apply (referential_tables s); auto; try (rewrite ?Ec, ?Et; auto).
    intros i (d & Hd & Hi). destruct Ed as [Ed|Ed]; unfold device_exists; rewrite Ed.
    + eauto.
    + destruct (Device.id d =? id) eqn:Eh.
      * exists (Sql.set_device v d). split.
        -- apply in_rewritten. right. exists d. auto.
        -- simpl. now rewrite Ev, Hk.
      * exists d. split; [now apply in_rewritten_kept | exact Hi].
  - destruct Ho as (k & ->). now apply referential_cascade.
  - destruct Ho as (v & Ev & ->).
    apply encodeConsumable_keys in Ev. destruct Ev as (_ & Ev & _). simpl in Ev.
    destruct (insert_consumables_effect v (at_time e) s) as (Ed & Et & Ec).
    apply (referential_tables s); auto; try (rewrite ?Ed, ?Et; auto).
    + intros i. now apply device_exists_same.
    + intros c. destruct Ec as [Ec|(row & Ec & _ & Hrow)]; rewrite Ec; auto.
      rewrite in_app_iff. intros [H|[<-|[]]]; auto. right.
      apply (device_exists_same s); auto.
      destruct (device_access_owned _ _ _ Ha) as (d & _ & Hd & Hi & _).
      exists d. split; [exact Hd|]. congruence.
  - destruct Ho as (v & Ev & ->).
    apply encodeConsumable_keys in Ev. destruct Ev as (_ & Ev & _).
    destruct (update_consumables_effect v id s) as (Ed & Et & Ec).
    apply (referential_tables s); auto; try (rewrite ?Ed, ?Et; auto).
    + intros i. now apply device_exists_same.
    + intros c. destruct Ec as [Ec|Ec]; rewrite Ec; auto.
      rewrite in_rewritten. intros [[H0 _]|(c0 & H0 & _ & ->)]; auto. right.
      apply (device_exists_same s); auto.
      destruct Hr as [Rc _].
      simpl. rewrite Ev, Hk. simpl. now apply Rc.
  - rewrite Ho. apply (referential_tables s); auto; simpl; auto.
    intros c H. apply filter_In in H. now left.
  - destruct Ho as (v & Ev & ->).
    apply encodeTask_keys in Ev. destruct Ev as (_ & Ev & _). simpl in Ev.
    destruct (insert_maintenanceTasks_effect v (at_time e) s) as (Ed & Ec & Et).
    apply (referential_tables s); auto; try (rewrite ?Ed, ?Ec; auto).
    + intros i. now apply device_exists_same.
    + intros t. destruct Et as [Et|(row & Et & _ & Hrow & _)]; rewrite Et; auto.
      rewrite in_app_iff. intros [H|[<-|[]]]; auto. right.
      apply (device_exists_same s); auto.
      destruct (device_access_owned _ _ _ Ha) as (d & _ & Hd & Hi & _).
      exists d. split; [exact Hd|]. congruence.
  - destruct Ho as (v & Ev & ->).
    apply encodeTask_keys in Ev. destruct Ev as (_ & Ev & _).
    destruct (update_maintenanceTasks_effect v id s) as (Ed & Ec & Et).
    apply (referential_tables s); auto; try (rewrite ?Ed, ?Ec; auto).
    + intros i. now apply device_exists_same.
    + intros t. destruct Et as [Et|Et]; rewrite Et; auto.
      rewrite in_rewritten. intros [[H0 _]|(t0 & H0 & _ & ->)]; auto. right.
      apply (device_exists_same s); auto.
      destruct Hr as [_ Rt].
      simpl. rewrite Ev, Hk. simpl. now apply Rt.
  - rewrite Ho.
    destruct (update_maintenanceTasks_effect
                (PartialTask.completion (at_time e) (User.id u) (User.username u)) id s)
      as (Ed & Ec & Et).
    apply (referential_tables s); auto; try (rewrite ?Ed, ?Ec; auto).
    + intros i. now apply device_exists_same.
    + intros t. destruct Et as [Et|Et]; rewrite Et; auto.
      rewrite in_rewritten. intros [[H0 _]|(t0 & H0 & _ & ->)]; auto. right.
      apply (device_exists_same s); auto.
      destruct Hr as [_ Rt].
      simpl. now apply Rt.
  - rewrite Ho. apply (referential_tables s); auto; simpl; auto.
    intros t H. apply filter_In in H. now left.
Qed.

(** X10.  No consumable and no task is ever left without its device.
    From a store in which every consumable and every task is under an
    existing device, every sequence of requests whose updates do not
    renumber a device or move a consumable or a task leads to such a
    store again, whichever statements the database fails on the way: a
    row is created only under a device that exists, and [deleteDevice]
    removes the device last, so that stopping it early leaves the
    device in place. *)
Theorem no_orphans (es : list Event) (s : Store) :
  referential s -> Forall keeps_reference_keys es -> referential (run es s).
Proof.
  revert s. induction es as [|e es IH]; intros s Hs Hes; simpl; [exact Hs|].
  inversion Hes as [|? ? He Hes']; subst.
  apply IH; [|exact Hes']. now apply serve_referential.
Qed.

Lemma sample_home_referential : referential Sample.home.
Proof.
  split.
  - intros c [<-|[<-|[]]]; [exists Sample.washer | exists Sample.boiler];
      simpl; auto.
  - intros t [<-|[<-|[]]]; [exists Sample.washer | exists Sample.boiler];
      simpl; auto.
Qed.

Lemma no_orphans_witness :
  referential Sample.home
  /\ Forall keeps_reference_keys
       [Sample.by_alice 10 (Routes.PostTask 1 Sample.renamed);
        mkEvent (Some Sample.alice) 20 (Routes.DeleteDevice 1) (Some 2%nat)]
  /\ referential
       (run [Sample.by_alice 10 (Routes.PostTask 1 Sample.renamed);
             mkEvent (Some Sample.alice) 20 (Routes.DeleteDevice 1) (Some 2%nat)]
            Sample.home).
Proof.
  assert (H : Forall keeps_reference_keys
                [Sample.by_alice 10 (Routes.PostTask 1 Sample.renamed);
                 mkEvent (Some Sample.alice) 20 (Routes.DeleteDevice 1) (Some 2%nat)]).
  { repeat constructor. }
  split; [exact sample_home_referential|]. split; [exact H|].
  exact (no_orphans _ _ sample_home_referential H).
Defined.

(** ** Writing and reading back *)

Lemma filter_map_same {A : Type} (p : A -> bool) (f : A -> A) (l : list A) :
  (forall x, p (f x) = p x) -> filter p (map f l) = map f (filter p l).
Proof.
  intros H. induction l as [|x l IH]; simpl; auto.
  rewrite H. destruct (p x); simpl; now rewrite IH.
Qed.

Lemma filter_none {A : Type} (p : A -> bool) (l : list A) :
  existsb p l = false -> filter p l = [].
Proof.
  induction l as [|x l IH]; simpl; auto.
  destruct (p x); simpl; [discriminate | exact IH].
Qed.

Lemma filter_again {A : Type} (p : A -> bool) (l : list A) :
  filter p (filter p l) = filter p l.
Proof.
  induction l as [|x l IH]; simpl; auto.
  destruct (p x) eqn:E; simpl; [rewrite E|]; congruence.
Qed.

(** Selecting by the key that an update has selected by returns the
    rewritten rows, when the update leaves that key alone. *)
Lemma select_rewritten {A : Type} (p : A -> bool) (f : A -> A) (rows : list A) :
  (forall x, p (f x) = p x) ->
  filter p (Sql.rewritten p f rows) = map f (filter p rows).
Proof.
  intros H. unfold Sql.rewritten.
  rewrite filter_app, filter_out_selects, filter_map_same by exact H.
  now rewrite filter_again.
Qed.

Lemma update_maintenanceTasks_read v i s t :
  Sql.maintenanceTasks_params v = None ->
  Sql.null_key (PartialTask.created_at v) = false ->
  PartialTask.id v = None ->
  Sql.dangling_user s (PartialTask.completedBy v) = false ->
  task_of s i = Some t ->
  exists s',
    Sql.update_maintenanceTasks v i s
    = (Returned (map (Sql.set_task v) (Sql.select_maintenanceTasks_id i s)), s')
    /\ DatabaseStorage.first (map (Sql.set_task v) (Sql.select_maintenanceTasks_id i s))
       = Some (Sql.set_task v t)
    /\ task_of s' i = Some (Sql.set_task v t)
    /\ devices s' = devices s.
Proof.
  intros Hp Hn Hid Hu Ht.
  rewrite update_maintenanceTasks_accepted; auto; [|now rewrite Hid].
  eexists. split; [reflexivity|].
  assert (Hf : DatabaseStorage.first
                 (map (Sql.set_task v) (Sql.select_maintenanceTasks_id i s))
               = Some (Sql.set_task v t)).
  { unfold task_of in Ht.
    destruct (Sql.select_maintenanceTasks_id i s); [discriminate|].
    injection Ht as ->. reflexivity. }
  split; [exact Hf|]. split; [|reflexivity].
  unfold task_of, Sql.select_maintenanceTasks_id in *.
  cbn [maintenanceTasks with_maintenanceTasks].
  rewrite select_rewritten; [exact Hf|].
  intros x. simpl. now rewrite Hid.
Qed.

Lemma with_owned_task_reliable s u id k :
  task_access s u id = Owned ->
  exists t, task_of s id = Some t
            /\ Routes.with_owned_task u id k (reliable s) = k t (reliable s).
Proof.
  intros Ha. unfold task_access in Ha.
  destruct (task_of s id) as [t|] eqn:Et; [|discriminate].
  unfold device_access in Ha.
  destruct (device_of s (MaintenanceTask.deviceId t)) as [d|] eqn:Ed; [|discriminate].
  destruct (Routes.foreign d u) eqn:Ef; [discriminate|].
  exists t. split; [reflexivity|].
  unfold Routes.with_owned_task. read_reliable. rewrite Et. read_reliable.
  now rewrite Ed, Ef.
Qed.

(** X11.  Completing a task one owns, the session's user being a stored
    user and the database answering, is answered 200 with the task as
    it then is: [lastCompleted] is the instant of the request,
    [isCompleted] is true, [completedBy] and [completedByUsername] are
    the id and the name of the session's user, and every other field is
    as before; reading the task back returns the same.  With a
    non-negative interval the task is, at that instant, not overdue on
    the dashboard of a zone without clock changes. *)
Theorem complete_is_read_back (s : Store) (u : User.t) (id : Z) (now : Timestamp) :
  task_access s u id = Owned ->
  Sql.user_exists s (User.id u) = true ->
  exists t s',
    task_of s id = Some t
    /\ Routes.POST_api_tasks_id_complete (Some u) id now (reliable s)
       = (Returned
            (Routes.Json 200
               (Routes.TaskBody
                  (Some (MaintenanceTask.mk
                           (MaintenanceTask.id t) (MaintenanceTask.deviceId t)
                           (MaintenanceTask.name t) (MaintenanceTask.description t)
                           (MaintenanceTask.intervalDays t)
                           (Some now) (Some true) (Some (User.id u))
                           (Some (User.username u))
                           (MaintenanceTask.created_at t))))),
          reliable s')
    /\ DatabaseStorage.getTask id (reliable s')
       = (Returned
            (Some (MaintenanceTask.mk
                     (MaintenanceTask.id t) (MaintenanceTask.deviceId t)
                     (MaintenanceTask.name t) (MaintenanceTask.description t)
                     (MaintenanceTask.intervalDays t)
                     (Some now) (Some true) (Some (User.id u))
                     (Some (User.username u))
                     (MaintenanceTask.created_at t))),
          reliable s')
    /\ (0 <= MaintenanceTask.intervalDays t ->
        isOverdue addDaysUTC now
          (MaintenanceTask.mk
             (MaintenanceTask.id t) (MaintenanceTask.deviceId t)
             (MaintenanceTask.name t) (MaintenanceTask.description t)
             (MaintenanceTask.intervalDays t)
             (Some now) (Some true) (Some (User.id u))
             (Some (User.username u))
             (MaintenanceTask.created_at t))
        = false).
Proof.
  intros Ha Hu.
  destruct (with_owned_task_reliable s u id
              (fun task =>
                 bind (DatabaseStorage.completeTask (MaintenanceTask.id task) (User.id u)
                         (User.username u) now)
                      (fun updated => ret (Routes.Json 200 (Routes.TaskBody updated))))
              Ha) as (t & Et & Er).
  destruct (update_maintenanceTasks_read
              (PartialTask.completion now (User.id u) (User.username u)) id s t)
    as (s' & Eu & Ef & Et' & _); auto.
  { simpl. now rewrite Hu. }
  exists t, s'. split; [exact Et|]. split; [|split].
  - unfold Routes.POST_api_tasks_id_complete. rewrite Er.
    unfold DatabaseStorage.completeTask, bind. rewrite (task_of_id _ _ _ Et).
    rewrite query_reliable, Eu. cbn [fst snd ret]. rewrite Ef.
    rewrite <- (task_of_id _ _ _ Et). reflexivity.
  - rewrite getTask_reliable, Et'. reflexivity.
  - intros Hn. unfold isOverdue; simpl.
    destruct (nextDueDate addDaysUTC now _) as [due|] eqn:Edue; [|reflexivity].
    unfold nextDueDate, timeClip in Edue. simpl in Edue.
    destruct (Z.abs now <=? maxTime); [|discriminate].
    destruct (Z.abs _ <=? maxTime); [|discriminate].
    injection Edue as <-. unfold isBefore, addDaysUTC.
    apply Z.ltb_ge. nia.
Qed.

Lemma complete_is_read_back_witness :
  task_access Sample.home Sample.alice 1 = Owned
  /\ Sql.user_exists Sample.home (User.id Sample.alice) = true
  /\ exists t s',
       task_of Sample.home 1 = Some t
       /\ fst (Routes.POST_api_tasks_id_complete (Some Sample.alice) 1 50
                 (reliable Sample.home))
          = Returned
              (Routes.Json 200
                 (Routes.TaskBody
                    (Some (MaintenanceTask.mk
                             (MaintenanceTask.id t) (MaintenanceTask.deviceId t)
                             (MaintenanceTask.name t) (MaintenanceTask.description t)
                             (MaintenanceTask.intervalDays t)
                             (Some 50) (Some true) (Some 1) (Some "alice"%string)
                             (MaintenanceTask.created_at t)))))
       /\ db (snd (Routes.POST_api_tasks_id_complete (Some Sample.alice) 1 50
                     (reliable Sample.home))) = s'.
Proof.
  split; [reflexivity|]. split; [reflexivity|].
  destruct (complete_is_read_back Sample.home Sample.alice 1 50 eq_refl eq_refl)
    as (t & s' & Et & Er & _).
  exists t, s'. split; [exact Et|]. now rewrite Er.
Defined.




(** What a generic update cannot write: a payload without keys is
    refused before any statement is sent, and so is one whose
    [lastCompleted] is a date string; the route sends no response and
    the store stays as it was. *)
Example update_refused :
  Routes.PUT_api_tasks_id (Some Sample.alice) 1 PartialTask.empty (reliable Sample.home)
  = (Threw NoValuesToSet, reliable Sample.home)
  /\ Routes.PUT_api_tasks_id (Some Sample.alice) 1
       (PartialTask.mk None None None None None
          (Some (JStr "2024-01-01T00:00:00.000Z" (Some 1704067200000)))
          None None None None)
       (reliable Sample.home)
     = (Threw TypeError, reliable Sample.home).
Proof. split; reflexivity. Qed.

Lemma first_appended {A : Type} (p : A -> bool) (l : list A) (x : A) :
  existsb p l = false -> p x = true ->
  DatabaseStorage.first (filter p (l ++ [x])) = Some x.
Proof.
  intros Hl Hx. rewrite filter_app, (filter_none _ _ Hl). simpl. now rewrite Hx.
Qed.

Lemma insert_devices_returned v now s row :
  fst (Sql.insert_devices v now s) = Returned row ->
  devices (snd (Sql.insert_devices v now s)) = devices s ++ [row]
  /\ existsb (fun d => Device.id d =? Device.id row) (devices s) = false
  /\ PartialDevice.userId v = Some (Device.userId row).
Proof.
  unfold Sql.insert_devices.
  destruct (Sql.devices_params v); [discriminate|].
  destruct (PartialDevice.id v), (PartialDevice.name v), (PartialDevice.userId v);
    simpl; try discriminate;
    destruct (Sql.null_key _ || Sql.null_key _); simpl; try discriminate;
    destruct (negb (Sql.int4 _)); simpl; try discriminate;
    match goal with |- context [existsb ?p ?l] => destruct (existsb p l) eqn:E end;
    simpl; try discriminate; intros [= <-]; simpl; auto.
Qed.

Lemma insert_consumables_returned v now s row :
  fst (Sql.insert_consumables v now s) = Returned row ->
  consumables (snd (Sql.insert_consumables v now s)) = consumables s ++ [row]
  /\ existsb (fun c => Consumable.id c =? Consumable.id row) (consumables s) = false
  /\ PartialConsumable.deviceId v = Some (Consumable.deviceId row).
Proof.
  unfold Sql.insert_consumables.
  destruct (Sql.consumables_params v); [discriminate|].
  destruct (PartialConsumable.id v), (PartialConsumable.deviceId v),
    (PartialConsumable.name v);
    simpl; try discriminate;
    destruct (Sql.null_key _ || Sql.null_key _); simpl; try discriminate;
    destruct (negb (Sql.int4 _)); simpl; try discriminate;
    match goal with |- context [existsb ?p ?l] => destruct (existsb p l) eqn:E end;
    simpl; try discriminate; intros [= <-]; simpl; auto.
Qed.

Lemma insert_maintenanceTasks_returned v now s row :
  fst (Sql.insert_maintenanceTasks v now s) = Returned row ->
  maintenanceTasks (snd (Sql.insert_maintenanceTasks v now s)) = maintenanceTasks s ++ [row]
  /\ existsb (fun t => MaintenanceTask.id t =? MaintenanceTask.id row)
             (maintenanceTasks s) = false
  /\ PartialTask.deviceId v = Some (MaintenanceTask.deviceId row).
Proof.
  unfold Sql.insert_maintenanceTasks.
  destruct (Sql.maintenanceTasks_params v); [discriminate|].
  destruct (PartialTask.id v), (PartialTask.deviceId v), (PartialTask.name v),
    (PartialTask.intervalDays v);
    simpl; try discriminate;
    destruct (Sql.null_key _); simpl; try discriminate;
    destruct (negb (Sql.int4 _)); simpl; try discriminate;
    match goal with |- context [existsb ?p ?l] => destruct (existsb p l) eqn:E end;
    simpl; try discriminate;
    destruct (Sql.dangling_user s (PartialTask.completedBy v));
    simpl; try discriminate; intros [= <-]; simpl; auto.
Qed.

(** X13.  A row a creation route answers 201 with can be read back:
    [getDevice], [getConsumable] and [getTask] of its id return exactly
    that row, the device is among the devices of the session's user, and
    the consumable or task is among the rows listed under the device of
    the path.  This holds wherever the route returns, whatever the body
    carried. *)
Theorem created_rows_are_read_back :
  (forall u body now w d,
      fst (Routes.POST_api_devices (Some u) body now w)
      = Returned (Routes.Json 201 (Routes.DeviceBody (Some d))) ->
      device_of (after (Routes.POST_api_devices (Some u) body now) w) (Device.id d) = Some d
      /\ In d (Sql.select_devices_userId (User.id u)
                 (after (Routes.POST_api_devices (Some u) body now) w)))
  /\ (forall user id body now w c,
      fst (Routes.POST_api_devices_id_consumables user id body now w)
      = Returned (Routes.Json 201 (Routes.ConsumableBody (Some c))) ->
      consumable_of (after (Routes.POST_api_devices_id_consumables user id body now) w)
                    (Consumable.id c) = Some c
      /\ In c (Sql.select_consumables_deviceId id
                 (after (Routes.POST_api_devices_id_consumables user id body now) w)))
  /\ (forall user id body now w t,
      fst (Routes.POST_api_devices_id_tasks user id body now w)
      = Returned (Routes.Json 201 (Routes.TaskBody (Some t))) ->
      task_of (after (Routes.POST_api_devices_id_tasks user id body now) w)
              (MaintenanceTask.id t) = Some t
      /\ In t (Sql.select_maintenanceTasks_deviceId id
                 (after (Routes.POST_api_devices_id_tasks user id body now) w))).
Proof.
  split; [|split].
  - intros u body now w d.
    unfold after, Routes.POST_api_devices, DatabaseStorage.createDevice, bind.
    match goal with |- context [Sql.encode ?p] =>
      destruct (Sql.encode p) as [v|err] eqn:Ev end; [|discriminate].
    destruct (query_cases (Sql.insert_devices v now) w) as [E|(fl & E)]; rewrite E;
      [discriminate|].
    destruct (fst (Sql.insert_devices v now (db w))) as [row|err] eqn:Er;
      [|discriminate].
    cbn [fst snd db ret]. intros [= ->].
    destruct (insert_devices_returned _ _ _ _ Er) as (Ed & Hfree & Hu).
    unfold device_of, Sql.select_devices_id, Sql.select_devices_userId. rewrite Ed.
    split; [apply first_appended; [exact Hfree | apply Z.eqb_refl]|].
    apply filter_In. split; [apply in_or_app; right; now left|].
    apply encode_keys in Ev. destruct Ev as (_ & _ & _ & _ & Ev & _). simpl in Ev.
    apply Z.eqb_eq. congruence.
  - intros user id body now w c.
    unfold after, Routes.POST_api_devices_id_consumables.
    destruct user as [u|]; [|discriminate]. unfold bind.
    destruct (getDevice_cases id w) as [E|(fl & E)]; rewrite E; [discriminate|].
    destruct (device_of (db w) id) as [device|] eqn:Ed; [|discriminate].
    destruct (Routes.foreign device u) eqn:Ef; [discriminate|].
    rewrite (device_of_id _ _ _ Ed). unfold DatabaseStorage.createConsumable.
    destruct (Sql.encodeConsumable _) as [v|err] eqn:Ev; [|discriminate].
    match goal with |- context [query ?f ?w0] =>
      destruct (query_cases f w0) as [Eq|(fl' & Eq)]; rewrite Eq end; [discriminate|].
    cbn [db].
    destruct (fst (Sql.insert_consumables v now (db w))) as [row|err] eqn:Er;
      [|discriminate].
    cbn [fst snd db ret]. intros [= ->].
    destruct (insert_consumables_returned _ _ _ _ Er) as (Ec & Hfree & Hd).
    unfold consumable_of, Sql.select_consumables_id, Sql.select_consumables_deviceId.
    rewrite Ec.
    split; [apply first_appended; [exact Hfree | apply Z.eqb_refl]|].
    apply filter_In. split; [apply in_or_app; right; now left|].
    apply encodeConsumable_keys in Ev. destruct Ev as (_ & Ev & _).
    simpl in Ev. apply Z.eqb_eq. congruence.
  - intros user id body now w t.
    unfold after, Routes.POST_api_devices_id_tasks.
    destruct user as [u|]; [|discriminate]. unfold bind.
    destruct (getDevice_cases id w) as [E|(fl & E)]; rewrite E; [discriminate|].
    destruct (device_of (db w) id) as [device|] eqn:Ed; [|discriminate].
    destruct (Routes.foreign device u) eqn:Ef; [discriminate|].
    rewrite (device_of_id _ _ _ Ed). unfold DatabaseStorage.createTask.
    destruct (Sql.encodeTask _) as [v|err] eqn:Ev; [|discriminate].
    match goal with |- context [query ?f ?w0] =>
      destruct (query_cases f w0) as [Eq|(fl' & Eq)]; rewrite Eq end; [discriminate|].
    cbn [db].
    destruct (fst (Sql.insert_maintenanceTasks v now (db w))) as [row|err] eqn:Er;
      [|discriminate].
    cbn [fst snd db ret]. intros [= ->].
    destruct (insert_maintenanceTasks_returned _ _ _ _ Er) as (Et & Hfree & Hd).
    unfold task_of, Sql.select_maintenanceTasks_id, Sql.select_maintenanceTasks_deviceId.
    rewrite Et.
    split; [apply first_appended; [exact Hfree | apply Z.eqb_refl]|].
    apply filter_In. split; [apply in_or_app; right; now left|].
    apply encodeTask_keys in Ev. destruct Ev as (_ & Ev & _).
    simpl in Ev. apply Z.eqb_eq. congruence.
Qed.

Lemma created_rows_are_read_back_witness :
  fst (Routes.POST_api_devices_id_tasks (Some Sample.alice) 1 Sample.renamed 10
         (reliable Sample.home))
  = Returned
      (Routes.Json 201
         (Routes.TaskBody
            (Some (MaintenanceTask.mk 3 1 "Clean the lint filter" None 30 None
                                      (Some false) None None 10))))
  /\ task_of
       (after (Routes.POST_api_devices_id_tasks (Some Sample.alice) 1 Sample.renamed 10)
              (reliable Sample.home))
       3
     = Some (MaintenanceTask.mk 3 1 "Clean the lint filter" None 30 None
                                (Some false) None None 10).
Proof.
  split; [reflexivity|].
  destruct created_rows_are_read_back as (_ & _ & H).
  apply (H (Some Sample.alice) 1 Sample.renamed 10 (reliable Sample.home)
           (MaintenanceTask.mk 3 1 "Clean the lint filter" None 30 None
                               (Some false) None None 10)).
  reflexivity.
Defined.

(** ** Deleting *)

Lemma filter_other {A : Type} (g : A -> Z) (i o : Z) (l : list A) :
  o <> i ->
  filter (fun x => g x =? o) (filter (fun x => negb (g x =? i)) l)
  = filter (fun x => g x =? o) l.
Proof.
  intros H. induction l as [|x l IH]; simpl; auto.
  destruct (g x =? i) eqn:Ei; simpl.
  - apply Z.eqb_eq in Ei.
    assert ((g x =? o) = false) as -> by (apply Z.eqb_neq; congruence). exact IH.
  - destruct (g x =? o); now rewrite IH.
Qed.

(** X14.  The owner's deletion of a task or of a consumable is, the
    database answering, answered 204; afterwards the row cannot be read
    by its id any more, and the table holds exactly the rows of before
    with another id, unchanged. *)
Theorem deleted_rows_are_gone (s : Store) (u : User.t) (id : Z) :
  (task_access s u id = Owned ->
   Routes.DELETE_api_tasks_id (Some u) id (reliable s)
   = (Returned (Routes.SendStatus 204), reliable (Sql.delete_maintenanceTasks_id id s))
   /\ task_of (Sql.delete_maintenanceTasks_id id s) id = None
   /\ (forall t, In t (maintenanceTasks (Sql.delete_maintenanceTasks_id id s))
                 <-> In t (maintenanceTasks s) /\ MaintenanceTask.id t <> id))
  /\ (consumable_access s u id = Owned ->
      Routes.DELETE_api_consumables_id (Some u) id (reliable s)
      = (Returned (Routes.SendStatus 204), reliable (Sql.delete_consumables_id id s))
      /\ consumable_of (Sql.delete_consumables_id id s) id = None
      /\ (forall c, In c (consumables (Sql.delete_consumables_id id s))
                    <-> In c (consumables s) /\ Consumable.id c <> id)).
Proof.
  split; intros Ha.
  - split; [|split].
    + destruct (with_owned_task_reliable s u id
                  (fun task =>
                     bind (DatabaseStorage.deleteTask (MaintenanceTask.id task))
                          (fun _ => ret (Routes.SendStatus 204)))
                  Ha) as (t & Et & Er).
      unfold Routes.DELETE_api_tasks_id. rewrite Er, (task_of_id _ _ _ Et).
      reflexivity.
    + unfold task_of, Sql.select_maintenanceTasks_id; simpl.
      now rewrite (filter_out_selects (fun t => MaintenanceTask.id t =? id)).
    + intros t. simpl. rewrite filter_In, negb_true_iff, Z.eqb_neq. tauto.
  - split; [|split].
    + unfold consumable_access in Ha.
      destruct (consumable_of s id) as [c|] eqn:Ec; [|discriminate].
      unfold device_access in Ha.
      destruct (device_of s (Consumable.deviceId c)) as [d|] eqn:Ed; [|discriminate].
      destruct (Routes.foreign d u) eqn:Ef; [discriminate|].
      unfold Routes.DELETE_api_consumables_id. read_reliable. rewrite Ec.
      read_reliable. rewrite Ed, Ef. reflexivity.
    + unfold consumable_of, Sql.select_consumables_id; simpl.
      now rewrite (filter_out_selects (fun c => Consumable.id c =? id)).
    + intros c. simpl. rewrite filter_In, negb_true_iff, Z.eqb_neq. tauto.
Qed.

Lemma deleted_rows_are_gone_witness :
  (task_access Sample.home Sample.alice 1 = Owned
   /\ Routes.DELETE_api_tasks_id (Some Sample.alice) 1 (reliable Sample.home)
      = (Returned (Routes.SendStatus 204),
         reliable (Sql.delete_maintenanceTasks_id 1 Sample.home)))
  /\ (consumable_access Sample.home Sample.alice 1 = Owned
      /\ Routes.DELETE_api_consumables_id (Some Sample.alice) 1 (reliable Sample.home)
         = (Returned (Routes.SendStatus 204),
            reliable (Sql.delete_consumables_id 1 Sample.home))).
Proof.
  destruct (deleted_rows_are_gone Sample.home Sample.alice 1) as [Ht Hc].
  split; (split; [reflexivity|]).
  - apply Ht. reflexivity.
  - apply Hc. reflexivity.
Defined.

(** X15.  [deleteDevice] never touches what belongs to another device:
    run to the end or stopped by the database at any statement, it
    leaves the users, every device with another id, and the consumables
    and tasks under every other device exactly as they were. *)
Theorem deleteDevice_spares_other_devices (w : World) (id other : Z) :
  other <> id ->
  users (after (DatabaseStorage.deleteDevice id) w) = users (db w)
  /\ Sql.select_devices_id other (after (DatabaseStorage.deleteDevice id) w)
     = Sql.select_devices_id other (db w)
  /\ Sql.select_consumables_deviceId other (after (DatabaseStorage.deleteDevice id) w)
     = Sql.select_consumables_deviceId other (db w)
  /\ Sql.select_maintenanceTasks_deviceId other (after (DatabaseStorage.deleteDevice id) w)
     = Sql.select_maintenanceTasks_deviceId other (db w).
Proof.
  intros H. unfold after.
  destruct (deleteDevice_any id w) as (k & ->).
  pose proof (filter_other Device.id id other (devices (db w)) H) as Hd.
  pose proof (filter_other Consumable.deviceId id other (consumables (db w)) H) as Hc.
  pose proof (filter_other MaintenanceTask.deviceId id other (maintenanceTasks (db w)) H)
    as Ht.
  unfold Sql.select_devices_id, Sql.select_consumables_deviceId,
    Sql.select_maintenanceTasks_deviceId.
  destruct (cascade_prefix_cases k id (db w)) as [E|[E|[E|E]]]; rewrite E; simpl;
    rewrite ?Hd, ?Hc, ?Ht; auto.
Qed.

Lemma deleteDevice_spares_other_devices_witness :
  2 <> 1
  /\ Sql.select_maintenanceTasks_deviceId 2
       (after (DatabaseStorage.deleteDevice 1) (reliable Sample.home))
     = Sql.select_maintenanceTasks_deviceId 2 Sample.home.
Proof.
  assert (H : 2 <> 1) by discriminate.
  split; [exact H|].
  apply (deleteDevice_spares_other_devices (reliable Sample.home) 1 2 H).
Defined.

(** ** When the database fails a consumable route *)

Lemma update_consumables_threw v i s e :
  fst (Sql.update_consumables v i s) = Threw e -> snd (Sql.update_consumables v i s) = s.
Proof.
  unfold Sql.update_consumables.
  destruct (Sql.consumables_params v); [reflexivity|].
  destruct (Sql.select_consumables_id i s); [reflexivity|].
  destruct (Sql.null_key _ || Sql.null_key _); [reflexivity|].
  destruct (Sql.key_taken _ _ _); [reflexivity | discriminate].
Qed.

(** X16.  The two consumable routes catch what their own statement
    throws, and only that.  For a consumable of the user: when the
    database fails the update or the deletion itself, or refuses the
    update, for instance one that moves the consumable onto another
    one's id, the route answers 500 with its own message and the store
    is as it was; an update that drizzle cannot build, its payload
    holding no key or a [created_at] that is no [Date], is answered 500
    as well, and no statement is sent: a failure of the database that
    was to come is still to come.  When the database fails one of the
    two lookups before, the handler throws and answers nothing.  The
    task update has no such net: the same failure of its own statement
    makes the handler throw. *)
Theorem consumable_failures_are_answered (s : Store) (u : User.t) (id : Z)
    (body : PartialConsumable.t JsValue) :
  consumable_access s u id = Owned ->
  (forall values,
      PartialConsumable.has_values body = true ->
      Sql.encodeConsumable body = Returned values ->
      Routes.PUT_api_consumables_id (Some u) id body (mkWorld s (Some 2%nat))
      = (Returned (Routes.Json 500 (Routes.ErrorBody "Failed to update consumable")),
         reliable s)
      /\ (forall e,
            fst (Sql.update_consumables values id s) = Threw e ->
            Routes.PUT_api_consumables_id (Some u) id body (reliable s)
            = (Returned (Routes.Json 500 (Routes.ErrorBody "Failed to update consumable")),
               reliable s)))
  /\ (PartialConsumable.has_values body = false
      \/ (exists e, Sql.encodeConsumable body = Threw e) ->
      Routes.PUT_api_consumables_id (Some u) id body (mkWorld s (Some 2%nat))
      = (Returned (Routes.Json 500 (Routes.ErrorBody "Failed to update consumable")),
         mkWorld s (Some 0%nat))
      /\ Routes.PUT_api_consumables_id (Some u) id body (reliable s)
         = (Returned (Routes.Json 500 (Routes.ErrorBody "Failed to update consumable")),
            reliable s))
  /\ Routes.DELETE_api_consumables_id (Some u) id (mkWorld s (Some 2%nat))
     = (Returned (Routes.Json 500 (Routes.ErrorBody "Failed to delete consumable")),
        reliable s)
  /\ (forall k, (k < 2)%nat ->
        Routes.PUT_api_consumables_id (Some u) id body (mkWorld s (Some k))
        = (Threw PersistenceError, reliable s)
        /\ Routes.DELETE_api_consumables_id (Some u) id (mkWorld s (Some k))
           = (Threw PersistenceError, reliable s))
  /\ (forall tid tbody tvalues,
        task_access s u tid = Owned ->
        PartialTask.has_values tbody = true ->
        Sql.encodeTask tbody = Returned tvalues ->
        Routes.PUT_api_tasks_id (Some u) tid tbody (mkWorld s (Some 2%nat))
        = (Threw PersistenceError, reliable s)).
Proof.
  intros Ha. unfold consumable_access in Ha.
  destruct (consumable_of s id) as [c|] eqn:Ec; [|discriminate].
  unfold device_access in Ha.
  destruct (device_of s (Consumable.deviceId c)) as [d|] eqn:Ed; [|discriminate].
  destruct (Routes.foreign d u) eqn:Ef; [discriminate|].
  unfold consumable_of in Ec. unfold device_of in Ed.
  split; [|split; [|split; [|split]]].
  - intros values Hv Ev. split.
    + unfold Routes.PUT_api_consumables_id, DatabaseStorage.getConsumable,
        DatabaseStorage.getDevice, bind, query, ret; cbn [fault db].
      rewrite Ec. cbn [fault db]. rewrite Ed, Ef.
      unfold try_catch, DatabaseStorage.updateConsumable. rewrite Hv, Ev.
      reflexivity.
    + intros e He.
      unfold Routes.PUT_api_consumables_id, DatabaseStorage.getConsumable,
        DatabaseStorage.getDevice, bind, query, ret; cbn [fault db reliable].
      rewrite Ec. cbn [fault db]. rewrite Ed, Ef.
      unfold try_catch, DatabaseStorage.updateConsumable. rewrite Hv, Ev.
      unfold bind, query; cbn [fault db].
      pose proof (update_consumables_threw _ _ _ _ He) as Hs.
      destruct (Sql.update_consumables values id s) as [r s0].
      simpl in He, Hs. subst. reflexivity.
  - intros Hb. split;
      unfold Routes.PUT_api_consumables_id, DatabaseStorage.getConsumable,
        DatabaseStorage.getDevice, bind, query, ret; cbn [fault db reliable];
      rewrite Ec; cbn [fault db]; rewrite Ed, Ef;
      unfold try_catch, DatabaseStorage.updateConsumable;
      destruct Hb as [Hb|(e & Hb)]; rewrite Hb; try reflexivity;
      destruct (PartialConsumable.has_values body); reflexivity.
  - unfold Routes.DELETE_api_consumables_id, DatabaseStorage.getConsumable,
      DatabaseStorage.getDevice, bind, query, ret; cbn [fault db].
    rewrite Ec. cbn [fault db]. rewrite Ed, Ef. reflexivity.
  - intros k Hk. destruct k as [|[|k]]; [| |lia]; split;
      unfold Routes.PUT_api_consumables_id, Routes.DELETE_api_consumables_id,
        DatabaseStorage.getConsumable, DatabaseStorage.getDevice, bind, query, ret;
      cbn [fault db]; try reflexivity;
      rewrite Ec; reflexivity.
  - intros tid tbody tvalues Ht Hv Ev. unfold task_access in Ht.
    destruct (task_of s tid) as [t|] eqn:Et; [|discriminate].
    unfold device_access in Ht.
    destruct (device_of s (MaintenanceTask.deviceId t)) as [d'|] eqn:Ed'; [|discriminate].
    destruct (Routes.foreign d' u) eqn:Ef'; [discriminate|].
    unfold task_of in Et. unfold device_of in Ed'.
    unfold Routes.PUT_api_tasks_id, Routes.with_owned_task, DatabaseStorage.getTask,
      DatabaseStorage.getDevice, bind, query, ret; cbn [fault db].
    rewrite Et. cbn [fault db]. rewrite Ed', Ef'.
    unfold DatabaseStorage.updateTask. rewrite Hv, Ev. reflexivity.
Qed.

Lemma consumable_failures_are_answered_witness :
  consumable_access Sample.home Sample.alice 1 = Owned
  /\ (PartialConsumable.has_values
        (PartialConsumable.mk None None (Some "Descaler tabs"%string) None None None
                              None (@None JsValue) None) = true
      /\ Routes.PUT_api_consumables_id (Some Sample.alice) 1
           (PartialConsumable.mk None None (Some "Descaler tabs"%string) None None None
                                 None None None)
           (mkWorld Sample.home (Some 2%nat))
         = (Returned (Routes.Json 500 (Routes.ErrorBody "Failed to update consumable")),
            reliable Sample.home))
  /\ (PartialConsumable.has_values (@PartialConsumable.empty JsValue) = false
      /\ Routes.PUT_api_consumables_id (Some Sample.alice) 1 PartialConsumable.empty
           (mkWorld Sample.home (Some 2%nat))
         = (Returned (Routes.Json 500 (Routes.ErrorBody "Failed to update consumable")),
            mkWorld Sample.home (Some 0%nat))).
Proof.
  split; [reflexivity|]. split.
  - split; [reflexivity|].
    destruct (consumable_failures_are_answered Sample.home Sample.alice 1
                (PartialConsumable.mk None None (Some "Descaler tabs"%string) None None
                                      None None None None) eq_refl) as (H & _).
    destruct (H _ eq_refl eq_refl) as [H1 _]. exact H1.
  - split; [reflexivity|].
    destruct (consumable_failures_are_answered Sample.home Sample.alice 1
                PartialConsumable.empty eq_refl) as (_ & H & _).
    destruct (H (or_introl eq_refl)) as [H1 _]. exact H1.
Defined.

(** ** The two lists of the dashboard *)


Section DashboardLists.
Variable addDays : Timestamp -> Z -> Timestamp.


End DashboardLists.


(** ** Creating a device *)



